(** * The IPDBG logic-analyser protocol engine (src/hardware/ipdbg-la/protocol.c)

    A shallow embedding of the protocol functions of libsigrok's ipdbg-la
    driver, and the properties of the specification checked against it.

    Conventions of the embedding.
    - A C integer is a [Z]; the wrap-around of the unsigned types is written
      out with [u8], [u16], [u32], [u64].
    - A byte array is a [list Z]; a pointer into an array is the suffix of
      the list it points at.  A read or write outside the array is undefined
      behaviour in C and is [None] here.
    - The socket is a record holding what the peer will deliver, what
      [send()] will answer, and the bytes put on the wire so far.  Functions
      that talk to the socket live in the monad [io]. *)

From Stdlib Require Import ZArith Lia Bool.
From Stdlib Require Import String Ascii.
From Stdlib Require DecimalString.
From stdpp Require Import base option list.
From Corelib Require Import SpecFloat.

Local Open Scope Z_scope.

(** ** C integers *)

Module Cint.

Definition u8 (z : Z) : Z := z mod 2 ^ 8.
Definition u16 (z : Z) : Z := z mod 2 ^ 16.
Definition u32 (z : Z) : Z := z mod 2 ^ 32.
Definition u64 (z : Z) : Z := z mod 2 ^ 64.

Definition INT_MIN : Z := - 2 ^ 31.
Definition INT_MAX : Z := 2 ^ 31 - 1.

(** Conversion of an out-of-range value to [int]: implementation-defined,
    modulo 2^32 on the compilers libsigrok is built with. *)
Definition to_int (z : Z) : Z := (z + 2 ^ 31) mod 2 ^ 32 - 2 ^ 31.

Definition is_byte (b : Z) : Prop := 0 <= b < 256.

End Cint.
Import Cint.

(** ** Status codes and opcodes *)

(** Modelled from the spec: the status codes are declared in libsigrok.h,
    which is not among the sources; protocol.c returns these two. *)
Inductive sr_status := SR_OK | SR_ERR.

(** The opcodes and feature bits of protocol.c, lines 40-77. *)

Definition CMD_SET_TRIGGER : Z := 0x00.
Definition CMD_CFG_TRIGGER : Z := 0xF0.
Definition CMD_CFG_LA : Z := 0x0F.
Definition CMD_START : Z := 0xFE.
Definition CMD_RESET : Z := 0xEE.
Definition CMD_GET_BUS_WIDTHS : Z := 0xAA.
Definition CMD_GET_LA_ID : Z := 0xBB.
Definition CMD_ESCAPE : Z := 0x55.
Definition CMD_TRIG_MASKS : Z := 0xF1.
Definition CMD_TRIG_MASK : Z := 0xF3.
Definition CMD_TRIG_VALUE : Z := 0xF7.
Definition CMD_TRIG_MASKS_LAST : Z := 0xF9.
Definition CMD_TRIG_MASK_LAST : Z := 0xFB.
Definition CMD_TRIG_VALUE_LAST : Z := 0xFF.
Definition CMD_TRIG_SELECT_EDGE_MASK : Z := 0xF5.
Definition CMD_TRIG_SET_EDGE_MASK : Z := 0xF6.
Definition CMD_LA_DELAY : Z := 0x1F.
Definition CMD_GET_FEATURES : Z := 0x10.
Definition CMD_GET_RLC_WIDTH : Z := 0x60.
Definition CMD_GET_CHANNEL_NAMES : Z := 0x70.
Definition CMD_GET_SAMPLE_RATE : Z := 0x80.

Definition FEATURE_AUGMENTER_APP_ENABLED : Z := 0x00000001.
Definition FEATURE_RUNLENGTH_CODER_ENABLED : Z := 0x00000002.
Definition FEATURE_AUGMENTER_SAMPLERATE_ENABLED : Z := 0x00000004.
Definition FEATURE_AUGMENTER_CH_NAMES_ENABLED : Z := 0x00000008.

Definition host_word_size : Z := 8.

(** ** The socket *)

(** Modelled from the spec: [struct ipdbg_la_tcp] is declared in protocol.h,
    which is not among the sources, and holds the address, the port and the
    socket.  The model keeps what the functions of protocol.c can see of
    the socket: the ByteLink of the specification, an ordered stream of
    bytes in each direction. *)

(** What one call of [ipdbg_la_tcp_receive] finds on the socket. *)
Inductive rx_event :=
| RxIdle                    (* FIONREAD reports nothing to read *)
| RxError                   (* data is reported but recv() fails *)
| RxData (bytes : list Z).  (* these bytes are waiting *)

Record ipdbg_la_tcp := mk_tcp {
  sock_rx : list rx_event;  (* what the coming receive calls will find *)
  sock_tx : list Z;         (* what the coming send() calls will return;
                               once exhausted, send() takes everything *)
  sock_wire : list Z        (* bytes accepted by send(), oldest first *)
}.

(** A socket on which every [send()] succeeds in full. *)
Definition reliable (rx : list rx_event) (wire : list Z) : ipdbg_la_tcp :=
  mk_tcp rx [] wire.

(** ** Computations on the socket; [None] is undefined behaviour *)

Definition io (A : Type) : Type := ipdbg_la_tcp -> option (A * ipdbg_la_tcp).

Definition io_ret {A} (a : A) : io A := fun tcp => Some (a, tcp).
Definition io_bind {A B} (c : io A) (k : A -> io B) : io B :=
  fun tcp => match c tcp with
             | Some (a, tcp') => k a tcp'
             | None => None
             end.
Definition io_undefined {A} : io A := fun _ => None.

Declare Scope io_scope.
Delimit Scope io_scope with io.
Notation "x <-- c ;; k" := (io_bind c (fun x => k))
  (at level 100, c at next level, right associativity) : io_scope.
Notation "c ;;; k" := (io_bind c (fun _ => k))
  (at level 100, right associativity) : io_scope.

(** [for (i = from; i < from + n; i++) body(i)] *)
Fixpoint io_for (n : nat) (i : Z) (body : Z -> io unit) : io unit :=
  match n with
  | O => io_ret tt
  | S n' => io_bind (body i) (fun _ => io_for n' (i + 1) body)
  end.

(** Array access: [a[i]], undefined outside the array. *)
Definition peek (a : list Z) (i : Z) : option Z :=
  if i <? 0 then None else a !! Z.to_nat i.

(** [a + i]: the array from index [i] on; [a + length] is a valid pointer. *)
Definition ptr_add (a : list Z) (i : Z) : option (list Z) :=
  if (i <? 0) || (Z.of_nat (length a) <? i) then None
  else Some (drop (Z.to_nat i) a).

(** [tcp_send] (lines 174-188): hand [buf] to [send()]; a negative answer is
    an error, a short count is only logged. *)
Definition tcp_send (buf : list Z) : io sr_status :=
  fun tcp =>
    let out := match sock_tx tcp with
               | [] => Z.of_nat (length buf)
               | r :: _ => r
               end in
    let tcp' := mk_tcp (sock_rx tcp) (tail (sock_tx tcp))
                       (sock_wire tcp ++ take (Z.to_nat out) buf) in
    Some (if out <? 0 then SR_ERR else SR_OK, tcp').

(** [ipdbg_la_tcp_receive] (lines 211-222): the bytes read and the return
    value. *)
Definition ipdbg_la_tcp_receive (bufsize : Z) : io (Z * list Z) :=
  fun tcp =>
    match sock_rx tcp with
    | [] => Some ((0, []), tcp)
    | RxIdle :: rx => Some ((0, []), mk_tcp rx (sock_tx tcp) (sock_wire tcp))
    | RxError :: rx => Some ((-1, []), mk_tcp rx (sock_tx tcp) (sock_wire tcp))
    | RxData bytes :: rx =>
        let got := take (Z.to_nat bufsize) bytes in
        let rest := drop (Z.to_nat bufsize) bytes in
        let rx' := match rest with [] => rx | _ => RxData rest :: rx end in
        Some ((Z.of_nat (length got), got),
              mk_tcp rx' (sock_tx tcp) (sock_wire tcp))
    end.

(** [tcp_receive_blocking] (lines 190-209).  Every turn of the loop either
    receives a byte or counts an error, so [bufsize + 2000] turns suffice. *)
Fixpoint tcp_receive_blocking_loop (fuel : nat)
    (bufsize received error_count : Z) (buf : list Z) : io (Z * list Z) :=
  match fuel with
  | O => io_ret (received, buf)
  | S fuel' =>
      if (received <? bufsize) && (error_count <? 2000) then
        io_bind (ipdbg_la_tcp_receive (bufsize - received))
          (fun '(recd, bytes) =>
             if 0 <? recd then
               tcp_receive_blocking_loop fuel' bufsize (received + recd)
                 error_count (buf ++ bytes)
             else
               tcp_receive_blocking_loop fuel' bufsize received
                 (error_count + 1) buf)
      else io_ret (received, buf)
  end.

Definition tcp_receive_blocking (bufsize : Z) : io (Z * list Z) :=
  tcp_receive_blocking_loop (Z.to_nat bufsize + 2000) bufsize 0 0 [].

(** ** FrameEncoder: [send_escaping] (lines 456-477) *)

Fixpoint send_escaping (data_to_send : list Z) (length : nat) {struct length}
  : io sr_status :=
  match length with
  | O => io_ret SR_OK
  | S length' =>
      match data_to_send with
      | [] => io_undefined
      | payload :: data_to_send' =>
          (_ <-- (if payload =? CMD_RESET then tcp_send [CMD_ESCAPE]
                  else io_ret SR_OK) ;;
           _ <-- (if payload =? CMD_ESCAPE then tcp_send [CMD_ESCAPE]
                  else io_ret SR_OK) ;;
           _ <-- tcp_send [payload] ;;
           send_escaping data_to_send' length')%io
      end
  end.

(** The escape rule of the specification, written on its own. *)
Definition escape_byte (b : Z) : list Z :=
  if (b =? 0xEE) || (b =? 0x55) then [0x55; b] else [b].

Definition escape (bytes : list Z) : list Z := concat (map escape_byte bytes).

(** ** The device context *)

(** Modelled from the spec: [struct dev_context] is declared in protocol.h,
    which is not among the sources.  The fields are those protocol.c uses,
    with the widths of the specification's data model: the widths and the
    feature bits are 32-bit, the sample counts, the delay, the transfer
    counter and the sample rate 64-bit, the run-length code width and the
    version one byte each. *)
Record dev_context := mk_devc {
  data_width : Z;
  data_width_bytes : Z;
  addr_width : Z;
  addr_width_bytes : Z;
  limit_samples : Z;
  limit_samples_max : Z;
  capture_ratio : Z;
  trigger_mask : list Z;
  trigger_value : list Z;
  trigger_mask_last : list Z;
  trigger_value_last : list Z;
  trigger_edge_mask : list Z;
  delay_value : Z;
  num_stages : Z;
  num_transfers : Z;
  raw_sample_buf : option (list Z);
  features : Z;
  runlength_code_width : Z;
  version : Z;
  cur_samplerate : Z
}.

Definition set_trigger_mask (v : list Z) (d : dev_context) : dev_context :=
  mk_devc (data_width d) (data_width_bytes d) (addr_width d)
    (addr_width_bytes d) (limit_samples d) (limit_samples_max d)
    (capture_ratio d) v (trigger_value d) (trigger_mask_last d)
    (trigger_value_last d) (trigger_edge_mask d) (delay_value d)
    (num_stages d) (num_transfers d) (raw_sample_buf d) (features d)
    (runlength_code_width d) (version d) (cur_samplerate d).

Definition set_trigger_value (v : list Z) (d : dev_context) : dev_context :=
  mk_devc (data_width d) (data_width_bytes d) (addr_width d)
    (addr_width_bytes d) (limit_samples d) (limit_samples_max d)
    (capture_ratio d) (trigger_mask d) v (trigger_mask_last d)
    (trigger_value_last d) (trigger_edge_mask d) (delay_value d)
    (num_stages d) (num_transfers d) (raw_sample_buf d) (features d)
    (runlength_code_width d) (version d) (cur_samplerate d).

Definition set_trigger_mask_last (v : list Z) (d : dev_context) : dev_context :=
  mk_devc (data_width d) (data_width_bytes d) (addr_width d)
    (addr_width_bytes d) (limit_samples d) (limit_samples_max d)
    (capture_ratio d) (trigger_mask d) (trigger_value d) v
    (trigger_value_last d) (trigger_edge_mask d) (delay_value d)
    (num_stages d) (num_transfers d) (raw_sample_buf d) (features d)
    (runlength_code_width d) (version d) (cur_samplerate d).

Definition set_trigger_value_last (v : list Z) (d : dev_context) : dev_context :=
  mk_devc (data_width d) (data_width_bytes d) (addr_width d)
    (addr_width_bytes d) (limit_samples d) (limit_samples_max d)
    (capture_ratio d) (trigger_mask d) (trigger_value d)
    (trigger_mask_last d) v (trigger_edge_mask d) (delay_value d)
    (num_stages d) (num_transfers d) (raw_sample_buf d) (features d)
    (runlength_code_width d) (version d) (cur_samplerate d).

Definition set_trigger_edge_mask (v : list Z) (d : dev_context) : dev_context :=
  mk_devc (data_width d) (data_width_bytes d) (addr_width d)
    (addr_width_bytes d) (limit_samples d) (limit_samples_max d)
    (capture_ratio d) (trigger_mask d) (trigger_value d)
    (trigger_mask_last d) (trigger_value_last d) v (delay_value d)
    (num_stages d) (num_transfers d) (raw_sample_buf d) (features d)
    (runlength_code_width d) (version d) (cur_samplerate d).

Definition set_delay_value (v : Z) (d : dev_context) : dev_context :=
  mk_devc (data_width d) (data_width_bytes d) (addr_width d)
    (addr_width_bytes d) (limit_samples d) (limit_samples_max d)
    (capture_ratio d) (trigger_mask d) (trigger_value d)
    (trigger_mask_last d) (trigger_value_last d) (trigger_edge_mask d) v
    (num_stages d) (num_transfers d) (raw_sample_buf d) (features d)
    (runlength_code_width d) (version d) (cur_samplerate d).

Definition set_num_stages (v : Z) (d : dev_context) : dev_context :=
  mk_devc (data_width d) (data_width_bytes d) (addr_width d)
    (addr_width_bytes d) (limit_samples d) (limit_samples_max d)
    (capture_ratio d) (trigger_mask d) (trigger_value d)
    (trigger_mask_last d) (trigger_value_last d) (trigger_edge_mask d)
    (delay_value d) v (num_transfers d) (raw_sample_buf d) (features d)
    (runlength_code_width d) (version d) (cur_samplerate d).

Definition set_num_transfers (v : Z) (d : dev_context) : dev_context :=
  mk_devc (data_width d) (data_width_bytes d) (addr_width d)
    (addr_width_bytes d) (limit_samples d) (limit_samples_max d)
    (capture_ratio d) (trigger_mask d) (trigger_value d)
    (trigger_mask_last d) (trigger_value_last d) (trigger_edge_mask d)
    (delay_value d) (num_stages d) v (raw_sample_buf d) (features d)
    (runlength_code_width d) (version d) (cur_samplerate d).

Definition set_raw_sample_buf (v : option (list Z)) (d : dev_context) : dev_context :=
  mk_devc (data_width d) (data_width_bytes d) (addr_width d)
    (addr_width_bytes d) (limit_samples d) (limit_samples_max d)
    (capture_ratio d) (trigger_mask d) (trigger_value d)
    (trigger_mask_last d) (trigger_value_last d) (trigger_edge_mask d)
    (delay_value d) (num_stages d) (num_transfers d) v (features d)
    (runlength_code_width d) (version d) (cur_samplerate d).

Definition set_cur_samplerate (v : Z) (d : dev_context) : dev_context :=
  mk_devc (data_width d) (data_width_bytes d) (addr_width d)
    (addr_width_bytes d) (limit_samples d) (limit_samples_max d)
    (capture_ratio d) (trigger_mask d) (trigger_value d)
    (trigger_mask_last d) (trigger_value_last d) (trigger_edge_mask d)
    (delay_value d) (num_stages d) (num_transfers d) (raw_sample_buf d)
    (features d) (runlength_code_width d) (version d) v.

(** The five trigger vectors, in the order [ipdbg_la_send_trigger] sends
    them. *)
Inductive trigger_vector :=
  Vmask | Vvalue | Vmask_last | Vvalue_last | Vedge_mask.

Definition vector_of (v : trigger_vector) (d : dev_context) : list Z :=
  match v with
  | Vmask => trigger_mask d
  | Vvalue => trigger_value d
  | Vmask_last => trigger_mask_last d
  | Vvalue_last => trigger_value_last d
  | Vedge_mask => trigger_edge_mask d
  end.

Definition set_vector (v : trigger_vector) (a : list Z) (d : dev_context)
  : dev_context :=
  match v with
  | Vmask => set_trigger_mask a d
  | Vvalue => set_trigger_value a d
  | Vmask_last => set_trigger_mask_last a d
  | Vvalue_last => set_trigger_value_last a d
  | Vedge_mask => set_trigger_edge_mask a d
  end.

(** [devc->v[i] = f (devc->v[i])], undefined outside the vector. *)
Definition vector_update (v : trigger_vector) (i : Z) (f : Z -> Z)
    (d : dev_context) : option dev_context :=
  x ← peek (vector_of v d) i;
  Some (set_vector v (<[Z.to_nat i := f x]> (vector_of v d)) d).

(** [x |= bit] and [x &= ~bit] on a [uint8_t]. *)
Definition set_bit (bit x : Z) : Z := u8 (Z.lor x bit).
Definition clear_bit (bit x : Z) : Z := u8 (Z.land x (Z.lnot bit)).

(** ** The trigger specification *)

(** Modelled from the spec: the trigger of a session, its stages, their
    matches and the channels are declared in libsigrok.h, which is not among
    the sources.  A match names a channel, with its index and whether it is
    enabled, and a kind; the kinds are those of [enum sr_trigger_matches],
    of which protocol.c handles the first five. *)

Inductive sr_trigger_matches :=
| SR_TRIGGER_ZERO | SR_TRIGGER_ONE | SR_TRIGGER_RISING | SR_TRIGGER_FALLING
| SR_TRIGGER_EDGE | SR_TRIGGER_OVER | SR_TRIGGER_UNDER.

Record sr_channel := mk_channel { index : Z; enabled : bool }.
Record sr_trigger_match :=
  mk_match { channel : sr_channel; match_kind : sr_trigger_matches }.
Record sr_trigger_stage := mk_stage { matches : list sr_trigger_match }.
Record sr_trigger := mk_trigger { stages : list sr_trigger_stage }.

(** ** TriggerTranslator: [ipdbg_la_convert_trigger] (lines 224-292) *)

(** The body of the first loop (lines 238-244). *)
Definition clear_vectors_at (i : Z) (d : dev_context) : option dev_context :=
  d ← vector_update Vmask i (fun _ => 0) d;
  d ← vector_update Vvalue i (fun _ => 0) d;
  d ← vector_update Vmask_last i (fun _ => 0) d;
  d ← vector_update Vvalue_last i (fun _ => 0) d;
  vector_update Vedge_mask i (fun _ => 0) d.

Fixpoint clear_vectors (n : nat) (i : Z) (d : dev_context)
  : option dev_context :=
  match n with
  | O => Some d
  | S n' => d ← clear_vectors_at i d; clear_vectors n' (i + 1) d
  end.

(** The body of the inner loop (lines 252-287). *)
Definition convert_match (m : sr_trigger_match) (d : dev_context)
  : option dev_context :=
  let byte_idx := Z.quot (index (channel m)) 8 in
  if Z.rem (index (channel m)) 8 <? 0 then None else
  let match_bit := u8 (Z.shiftl 1 (Z.rem (index (channel m)) 8)) in
  if negb (enabled (channel m)) then Some d else
  match match_kind m with
  | SR_TRIGGER_ONE =>
      d ← vector_update Vvalue byte_idx (set_bit match_bit) d;
      d ← vector_update Vmask byte_idx (set_bit match_bit) d;
      d ← vector_update Vmask_last byte_idx (clear_bit match_bit) d;
      vector_update Vedge_mask byte_idx (clear_bit match_bit) d
  | SR_TRIGGER_ZERO =>
      d ← vector_update Vvalue byte_idx (clear_bit match_bit) d;
      d ← vector_update Vmask byte_idx (set_bit match_bit) d;
      d ← vector_update Vmask_last byte_idx (clear_bit match_bit) d;
      vector_update Vedge_mask byte_idx (clear_bit match_bit) d
  | SR_TRIGGER_RISING =>
      d ← vector_update Vvalue byte_idx (set_bit match_bit) d;
      d ← vector_update Vvalue_last byte_idx (clear_bit match_bit) d;
      d ← vector_update Vmask byte_idx (set_bit match_bit) d;
      d ← vector_update Vmask_last byte_idx (set_bit match_bit) d;
      vector_update Vedge_mask byte_idx (clear_bit match_bit) d
  | SR_TRIGGER_FALLING =>
      d ← vector_update Vvalue byte_idx (clear_bit match_bit) d;
      d ← vector_update Vvalue_last byte_idx (set_bit match_bit) d;
      d ← vector_update Vmask byte_idx (set_bit match_bit) d;
      d ← vector_update Vmask_last byte_idx (set_bit match_bit) d;
      vector_update Vedge_mask byte_idx (clear_bit match_bit) d
  | SR_TRIGGER_EDGE =>
      d ← vector_update Vmask byte_idx (clear_bit match_bit) d;
      d ← vector_update Vmask_last byte_idx (clear_bit match_bit) d;
      vector_update Vedge_mask byte_idx (set_bit match_bit) d
  | _ => Some d
  end.

Fixpoint convert_matches (ms : list sr_trigger_match) (d : dev_context)
  : option dev_context :=
  match ms with
  | [] => Some d
  | m :: ms' => d ← convert_match m d; convert_matches ms' d
  end.

Fixpoint convert_stages (ss : list sr_trigger_stage) (d : dev_context)
  : option dev_context :=
  match ss with
  | [] => Some d
  | s :: ss' => d ← convert_matches (matches s) d; convert_stages ss' d
  end.

(** [trigger] is what [sr_session_trigger_get] answers for the session. *)
Definition ipdbg_la_convert_trigger (trigger : option sr_trigger)
    (devc : dev_context) : option (sr_status * dev_context) :=
  let devc := set_num_stages 0 devc in
  let devc := set_num_transfers 0 devc in
  let devc := set_raw_sample_buf None devc in
  devc ← clear_vectors (Z.to_nat (data_width_bytes devc)) 0 devc;
  match trigger with
  | None => Some (SR_OK, devc)
  | Some trigger =>
      devc ← convert_stages (stages trigger) devc;
      Some (SR_OK, devc)
  end.

(** ** TriggerSerializer: [ipdbg_la_send_trigger] (lines 502-568) *)

(** One of the five blocks: three opcodes, then the vector from its last
    byte to its first, every byte through [send_escaping]. *)
Definition send_vector (group selector : Z) (v : trigger_vector)
    (devc : dev_context) : io unit :=
  (_ <-- tcp_send [CMD_CFG_TRIGGER] ;;
   _ <-- tcp_send [group] ;;
   _ <-- tcp_send [selector] ;;
   io_for (Z.to_nat (data_width_bytes devc)) 0 (fun i =>
     match ptr_add (vector_of v devc) (data_width_bytes devc - 1 - i) with
     | Some p => _ <-- send_escaping p 1 ;; io_ret tt
     | None => io_undefined
     end))%io.

Definition ipdbg_la_send_trigger (devc : dev_context) : io sr_status :=
  (send_vector CMD_TRIG_MASKS CMD_TRIG_MASK Vmask devc ;;;
   send_vector CMD_TRIG_MASKS CMD_TRIG_VALUE Vvalue devc ;;;
   send_vector CMD_TRIG_MASKS_LAST CMD_TRIG_MASK_LAST Vmask_last devc ;;;
   send_vector CMD_TRIG_MASKS_LAST CMD_TRIG_VALUE_LAST Vvalue_last devc ;;;
   send_vector CMD_TRIG_SELECT_EDGE_MASK CMD_TRIG_SET_EDGE_MASK Vedge_mask
     devc ;;;
   io_ret SR_OK)%io.

(** ** Delay: [ipdbg_la_send_delay] (lines 479-500) *)

(** The C [double] is IEEE 754 binary64, evaluated to nearest-even. *)
Module Cdouble.

Definition prec : Z := 53.
Definition emax : Z := 1024.

(** Conversion of an integer to [double]. *)
Definition of_Z (n : Z) : spec_float := binary_normalize prec emax n 0 false.

Definition div : spec_float -> spec_float -> spec_float := SFdiv prec emax.
Definition mul : spec_float -> spec_float -> spec_float := SFmul prec emax.

(** Conversion to [uint64_t]: the fraction is discarded; undefined when
    the integral part does not fit. *)
Definition to_u64 (f : spec_float) : option Z :=
  match f with
  | S754_zero _ => Some 0
  | S754_finite s m e =>
      let t := if 0 <=? e then Z.pos m * 2 ^ e else Z.pos m / 2 ^ (- e) in
      if s then (if t =? 0 then Some 0 else None)
      else if t <? 2 ^ 64 then Some t else None
  | _ => None
  end.

End Cdouble.

(** Line 482. *)
Definition delay_of (limit_samples capture_ratio : Z) : option Z :=
  Cdouble.to_u64
    (Cdouble.mul
       (Cdouble.div (Cdouble.of_Z (u64 (limit_samples - 1)))
                    (Cdouble.of_Z 100))
       (Cdouble.of_Z capture_ratio)).

Definition ipdbg_la_send_delay (devc : dev_context)
  : io (sr_status * dev_context) :=
  match delay_of (limit_samples devc) (capture_ratio devc) with
  | None => io_undefined
  | Some dv =>
      let devc := set_delay_value dv devc in
      let delay_buf :=
        [ Z.land (delay_value devc) 0x000000ff;
          Z.land (Z.shiftr (delay_value devc) 8) 0x000000ff;
          Z.land (Z.shiftr (delay_value devc) 16) 0x000000ff;
          Z.land (Z.shiftr (delay_value devc) 24) 0x000000ff ] in
      (_ <-- tcp_send [CMD_CFG_LA] ;;
       _ <-- tcp_send [CMD_LA_DELAY] ;;
       io_for (Z.to_nat (addr_width_bytes devc)) 0 (fun i =>
         match ptr_add delay_buf (addr_width_bytes devc - 1 - i) with
         | Some p => _ <-- send_escaping p 1 ;; io_ret tt
         | None => io_undefined
         end) ;;;
       io_ret (SR_OK, devc))%io
  end.

(** ** GLib allocation (gmem.h) *)

(** [g_malloc n]: [NULL] for a request of 0 bytes, otherwise a block of [n]
    bytes (the program is aborted when memory is short).  The content of a
    fresh block is unspecified; the model fills it with 0. *)
Definition g_malloc (n : Z) : option (list Z) :=
  if n =? 0 then None else Some (replicate (Z.to_nat n) 0).

(** [g_try_malloc n]: [NULL] for a request of 0 bytes and when memory is
    short; [can_alloc n] says whether [n] bytes can be had. *)
Definition g_try_malloc (can_alloc : Z -> bool) (n : Z) : option (list Z) :=
  if n =? 0 then None
  else if can_alloc n then Some (replicate (Z.to_nat n) 0) else None.

(** [memcpy (&dst[off], src, n)]. *)
Definition memcpy_at (dst : list Z) (off : Z) (src : list Z) (n : Z)
  : option (list Z) :=
  if (off <? 0) || (n <? 0) || (Z.of_nat (length dst) <? off + n)
     || (Z.of_nat (length src) <? n)
  then None
  else Some (take (Z.to_nat off) dst ++ take (Z.to_nat n) src
               ++ drop (Z.to_nat (off + n)) dst).

(** ** AcquisitionDecoder: [ipdbg_la_runlength_decode] (lines 294-366) *)

(** Lines 310-316: the widths, in bytes, and the mask of the run-length
    field. *)
Definition raw_data_width_bytes (devc : dev_context) : Z :=
  u32 (data_width devc + runlength_code_width devc + host_word_size - 1)
  / host_word_size.

Definition decode_data_width_bytes (devc : dev_context) : Z :=
  u32 (data_width devc + host_word_size - 1) / host_word_size.

Definition runlength_count_mask (devc : dev_context) : option Z :=
  if 64 <=? runlength_code_width devc then None
  else Some (u32 (u64 (Z.shiftl 1 (runlength_code_width devc)) - 1)).

Definition runlength_code_width_bytes (devc : dev_context) : Z :=
  (runlength_code_width devc + host_word_size - 1) / host_word_size.

(** Lines 325-327: the bytes of the run-length field of the sample at
    [base], or-ed into a [uint32_t]. *)
Fixpoint read_code (n : nat) (byte : Z) (raw : list Z) (base : Z) (acc : Z)
  : option Z :=
  match n with
  | O => Some acc
  | S n' =>
      x ← peek raw (base + byte);
      if 32 <=? byte * host_word_size then None
      else read_code n' (byte + 1) raw base
             (Z.lor acc (u32 (Z.shiftl x (byte * host_word_size))))
  end.

(** Lines 324-329: [repeats[i]]. *)
Definition repeat_count (raw : list Z) (rdwb rcwb mask i : Z) : option Z :=
  code ← read_code (Z.to_nat rcwb) 0 raw (i * rdwb) 0;
  Some (u32 (Z.land code mask + 1)).

(** Lines 323-333: the table of repeat counts, [*total_samples] and
    [*delay_value]. *)
Fixpoint count_repeats (n : nat) (i : Z) (raw : list Z)
    (rdwb rcwb mask raw_delay_value : Z)
    (repeats : list Z) (total_samples delay_value : Z)
  : option (list Z * Z * Z) :=
  match n with
  | O => Some (repeats, total_samples, delay_value)
  | S n' =>
      r ← repeat_count raw rdwb rcwb mask i;
      count_repeats n' (i + 1) raw rdwb rcwb mask raw_delay_value
        (repeats ++ [r]) (u64 (total_samples + r))
        (if i <? raw_delay_value then u64 (delay_value + r) else delay_value)
  end.

(** Lines 345-356: one byte of the payload of sample [i]. *)
Definition payload_byte (raw : list Z) (w rdwb rcwb i byte : Z) : option Z :=
  buffer ←
    (if negb (w mod host_word_size =? 0) then
       lo ← peek raw (i * rdwb + rcwb - 1 + byte);
       buffer ←
         (if byte <? u32 (rdwb - 1) then
            hi ← peek raw (i * rdwb + rcwb + byte);
            Some (u16 (Z.lor lo (Z.shiftl hi 8)))
          else Some lo);
       Some (Z.shiftr buffer (w mod host_word_size))
     else
       peek raw (i * rdwb + rcwb + byte));
  Some (Z.land buffer 0x00ff).

(** Lines 344-357: the payload of sample [i], appended to what has been
    written of [run_buffer]. *)
Fixpoint write_payload (n : nat) (byte : Z) (raw : list Z)
    (w rdwb rcwb i : Z) (out : list Z) : option (list Z) :=
  match n with
  | O => Some out
  | S n' =>
      b ← payload_byte raw w rdwb rcwb i byte;
      write_payload n' (byte + 1) raw w rdwb rcwb i (out ++ [b])
  end.

(** Lines 358-361: [memcpy (run_buffer, run_buffer - data_width_bytes,
    data_width_bytes)], [n] times. *)
Fixpoint copy_payload (n : nat) (dwb : Z) (out : list Z) : option (list Z) :=
  match n with
  | O => Some out
  | S n' =>
      if Z.of_nat (length out) <? dwb then None
      else copy_payload n' dwb
             (out ++ drop (length out - Z.to_nat dwb)%nat out)
  end.

(** Lines 343-362. *)
Fixpoint expand (n : nat) (i : Z) (raw : list Z) (w rdwb dwb rcwb : Z)
    (repeats : list Z) (out : list Z) : option (list Z) :=
  match n with
  | O => Some out
  | S n' =>
      out ← write_payload (Z.to_nat dwb) 0 raw w rdwb rcwb i out;
      r ← peek repeats i;
      out ← copy_payload (Z.to_nat (r - 1)) dwb out;
      expand n' (i + 1) raw w rdwb dwb rcwb repeats out
  end.

(** Lines 303-333 once the table is allocated: the repeat counts, then
    [*total_samples] and [*delay_value]. *)
Definition decode_repeats (devc : dev_context) : option (list Z * Z * Z) :=
  mask ← runlength_count_mask devc;
  count_repeats (Z.to_nat (limit_samples devc)) 0
    (default [] (raw_sample_buf devc))
    (raw_data_width_bytes devc) (runlength_code_width_bytes devc) mask
    (delay_value devc) [] 0 0.

(** The function returns its [gboolean] together with the two out
    parameters and the updated context.  Writing past the end of
    [run_buffer] is undefined. *)
Definition ipdbg_la_runlength_decode (can_alloc : Z -> bool)
    (devc : dev_context) : option (bool * Z * Z * dev_context) :=
  if runlength_code_width devc =? 0 then
    Some (true, delay_value devc, limit_samples devc, devc)
  else
    let raw_sample_buffer := default [] (raw_sample_buf devc) in
    let total_raw_samples := limit_samples devc in
    let rdwb := raw_data_width_bytes devc in
    let dwb := decode_data_width_bytes devc in
    _ ← runlength_count_mask devc;
    let rcwb := runlength_code_width_bytes devc in
    match g_malloc (u64 (total_raw_samples * 4)) with
    | None => Some (false, 0, 0, devc)
    | Some _ =>
        '(repeats, total_samples, delay) ← decode_repeats devc;
        match g_try_malloc can_alloc (u64 (total_samples * dwb)) with
        | None => Some (false, delay, total_samples, devc)
        | Some run_buffer =>
            out ← expand (Z.to_nat total_raw_samples) 0 raw_sample_buffer
                    (runlength_code_width devc) rdwb dwb rcwb repeats [];
            if (length run_buffer <? length out)%nat then None
            else Some (true, delay, total_samples,
                       set_raw_sample_buf
                         (Some (out ++ drop (length out) run_buffer)) devc)
        end
    end.

(** ** AcquisitionDecoder: [ipdbg_la_receive_data] (lines 368-454) *)

(** Modelled from the spec: the device instance, the session and the
    packets of the data feed are declared in libsigrok.h, which is not among
    the sources.  The model keeps the delivery sink of the specification: a
    logic payload with its length and unit size, the trigger marker and the
    end marker, in the order they are sent. *)

Inductive sr_datafeed_packet :=
| SR_DF_LOGIC (length unitsize : Z) (data : list Z)
    (* [data]: the memory the packet points at, to the end of its block *)
| SR_DF_TRIGGER
| SR_DF_END.

Record sr_session := mk_session {
  session_trigger : option sr_trigger;
  session_feed : list sr_datafeed_packet;  (* packets sent, oldest first *)
  session_source : bool                    (* the socket is being watched *)
}.

Record sr_dev_inst := mk_sdi {
  priv : option dev_context;
  conn : ipdbg_la_tcp;
  session : sr_session
}.

Definition sr_session_send (p : sr_datafeed_packet) (s : sr_session)
  : sr_session :=
  mk_session (session_trigger s) (session_feed s ++ [p]) (session_source s).

(** [ipdbg_la_abort_acquisition] (lines 820-827). *)
Definition ipdbg_la_abort_acquisition (s : sr_session) : sr_session :=
  sr_session_send SR_DF_END
    (mk_session (session_trigger s) (session_feed s) false).

(** Lines 400-416: one read from the socket, stored as far as the budget
    [limit_samples * raw_data_width_bytes] allows. *)
Definition receive_chunk (devc : dev_context) (raw : list Z)
  : io dev_context :=
  let rdwb := raw_data_width_bytes devc in
  let bufsize := 1024 * 16 in
  io_bind (ipdbg_la_tcp_receive bufsize) (fun '(recd, bytes) =>
    let buffer := bytes ++ replicate (Z.to_nat bufsize - length bytes) 0 in
    if 0 <? recd then
      let num_move :=
        if u64 (num_transfers devc + recd) <=? u64 (limit_samples devc * rdwb)
        then recd
        else to_int (u64 (u64 (limit_samples devc * rdwb)
                          - num_transfers devc)) in
      match (if 0 <? num_move
             then memcpy_at raw (num_transfers devc) buffer num_move
             else Some raw) with
      | None => io_undefined
      | Some raw' =>
          io_ret (set_num_transfers (u64 (num_transfers devc + recd))
                    (set_raw_sample_buf (Some raw') devc))
      end
    else io_ret (set_raw_sample_buf (Some raw) devc)).

(** Lines 418-451: decode, deliver, release. *)
Definition decode_and_deliver (can_alloc : Z -> bool) (devc : dev_context)
    (s : sr_session) : option (bool * dev_context * sr_session) :=
  '(ok, delay, total_samples, devc) ← ipdbg_la_runlength_decode can_alloc devc;
  if negb ok then Some (false, set_raw_sample_buf None devc, s)
  else
    let buf := default [] (raw_sample_buf devc) in
    let dwb := data_width_bytes devc in
    let s :=
      if 0 <? delay
      then sr_session_send (SR_DF_LOGIC (u64 (delay * dwb)) dwb buf) s
      else s in
    let s := sr_session_send SR_DF_TRIGGER s in
    post ← ptr_add buf (u64 (delay * dwb));
    let s :=
      sr_session_send
        (SR_DF_LOGIC (u64 (u64 (total_samples - delay) * dwb)) dwb post) s in
    Some (true, set_raw_sample_buf None devc, ipdbg_la_abort_acquisition s).

Definition ipdbg_la_receive_data (can_alloc : Z -> bool)
    (cb_data : option sr_dev_inst) : option (bool * option sr_dev_inst) :=
  match cb_data with
  | None => Some (false, None)
  | Some sdi =>
      match priv sdi with
      | None => Some (false, Some sdi)
      | Some devc =>
          let rdwb := raw_data_width_bytes devc in
          match (match raw_sample_buf devc with
                 | None => g_try_malloc can_alloc (u64 (limit_samples devc * rdwb))
                 | Some raw => Some raw
                 end) with
          | None => Some (false, Some sdi)
          | Some raw =>
              if num_transfers devc <? u64 (limit_samples_max devc * rdwb) then
                '(devc, tcp) ← receive_chunk devc raw (conn sdi);
                Some (true, Some (mk_sdi (Some devc) tcp (session sdi)))
              else
                '(ok, devc, s) ←
                  decode_and_deliver can_alloc
                    (set_raw_sample_buf (Some raw) devc) (session sdi);
                Some (ok, Some (mk_sdi (Some devc) (conn sdi) s))
          end
      end
  end.

(** ** CapabilityNegotiator *)

(** A C string literal: the characters and the terminating 0. *)
Definition c_string (s : string) : list Z :=
  map (fun a => Z.of_nat (nat_of_ascii a)) (list_ascii_of_string s)
  ++ [0].

(** [strncmp] (string.h): the difference of the first two characters that
    differ among the first [n], 0 when there is none before a terminator. *)
Fixpoint strncmp (s1 s2 : list Z) (n : nat) : Z :=
  match n with
  | O => 0
  | S n' =>
      let c1 := hd 0 s1 in
      let c2 := hd 0 s2 in
      if negb (c1 =? c2) then c1 - c2
      else if c1 =? 0 then 0
      else strncmp (tail s1) (tail s2) n'
  end.

(** [ipdbg_la_request_id] (lines 796-818): the status, and the version when
    one is stored through the pointer. *)
Definition ipdbg_la_request_id : io (sr_status * option Z) :=
  (_ <-- tcp_send [CMD_GET_LA_ID] ;;
   io_bind (tcp_receive_blocking 4) (fun '(received, id) =>
     if negb (received =? 4) then io_ret (SR_ERR, None)
     else
       let cmp_IDBG := strncmp id (c_string "IDBG"%string) 4 in
       let cmp_idbg := strncmp id (c_string "idbg"%string) 4 in
       if (cmp_IDBG =? 0) && (cmp_idbg =? 0) then io_ret (SR_ERR, None)
       else io_ret (SR_OK, Some (if cmp_IDBG =? 0 then 0 else 1))))%io.

(** [E1 << E2] on an [int].  For a count below 32 the value is the one GCC
    and Clang give, wrap-around included.  A count of 32 or more is undefined
    in C; [beyond] stands for whatever [int] the compiled code leaves
    there. *)
Definition shl_int (beyond : Z -> Z -> Z) (x n : Z) : Z :=
  if (0 <=? n) && (n <? 32) then to_int (x * 2 ^ n)
  else to_int (beyond x n).

(** The x86 shift instruction takes the count modulo 32. *)
Definition beyond_x86 (x n : Z) : Z := x * 2 ^ (n mod 32).

(** Lines 730-737.  Each mask has the type its value gives it: [int] up to
    0xFF0000, [unsigned int] for 0xFF000000, [long] and [unsigned long]
    above; the [int] on the left is converted to that type. *)
Definition samplerate_of (beyond : Z -> Z -> Z) (buf : list Z) : option Z :=
  b0 ← peek buf 0; b1 ← peek buf 1; b2 ← peek buf 2; b3 ← peek buf 3;
  b4 ← peek buf 4; b5 ← peek buf 5; b6 ← peek buf 6; b7 ← peek buf 7;
  let r := u64 (Z.land b0 0x00000000000000FF) in
  let r := Z.lor r (u64 (Z.land (shl_int beyond b1 8) 0x000000000000FF00)) in
  let r := Z.lor r (u64 (Z.land (shl_int beyond b2 16) 0x0000000000FF0000)) in
  let r := Z.lor r
             (u64 (Z.land (u32 (shl_int beyond b3 24)) 0x00000000FF000000)) in
  let r := Z.lor r (u64 (Z.land (shl_int beyond b4 32) 0x000000FF00000000)) in
  let r := Z.lor r (u64 (Z.land (shl_int beyond b5 40) 0x0000FF0000000000)) in
  let r := Z.lor r (u64 (Z.land (shl_int beyond b6 48) 0x00FF000000000000)) in
  let r := Z.lor r
             (Z.land (u64 (shl_int beyond b7 56)) 0xFF00000000000000) in
  Some r.

(** [ipdbg_la_set_samplerate] (lines 705-738). *)
Definition ipdbg_la_set_samplerate (beyond : Z -> Z -> Z)
    (devc : dev_context) : io dev_context :=
  if Z.land (features devc) FEATURE_AUGMENTER_SAMPLERATE_ENABLED =? 0
  then io_ret devc
  else
    (st <-- tcp_send [CMD_GET_SAMPLE_RATE] ;;
     match st with
     | SR_ERR => io_ret devc
     | SR_OK =>
         io_bind (tcp_receive_blocking 8) (fun '(received, buf) =>
           if negb (received =? 8) then io_ret devc
           else match samplerate_of beyond buf with
                | Some r => io_ret (set_cur_samplerate r devc)
                | None => io_undefined
                end)
     end)%io.

(** The value the specification gives for eight received bytes. *)
Definition le64 (buf : list Z) : Z :=
  foldr (fun b acc => b + 2 ^ 8 * acc) 0 buf.

(** ** The specification's side: trigger translation *)

(** Bit [c] of a vector: bit [c mod 8] of byte [c / 8]. *)
Definition vector_bit (a : list Z) (c : Z) : bool :=
  Z.testbit (a !!! Z.to_nat (c / 8)) (c mod 8).

(** The table of the specification: the new value of a channel's bit in
    vector [v], given the old one. *)
Definition table (k : sr_trigger_matches) (v : trigger_vector) (old : bool)
  : bool :=
  match k, v with
  | SR_TRIGGER_ONE, Vvalue => true
  | SR_TRIGGER_ONE, Vvalue_last => old
  | SR_TRIGGER_ONE, Vmask => true
  | SR_TRIGGER_ONE, Vmask_last => false
  | SR_TRIGGER_ONE, Vedge_mask => false
  | SR_TRIGGER_ZERO, Vvalue => false
  | SR_TRIGGER_ZERO, Vvalue_last => old
  | SR_TRIGGER_ZERO, Vmask => true
  | SR_TRIGGER_ZERO, Vmask_last => false
  | SR_TRIGGER_ZERO, Vedge_mask => false
  | SR_TRIGGER_RISING, Vvalue => true
  | SR_TRIGGER_RISING, Vvalue_last => false
  | SR_TRIGGER_RISING, Vmask => true
  | SR_TRIGGER_RISING, Vmask_last => true
  | SR_TRIGGER_RISING, Vedge_mask => false
  | SR_TRIGGER_FALLING, Vvalue => false
  | SR_TRIGGER_FALLING, Vvalue_last => true
  | SR_TRIGGER_FALLING, Vmask => true
  | SR_TRIGGER_FALLING, Vmask_last => true
  | SR_TRIGGER_FALLING, Vedge_mask => false
  | SR_TRIGGER_EDGE, Vvalue => old
  | SR_TRIGGER_EDGE, Vvalue_last => old
  | SR_TRIGGER_EDGE, Vmask => false
  | SR_TRIGGER_EDGE, Vmask_last => false
  | SR_TRIGGER_EDGE, Vedge_mask => true
  | _, _ => old
  end.

(** One match applied to bit [c] of vector [v]: a disabled channel and a
    match on another channel leave the bit alone. *)
Definition table_step (v : trigger_vector) (c : Z) (old : bool)
    (m : sr_trigger_match) : bool :=
  if enabled (channel m) && (index (channel m) =? c)
  then table (match_kind m) v old else old.

(** The matches of a trigger, stage after stage. *)
Definition all_matches (trigger : option sr_trigger) : list sr_trigger_match :=
  match trigger with
  | None => []
  | Some t => concat (map matches (stages t))
  end.

(** Bit [c] of vector [v] after translation: all vectors start at 0. *)
Definition translated_bit (trigger : option sr_trigger) (v : trigger_vector)
    (c : Z) : bool :=
  fold_left (table_step v c) (all_matches trigger) false.

(** Equality of two vector names. *)
Definition vector_eqb (v v' : trigger_vector) : bool :=
  match v, v' with
  | Vmask, Vmask | Vvalue, Vvalue | Vmask_last, Vmask_last
  | Vvalue_last, Vvalue_last | Vedge_mask, Vedge_mask => true
  | _, _ => false
  end.

(** Every trigger vector has [data_width_bytes] bytes, as allocated by
    [ipdbg_la_get_addrwidth_and_datawidth]. *)
Definition vectors_allocated (devc : dev_context) : Prop :=
  forall v, Z.of_nat (length (vector_of v devc)) = data_width_bytes devc.

(** The vectors are allocated and hold bytes. *)
Definition vectors_ok (devc : dev_context) : Prop :=
  forall v, Z.of_nat (length (vector_of v devc)) = data_width_bytes devc
            /\ Forall is_byte (vector_of v devc).

(** The channels of the matches: indices are not negative, and an enabled
    channel has its bit inside the vectors. *)
Definition matches_in_range (devc : dev_context)
    (ms : list sr_trigger_match) : Prop :=
  Forall (fun m => 0 <= index (channel m)
                   /\ (enabled (channel m) = true
                       -> index (channel m) < 8 * data_width_bytes devc)) ms.

(** What the translation comes to: it succeeds, and every bit of every
    vector is the one the table gives, starting from 0. *)
Definition trigger_translated (trigger : option sr_trigger)
    (devc : dev_context) : Prop :=
  exists devc',
    ipdbg_la_convert_trigger trigger devc = Some (SR_OK, devc')
    /\ vectors_ok devc'
    /\ data_width_bytes devc' = data_width_bytes devc
    /\ forall v c, 0 <= c < 8 * data_width_bytes devc ->
         vector_bit (vector_of v devc') c = translated_bit trigger v c.

(** ** The specification's side: run-length decoding *)

(** A raw sample as one little-endian number; the run-length field and the
    payload are read off it. *)
Definition le_value (sample : list Z) : Z :=
  foldr (fun b acc => b + 2 ^ 8 * acc) 0 sample.

(** Raw sample [i] of a buffer: [rdwb] bytes from byte [i * rdwb] on. *)
Definition raw_sample (raw : list Z) (rdwb i : Z) : list Z :=
  take (Z.to_nat rdwb) (drop (Z.to_nat (i * rdwb)) raw).

(** The repeat count of a raw sample: its low [w] bits, plus one. *)
Definition sample_repeat (w : Z) (sample : list Z) : Z :=
  le_value sample mod 2 ^ w + 1.

(** The payload of a raw sample: [dwb] bytes from bit [w] on. *)
Definition sample_payload (w dwb : Z) (sample : list Z) : list Z :=
  map (fun k => (le_value sample / 2 ^ (w + 8 * k)) mod 2 ^ 8)
      (seqZ 0 dwb).

(** The sum of a list of counts. *)
Definition sum_list (l : list Z) : Z := foldr Z.add 0 l.

(** The [n] raw samples of a buffer. *)
Definition raw_samples (raw : list Z) (rdwb n : Z) : list (list Z) :=
  map (raw_sample raw rdwb) (seqZ 0 n).

(** What the specification makes of the raw samples: the payload of each,
    as many times as its repeat count says. *)
Definition run_length_expansion (w dwb : Z) (samples : list (list Z))
  : list Z :=
  concat (map (fun s => concat (replicate (Z.to_nat (sample_repeat w s))
                                          (sample_payload w dwb s)))
              samples).

(** The decoder does what the specification says: the repeat counts are the
    run-length fields plus one, the totals their sums, and the new buffer
    the expansion. *)
Definition runlength_expands (can_alloc : Z -> bool) (devc : dev_context)
    (raw : list Z) : Prop :=
  let w := runlength_code_width devc in
  let samples := raw_samples raw (raw_data_width_bytes devc)
                   (limit_samples devc) in
  let repeats := map (sample_repeat w) samples in
  let total_samples := sum_list repeats in
  let delay := sum_list (take (Z.to_nat (delay_value devc)) repeats) in
  decode_repeats devc = Some (repeats, total_samples, delay)
  /\ ipdbg_la_runlength_decode can_alloc devc
     = Some (true, delay, total_samples,
             set_raw_sample_buf
               (Some (run_length_expansion w (decode_data_width_bytes devc)
                        samples))
               devc).

(** The bytes the payload is taken from lie inside the raw sample: the code
    takes one byte at most, or the raw sample is as wide as the bytes of the
    code and the bytes of the data together. *)
Definition extraction_inside (devc : dev_context) : Prop :=
  runlength_code_width_bytes devc <= 1
  \/ runlength_code_width_bytes devc + decode_data_width_bytes devc
     <= raw_data_width_bytes devc.

(** What the first loop of the decoder is claimed to establish. *)
Definition repeats_in_range (devc : dev_context) : Prop :=
  forall repeats total_samples delay,
    decode_repeats devc = Some (repeats, total_samples, delay) ->
    Forall (fun r => 1 <= r <= 2 ^ runlength_code_width devc) repeats
    /\ limit_samples devc <= total_samples
    /\ (delay_value devc <= limit_samples devc -> delay <= total_samples).

(** What the first loop of the decoder establishes: it comes to an end with
    one count per raw sample, each between 1 and 2^w; [*total_samples] is
    their sum and [*delay_value] the sum of the first [delay_value] of
    them. *)
Definition repeats_counted (devc : dev_context) : Prop :=
  exists repeats total_samples delay,
    decode_repeats devc = Some (repeats, total_samples, delay)
    /\ Z.of_nat (length repeats) = limit_samples devc
    /\ Forall (fun r => 1 <= r <= 2 ^ runlength_code_width devc) repeats
    /\ total_samples = sum_list repeats
    /\ delay = sum_list (take (Z.to_nat (delay_value devc)) repeats)
    /\ limit_samples devc <= total_samples
    /\ delay <= total_samples.

(** ** The specification's side: acquisition and delay *)

(** The budget of the acquisition buffer, in bytes. *)
Definition byte_budget (devc : dev_context) : Z :=
  limit_samples devc * raw_data_width_bytes devc.

(** The byte count after which [ipdbg_la_receive_data] stops reading. *)
Definition transfer_total (devc : dev_context) : Z :=
  limit_samples_max devc * raw_data_width_bytes devc.

(** What a call of [ipdbg_la_receive_data] does, by the transfer count
    [num_transfers] it finds.  Below [transfer_total] it reads once, stores
    the bytes that fit below [byte_budget], counts all of them and delivers
    nothing; from [transfer_total] on it reads nothing, decodes and
    delivers. *)
Definition receive_data_branches (can_alloc : Z -> bool) (sdi : sr_dev_inst)
    (devc : dev_context) (raw : list Z) : Prop :=
  let nt := num_transfers devc in
  (nt < transfer_total devc ->
   exists recd bytes tcp',
     ipdbg_la_tcp_receive (1024 * 16) (conn sdi) = Some ((recd, bytes), tcp')
     /\ let copied := Z.max 0 (Z.min recd (byte_budget devc - nt)) in
        copied <= Z.max 0 (byte_budget devc - nt)
        /\ ipdbg_la_receive_data can_alloc (Some sdi)
           = Some (true,
                   Some (mk_sdi
                           (Some (set_num_transfers (nt + Z.max 0 recd)
                                    (set_raw_sample_buf
                                       (Some (take (Z.to_nat nt) raw
                                              ++ take (Z.to_nat copied) bytes
                                              ++ drop (Z.to_nat (nt + copied))
                                                   raw))
                                       devc)))
                           tcp' (session sdi))))
  /\ (transfer_total devc <= nt ->
      ipdbg_la_receive_data can_alloc (Some sdi)
      = match decode_and_deliver can_alloc devc (session sdi) with
        | Some (ok, devc', s) =>
            Some (ok, Some (mk_sdi (Some devc') (conn sdi) s))
        | None => None
        end).

(** The claim that the decode-and-deliver branch is taken as soon as the
    transfer count has reached the budget. *)
Definition decodes_at_budget (can_alloc : Z -> bool) (sdi : sr_dev_inst)
    (devc : dev_context) : Prop :=
  byte_budget devc <= num_transfers devc ->
  ipdbg_la_receive_data can_alloc (Some sdi)
  = match decode_and_deliver can_alloc devc (session sdi) with
    | Some (ok, devc', s) => Some (ok, Some (mk_sdi (Some devc') (conn sdi) s))
    | None => None
    end.

(** The delay of line 482 is the exact quotient or one below it. *)
Definition delay_near (limit_samples capture_ratio : Z) : bool :=
  match delay_of limit_samples capture_ratio with
  | Some d =>
      (d =? (limit_samples - 1) * capture_ratio / 100)
      || (d =? (limit_samples - 1) * capture_ratio / 100 - 1)
  | None => false
  end.

(** ** Inputs of the examples *)

(** Sixteen channels, 1024 samples, no run-length coder. *)
Definition devc_example : dev_context :=
  mk_devc 16 2 10 2 1024 1024 50 [0x20; 0x55] [0x20; 0] [0; 0xEE] [0; 0] [1; 0]
    0 0 0 None 0 0 0 0.

(** A rising edge on channel 5, a falling edge on channel 9, a disabled
    channel 3 asked for a high level, either edge on channel 0. *)
Definition trigger_example : sr_trigger :=
  mk_trigger
    [ mk_stage [ mk_match (mk_channel 5 true) SR_TRIGGER_RISING;
                 mk_match (mk_channel 9 true) SR_TRIGGER_FALLING ];
      mk_stage [ mk_match (mk_channel 3 false) SR_TRIGGER_ONE;
                 mk_match (mk_channel 0 true) SR_TRIGGER_EDGE ] ].

(** Thirty samples, all of them wanted before the trigger. *)
Definition devc_thirty : dev_context :=
  mk_devc 8 1 5 1 30 32 100 [0] [0] [0] [0] [0] 0 0 0 None 0 0 0 0.

(** A device that announces its sample rate. *)
Definition devc_samplerate : dev_context :=
  mk_devc 8 1 10 2 1024 1024 50 [0] [0] [0] [0] [0] 0 0 0 None
    FEATURE_AUGMENTER_SAMPLERATE_ENABLED 0 1 0.

(** One sample wanted out of a memory of two; the wanted byte is in. *)
Definition devc_budget_reached : dev_context :=
  mk_devc 8 1 1 1 1 2 50 [0] [0] [0] [0] [0] 0 0 1 (Some [7]) 0 0 0 0.

Definition sdi_budget_reached : sr_dev_inst :=
  mk_sdi (Some devc_budget_reached) (reliable [RxData [9]] [])
    (mk_session None [] true).

(** Four samples wanted out of a memory of eight, three bytes in, a read of
    five bytes pending. *)
Definition devc_partial : dev_context :=
  mk_devc 8 1 3 1 4 8 50 [0] [0] [0] [0] [0] 0 0 3 (Some [1; 2; 3; 0]) 0 0 0 0.

Definition sdi_partial : sr_dev_inst :=
  mk_sdi (Some devc_partial) (reliable [RxData [4; 5; 6; 7; 8]] [])
    (mk_session None [] true).

(** The example of the specification: code width 8, codes 0 and 2, data
    0xAB and 0xCD, the trigger after the first raw sample. *)
Definition devc_two_runs : dev_context :=
  mk_devc 8 1 1 1 2 2 50 [0] [0] [0] [0] [0] 1 0 4
    (Some [0; 0xAB; 2; 0xCD]) 2 8 1 0.

(** A run-length field of 32 bits, all of them set, before one data byte. *)
Definition devc_full_code : dev_context :=
  mk_devc 8 1 0 0 1 1 0 [0] [0] [0] [0] [0] 0 0 5
    (Some [0xFF; 0xFF; 0xFF; 0xFF; 0xAB]) 2 32 1 0.

(** Four channels behind a run-length field of 12 bits: a raw sample is two
    bytes, the data its high nibble.  Two raw samples: data 0xA once, data
    0xB sixteen times. *)
Definition raw_nibbles : list Z := [0x00; 0xA0; 0x0F; 0xB0].

Definition devc_nibbles : dev_context :=
  mk_devc 4 1 1 1 2 2 50 [0] [0] [0] [0] [0] 1 0 4 (Some raw_nibbles)
    2 12 1 0.

(** Five channels behind a run-length field of 12 bits: a raw sample is
    three bytes, the data its bits 12 to 16.  Three raw samples: data 0x15
    twice, 0x0A once, 0x1F three times; the trigger after the second. *)
Definition raw_twelve : list Z :=
  [0x01; 0x50; 0x01; 0x00; 0xA0; 0x00; 0x02; 0xF0; 0x01].

Definition devc_twelve : dev_context :=
  mk_devc 5 1 2 1 3 4 50 [0] [0] [0] [0] [0] 2 0 9
    (Some raw_twelve) 2 12 1 0.

(** ** The rest of protocol.c *)

(** [ipdbg_la_dev_new] (lines 777-785): [g_malloc0] leaves every field 0
    and every pointer [NULL]. *)
Definition ipdbg_la_dev_new : dev_context :=
  mk_devc 0 0 0 0 0 0 50 [] [] [] [] [] 0 0 0 None 0 0 0 0.

Definition set_features (v : Z) (d : dev_context) : dev_context :=
  mk_devc (data_width d) (data_width_bytes d) (addr_width d)
    (addr_width_bytes d) (limit_samples d) (limit_samples_max d)
    (capture_ratio d) (trigger_mask d) (trigger_value d)
    (trigger_mask_last d) (trigger_value_last d) (trigger_edge_mask d)
    (delay_value d) (num_stages d) (num_transfers d) (raw_sample_buf d) v
    (runlength_code_width d) (version d) (cur_samplerate d).

Definition set_runlength_code_width (v : Z) (d : dev_context) : dev_context :=
  mk_devc (data_width d) (data_width_bytes d) (addr_width d)
    (addr_width_bytes d) (limit_samples d) (limit_samples_max d)
    (capture_ratio d) (trigger_mask d) (trigger_value d)
    (trigger_mask_last d) (trigger_value_last d) (trigger_edge_mask d)
    (delay_value d) (num_stages d) (num_transfers d) (raw_sample_buf d)
    (features d) v (version d) (cur_samplerate d).

(** A local array after a receive into it: the bytes received over what the
    array held before, which C leaves unspecified. *)
Definition stack_buffer (before received : list Z) : list Z :=
  received ++ drop (length received) before.

(** Lines 582-585, 587-590 and 769-772: four bytes or-ed into a
    [uint32_t].  The masks up to 0x00FF0000 are [int], 0xFF000000 is
    [unsigned int]. *)
Definition le32_field (beyond : Z -> Z -> Z) (b0 b1 b2 b3 : Z) : Z :=
  let r := u32 (Z.land b0 0x000000FF) in
  let r := Z.lor r (u32 (Z.land (shl_int beyond b1 8) 0x0000FF00)) in
  let r := Z.lor r (u32 (Z.land (shl_int beyond b2 16) 0x00FF0000)) in
  Z.lor r (Z.land (u32 (shl_int beyond b3 24)) 0xFF000000).

(** [ipdbg_la_get_addrwidth_and_datawidth] (lines 570-605).  [before] is
    what [buf] holds when the function is entered.  [g_malloc0] gives
    zeroed blocks. *)
Definition ipdbg_la_get_addrwidth_and_datawidth (beyond : Z -> Z -> Z)
    (before : list Z) (devc : dev_context) : io dev_context :=
  (_ <-- tcp_send [CMD_GET_BUS_WIDTHS] ;;
   io_bind (tcp_receive_blocking 8) (fun '(_, received) =>
     let buf := stack_buffer before received in
     match buf with
     | [b0; b1; b2; b3; b4; b5; b6; b7] =>
         let data_width := le32_field beyond b0 b1 b2 b3 in
         let addr_width := le32_field beyond b4 b5 b6 b7 in
         let data_width_bytes :=
           u32 (data_width + host_word_size - 1) / host_word_size in
         let addr_width_bytes :=
           u32 (addr_width + host_word_size - 1) / host_word_size in
         let limit_samples_max := u64 (shl_int beyond 0x01 addr_width) in
         let zeroed := replicate (Z.to_nat data_width_bytes) 0 in
         io_ret
           (mk_devc data_width data_width_bytes addr_width addr_width_bytes
              limit_samples_max limit_samples_max (capture_ratio devc)
              zeroed zeroed zeroed zeroed zeroed
              (delay_value devc) (num_stages devc) (num_transfers devc)
              (raw_sample_buf devc) (features devc)
              (runlength_code_width devc) (version devc)
              (cur_samplerate devc))
     | _ => io_undefined
     end))%io.

(** [ipdbg_la_init_runlength_coding] (lines 607-632). *)
Definition ipdbg_la_init_runlength_coding (devc : dev_context)
  : io dev_context :=
  if Z.land (features devc) FEATURE_RUNLENGTH_CODER_ENABLED =? 0
  then io_ret (set_runlength_code_width 0 devc)
  else
    (st <-- tcp_send [CMD_GET_RLC_WIDTH] ;;
     match st with
     | SR_ERR => io_ret (set_runlength_code_width 0 devc)
     | SR_OK =>
         io_bind (tcp_receive_blocking 1) (fun '(received, buf) =>
           if negb (received =? 1)
           then io_ret (set_runlength_code_width 0 devc)
           else match peek buf 0 with
                | Some b => io_ret (set_runlength_code_width b devc)
                | None => io_undefined
                end)
     end)%io.

(** [idpbg_la_init_features] (lines 740-744). *)
Definition idpbg_la_init_features (devc : dev_context) : io dev_context :=
  ipdbg_la_init_runlength_coding devc.

(** [ipdbg_la_get_features] (lines 746-775). *)
Definition ipdbg_la_get_features (beyond : Z -> Z -> Z) (devc : dev_context)
  : io dev_context :=
  if version devc =? 0 then io_ret (set_features 0 devc)
  else
    (st <-- tcp_send [CMD_GET_FEATURES] ;;
     match st with
     | SR_ERR => io_ret (set_features 0 devc)
     | SR_OK =>
         io_bind (tcp_receive_blocking 4) (fun '(received, buf) =>
           if negb (received =? 4) then io_ret (set_features 0 devc)
           else match buf with
                | [b0; b1; b2; b3] =>
                    idpbg_la_init_features
                      (set_features (le32_field beyond b0 b1 b2 b3) devc)
                | _ => io_undefined
                end)
     end)%io.

(** ** Channel names: [ipdbg_la_set_channel_names_and_groups]
    (lines 634-703) *)

(** The characters of a string, without terminator. *)
Definition c_chars (s : string) : list Z :=
  map (fun a => Z.of_nat (nat_of_ascii a)) (list_ascii_of_string s).

(** The C string that starts at the beginning of an array: the bytes before
    the first 0. *)
Fixpoint c_str (mem : list Z) : list Z :=
  match mem with
  | [] => []
  | c :: mem' => if c =? 0 then [] else c :: c_str mem'
  end.

(** [g_strdup_printf ("CH%d", i)]. *)
Definition default_channel_name (i : Z) : list Z :=
  c_chars ("CH" ++ DecimalString.NilZero.string_of_uint (N.to_uint (Z.to_N i))).

(** Modelled from the spec: [sr_channel_new] is declared in libsigrok.h,
    which is not among the sources; it appends a channel of the given index,
    enabled state and name to the channels of the device instance.  The
    channels are kept as a list, the newest last. *)
Definition sr_channel_new (index : Z) (enabled : bool) (name : list Z)
    (channels : list (sr_channel * list Z)) : list (sr_channel * list Z) :=
  channels ++ [(mk_channel index enabled, c_str name)].

(** The loops of lines 643-648, 655-660 and 667-672. *)
Fixpoint default_channels (n : nat) (i : Z)
    (channels : list (sr_channel * list Z)) : list (sr_channel * list Z) :=
  match n with
  | O => channels
  | S n' =>
      default_channels n' (i + 1)
        (sr_channel_new i true (default_channel_name i) channels)
  end.

(** The loop of lines 676-701. *)
Fixpoint named_channels (n : nat) (i : Z)
    (channels : list (sr_channel * list Z))
  : io (list (sr_channel * list Z)) :=
  match n with
  | O => io_ret channels
  | S n' =>
      io_bind (tcp_receive_blocking 1) (fun '(received, buf) =>
        if negb (received =? 1) then
          named_channels n' (i + 1)
            (sr_channel_new i true (default_channel_name i) channels)
        else
          match peek buf 0 with
          | None => io_undefined
          | Some channel_name_lenght =>
              io_bind (tcp_receive_blocking channel_name_lenght)
                (fun '(received, name) =>
                   if negb (received =? channel_name_lenght) then
                     named_channels n' (i + 1)
                       (sr_channel_new i true (default_channel_name i)
                          channels)
                   else
                     named_channels n' (i + 1)
                       (sr_channel_new i true (name ++ [0]) channels))
          end)
  end.

Definition ipdbg_la_set_channel_names_and_groups (devc : dev_context)
    (channels : list (sr_channel * list Z))
  : io (list (sr_channel * list Z)) :=
  let number_of_channels := u8 (data_width devc) in
  if Z.land (features devc) FEATURE_AUGMENTER_CH_NAMES_ENABLED =? 0
  then io_ret (default_channels (Z.to_nat number_of_channels) 0 channels)
  else
    (st <-- tcp_send [CMD_GET_CHANNEL_NAMES] ;;
     match st with
     | SR_ERR =>
         io_ret (default_channels (Z.to_nat number_of_channels) 0 channels)
     | SR_OK =>
         st <-- tcp_send [number_of_channels] ;;
         match st with
         | SR_ERR =>
             io_ret (default_channels (Z.to_nat number_of_channels) 0
                       channels)
         | SR_OK =>
             named_channels (Z.to_nat number_of_channels) 0 channels
         end
     end)%io.

(** ** What the socket holds *)

(** The bytes still to come on a socket, in order. *)
Definition pending (rx : list rx_event) : list Z :=
  concat (map (fun e => match e with RxData bytes => bytes | _ => [] end) rx).

(** A receive attempt that brings nothing: no data, an error, or an empty
    read. *)
Definition empty_event (e : rx_event) : bool :=
  match e with
  | RxData (_ :: _) => false
  | _ => true
  end.

Fixpoint empty_polls (rx : list rx_event) : nat :=
  match rx with
  | [] => 0
  | e :: rx' => ((if empty_event e then 1 else 0) + empty_polls rx')%nat
  end.

(** Reading an escaped stream back, as the device at the other end has to:
    the byte after an ESCAPE is payload, whatever it is.  protocol.c has no
    such reader; this one states what the stream can be read back to. *)
Fixpoint unescape (wire : list Z) : list Z :=
  match wire with
  | [] => []
  | c :: wire' =>
      if c =? 0x55 then
        match wire' with
        | [] => []
        | b :: wire'' => b :: unescape wire''
        end
      else c :: unescape wire'
  end.

(** The reserved bytes of a payload. *)
Definition reserved (b : Z) : bool := (b =? 0xEE) || (b =? 0x55).

Fixpoint count_reserved (bytes : list Z) : nat :=
  match bytes with
  | [] => 0
  | b :: bytes' => ((if reserved b then 1 else 0) + count_reserved bytes')%nat
  end.

(** The answer to CMD_GET_CHANNEL_NAMES as the loop of lines 676-701 reads
    it: for each channel one byte with the length of the name, then the
    name. *)
Definition name_records (names : list (list Z)) : list Z :=
  concat (map (fun name => Z.of_nat (length name) :: name) names).


(** ** What an acquisition has stored *)



(** ** What the trigger translation leaves alone *)

(** The context without the contents of the trigger vectors: every other
    field, and the sizes of the five vectors. *)
Definition beside_vectors (d : dev_context) :=
  (data_width d, data_width_bytes d, addr_width d, addr_width_bytes d,
   limit_samples d, limit_samples_max d, capture_ratio d, delay_value d,
   num_stages d, num_transfers d, raw_sample_buf d, features d,
   runlength_code_width d, version d, cur_samplerate d,
   map (fun v => length (vector_of v d))
       [Vmask; Vvalue; Vmask_last; Vvalue_last; Vedge_mask]).

(** The match kinds that lines 260-286 act on. *)
Definition handled (k : sr_trigger_matches) : bool :=
  match k with
  | SR_TRIGGER_ZERO | SR_TRIGGER_ONE | SR_TRIGGER_RISING | SR_TRIGGER_FALLING
  | SR_TRIGGER_EDGE => true
  | _ => false
  end.


(** ** The specification's side: default channel names *)

(** A number below 1000 in decimal, as ASCII digits without leading
    zeros. *)
Definition decimal (i : Z) : list Z :=
  if i <? 10 then [48 + i]
  else if i <? 100 then [48 + i / 10; 48 + i mod 10]
  else [48 + i / 100; 48 + (i / 10) mod 10; 48 + i mod 10].


(** * Properties *)

(** ** C integers *)

Lemma u64_small (z : Z) : 0 <= z < 2 ^ 64 -> u64 z = z.
Proof. intros H. unfold u64. by apply Z.mod_small. Qed.

(** A negative difference, taken modulo 2^64 and cut to an [int], is the
    difference again as long as it is above -2^31. *)
Lemma to_int_u64 (z : Z) : - 2 ^ 31 <= z < 2 ^ 31 -> to_int (u64 z) = z.
Proof.
  intros H. unfold to_int, u64.
  destruct (Z.neg_nonneg_cases z) as [Hneg|Hpos].
  - rewrite <- (Z.mod_unique z (2 ^ 64) (-1) (z + 2 ^ 64)) by lia.
    rewrite <- (Z.mod_unique (z + 2 ^ 64 + 2 ^ 31) (2 ^ 32) (2 ^ 32)
                  (z + 2 ^ 31)) by lia.
    lia.
  - rewrite (Z.mod_small z) by lia. rewrite Z.mod_small; lia.
Qed.

Lemma to_int_range (z : Z) : INT_MIN <= to_int z <= INT_MAX.
Proof.
  unfold to_int, INT_MIN, INT_MAX.
  pose proof (Z.mod_pos_bound (z + 2 ^ 31) (2 ^ 32) ltac:(lia)). lia.
Qed.

(** The bits of an [int] from the sign bit up are all the same. *)
Lemma int_high_bits (r n m : Z) :
  INT_MIN <= r <= INT_MAX -> 31 <= n -> 31 <= m ->
  Z.testbit r n = Z.testbit r m.
Proof.
  unfold INT_MIN, INT_MAX. intros Hr Hn Hm.
  destruct (Z.neg_nonneg_cases r) as [Hneg|Hpos].
  - assert (Hlog : Z.log2 (Z.pred (- r)) < 31).
    { destruct (Z.eq_dec (Z.pred (- r)) 0) as [->|Hnz]; [cbn; lia|].
      apply Z.log2_lt_pow2; lia. }
    rewrite !Z.bits_above_log2_neg by lia. reflexivity.
  - assert (Hlog : Z.log2 r < 31).
    { destruct (Z.eq_dec r 0) as [->|Hnz]; [cbn; lia|].
      apply Z.log2_lt_pow2; lia. }
    rewrite !Z.bits_above_log2 by lia. reflexivity.
Qed.

Lemma u64_testbit (z n : Z) : 0 <= n < 64 -> Z.testbit (u64 z) n = Z.testbit z n.
Proof. intros Hn. unfold u64. apply Z.mod_pow2_bits_low. lia. Qed.

Lemma is_byte_u8 (z : Z) : is_byte (u8 z).
Proof. unfold is_byte, u8. apply Z.mod_pos_bound. lia. Qed.

Lemma bind_Some {A B : Type} (f : A -> option B) (x : A) :
  (Some x ≫= f) = f x.
Proof. reflexivity. Qed.

(** ** The socket *)

Lemma tcp_send_reliable (buf : list Z) (rx : list rx_event) (wire : list Z) :
  tcp_send buf (reliable rx wire) = Some (SR_OK, reliable rx (wire ++ buf)).
Proof.
  unfold tcp_send, reliable; simpl.
  rewrite Nat2Z.id, firstn_all.
  destruct (Z.ltb_spec (Z.of_nat (length buf)) 0); [lia | reflexivity].
Qed.

(** What a receive call can answer. *)
Lemma tcp_receive_answers (bufsize : Z) (tcp : ipdbg_la_tcp) :
  exists recd bytes tcp',
    ipdbg_la_tcp_receive bufsize tcp = Some ((recd, bytes), tcp')
    /\ (recd = Z.of_nat (length bytes) \/ (recd = -1 /\ bytes = []))
    /\ (0 <= bufsize -> Z.of_nat (length bytes) <= bufsize).
Proof.
  unfold ipdbg_la_tcp_receive.
  destruct (sock_rx tcp) as [|[| |bytes] rx];
    (eexists _, _, _; split; [reflexivity|]; split; [cbn; auto|]).
  1-3: cbn; lia.
  rewrite length_take. lia.
Qed.

(** The loop of [tcp_receive_blocking] ends by its own test: once the fuel
    covers the bytes still missing and the errors still allowed, more fuel
    changes nothing. *)
Lemma tcp_receive_blocking_loop_fuel (fuel extra : nat)
    (bufsize received error_count : Z) (buf : list Z) (tcp : ipdbg_la_tcp) :
  Z.max 0 (bufsize - received) + Z.max 0 (2000 - error_count)
  <= Z.of_nat fuel ->
  tcp_receive_blocking_loop (fuel + extra) bufsize received error_count buf tcp
  = tcp_receive_blocking_loop fuel bufsize received error_count buf tcp.
Proof.
  revert received error_count buf tcp.
  induction fuel as [|fuel IH]; intros received error_count buf tcp Hfuel.
  - destruct extra as [|extra]; [reflexivity|]. cbn [Nat.add].
    cbn [tcp_receive_blocking_loop].
    destruct (Z.ltb_spec received bufsize), (Z.ltb_spec error_count 2000);
      cbn [andb]; try reflexivity; lia.
  - cbn [Nat.add tcp_receive_blocking_loop].
    destruct (Z.ltb_spec received bufsize), (Z.ltb_spec error_count 2000);
      cbn [andb]; try reflexivity.
    unfold io_bind.
    destruct (ipdbg_la_tcp_receive (bufsize - received) tcp)
      as [[[recd bytes] tcp']|]; [|reflexivity].
    destruct (Z.ltb_spec 0 recd); apply IH; lia.
Qed.

(** [tcp_receive_blocking] always comes back, with [bufsize] bytes or after
    2000 empty reads. *)
Lemma tcp_receive_blocking_returns (fuel : nat)
    (bufsize received error_count : Z) (buf : list Z) (tcp : ipdbg_la_tcp) :
  exists received' buf' tcp',
    tcp_receive_blocking_loop fuel bufsize received error_count buf tcp
    = Some ((received', buf'), tcp').
Proof.
  revert received error_count buf tcp.
  induction fuel as [|fuel IH]; intros received error_count buf tcp.
  - eexists _, _, _. reflexivity.
  - cbn [tcp_receive_blocking_loop].
    destruct ((received <? bufsize) && (error_count <? 2000));
      [|eexists _, _, _; reflexivity].
    unfold io_bind.
    destruct (tcp_receive_answers (bufsize - received) tcp)
      as (recd & bytes & tcp' & -> & _).
    destruct (0 <? recd); apply IH.
Qed.

(** ** FrameEncoder *)

Lemma escape_cons (b : Z) (bytes : list Z) :
  escape (b :: bytes) = escape_byte b ++ escape bytes.
Proof. reflexivity. Qed.

(** One turn of the loop of [send_escaping] on a reliable socket. *)
Lemma send_escaping_step (payload : Z) (rest : list Z) (n : nat)
    (rx : list rx_event) (wire : list Z) :
  send_escaping (payload :: rest) (S n) (reliable rx wire)
  = send_escaping rest n (reliable rx (wire ++ escape_byte payload)).
Proof.
  change (send_escaping (payload :: rest) (S n)) with
    (io_bind (if payload =? CMD_RESET then tcp_send [CMD_ESCAPE]
              else io_ret SR_OK)
       (fun _ => io_bind (if payload =? CMD_ESCAPE then tcp_send [CMD_ESCAPE]
                          else io_ret SR_OK)
          (fun _ => io_bind (tcp_send [payload])
             (fun _ => send_escaping rest n)))).
  unfold escape_byte, io_bind, io_ret, CMD_RESET, CMD_ESCAPE.
  destruct (Z.eqb_spec payload 238) as [->|Hreset].
  - rewrite tcp_send_reliable. cbn [Z.eqb Pos.eqb orb].
    rewrite tcp_send_reliable, <- app_assoc. reflexivity.
  - destruct (Z.eqb_spec payload 85) as [->|Hesc]; cbn [orb].
    + rewrite !tcp_send_reliable, <- app_assoc. reflexivity.
    + rewrite tcp_send_reliable. reflexivity.
Qed.

Lemma send_escaping_one (payload : Z) (rest : list Z) (rx : list rx_event)
    (wire : list Z) :
  send_escaping (payload :: rest) 1 (reliable rx wire)
  = Some (SR_OK, reliable rx (wire ++ escape_byte payload)).
Proof. rewrite send_escaping_step. reflexivity. Qed.

(** C3.  On a socket that takes every byte, [send_escaping] puts on the wire
    the input in which every 0xEE and every 0x55 is preceded by 0x55 and
    every other byte is left as it is, in the order of the input. *)
Theorem send_escaping_stream (data : list Z) (rx : list rx_event)
    (wire : list Z) :
  send_escaping data (length data) (reliable rx wire)
  = Some (SR_OK, reliable rx (wire ++ escape data)).
Proof.
  revert wire; induction data as [|payload data IH]; intros wire.
  - unfold escape. cbn. by rewrite app_nil_r.
  - cbn [length]. rewrite send_escaping_step, IH, escape_cons, app_assoc.
    reflexivity.
Qed.

(** ** CapabilityNegotiator: the identity check *)

(** The bytes asked for arrive in one piece. *)
Lemma tcp_receive_blocking_4 (b0 b1 b2 b3 : Z) (rx : list rx_event)
    (tx wire : list Z) :
  tcp_receive_blocking 4 (mk_tcp (RxData [b0; b1; b2; b3] :: rx) tx wire)
  = Some ((4, [b0; b1; b2; b3]), mk_tcp rx tx wire).
Proof. reflexivity. Qed.

(** Against a literal without an inner 0, [strncmp] over the whole length
    answers 0 for the literal only. *)
Lemma strncmp_literal (s t : list Z) :
  length s = length t ->
  Forall (fun c => c <> 0) t ->
  strncmp s (t ++ [0]) (length s) = 0 <-> s = t.
Proof.
  revert t; induction s as [|c s IH]; intros [|d t] Hlen Ht;
    try discriminate Hlen.
  - split; reflexivity.
  - cbn [strncmp length hd tail app].
    apply Forall_cons in Ht as [Hd Ht].
    destruct (Z.eqb_spec c d) as [->|Hcd]; cbn [negb].
    + destruct (Z.eqb_spec d 0) as [?|_]; [contradiction|].
      rewrite IH by (cbn in Hlen; congruence || assumption).
      split; [intros ->; reflexivity | intros [= ->]; reflexivity].
    + split; [lia | intros [= ? _]; contradiction].
Qed.

(** C1.  What the code does with a 4-byte identity response: it never
    rejects one.  The test of line 810 asks for both comparisons to be 0,
    which no response satisfies, so every response is accepted: with version
    0 when it is "IDBG", with version 1 otherwise, "idbg" or not. *)
Theorem request_id_accepts_every_id (b0 b1 b2 b3 : Z) (rx : list rx_event)
    (wire : list Z) :
  ipdbg_la_request_id (reliable (RxData [b0; b1; b2; b3] :: rx) wire)
  = Some (SR_OK,
          Some (if decide ([b0; b1; b2; b3] = [73; 68; 66; 71]) then 0 else 1),
          reliable rx (wire ++ [0xBB])).
Proof.
  unfold ipdbg_la_request_id, io_bind.
  rewrite tcp_send_reliable. unfold reliable at 1.
  rewrite tcp_receive_blocking_4.
  change (negb (4 =? 4)) with false. cbv iota.
  pose proof (strncmp_literal [b0; b1; b2; b3] [73; 68; 66; 71] eq_refl)
    as HIDBG.
  pose proof (strncmp_literal [b0; b1; b2; b3] [105; 100; 98; 103] eq_refl)
    as Hidbg.
  change (c_string "IDBG") with ([73; 68; 66; 71] ++ [0]).
  change (c_string "idbg") with ([105; 100; 98; 103] ++ [0]).
  change 4%nat with (length [b0; b1; b2; b3]).
  destruct (Z.eqb_spec (strncmp [b0; b1; b2; b3] ([73; 68; 66; 71] ++ [0])
                          (length [b0; b1; b2; b3])) 0) as [E|E].
  - apply HIDBG in E; [|repeat constructor; lia].
    destruct (Z.eqb_spec (strncmp [b0; b1; b2; b3]
                            ([105; 100; 98; 103] ++ [0])
                            (length [b0; b1; b2; b3])) 0) as [E'|E'].
    + apply Hidbg in E'; [|repeat constructor; lia]. congruence.
    + cbn [andb]. rewrite decide_True by exact E. reflexivity.
  - cbn [andb]. rewrite decide_False; [reflexivity|].
    intros Heq. apply E, HIDBG; [repeat constructor; lia | exact Heq].
Qed.

Example request_id_IDBG :
  ipdbg_la_request_id (reliable [RxData [73; 68; 66; 71]] [])
  = Some (SR_OK, Some 0, reliable [] [0xBB]).
Proof. reflexivity. Qed.

Example request_id_idbg :
  ipdbg_la_request_id (reliable [RxData [105; 100; 98; 103]] [])
  = Some (SR_OK, Some 1, reliable [] [0xBB]).
Proof. reflexivity. Qed.

Example request_id_XXXX :
  ipdbg_la_request_id (reliable [RxData [88; 88; 88; 88]] [])
  = Some (SR_OK, Some 1, reliable [] [0xBB]).
Proof. reflexivity. Qed.

(** A response that never comes is an error. *)
Example request_id_timeout :
  ipdbg_la_request_id (reliable [] []) = Some (SR_ERR, None, reliable [] [0xBB]).
Proof. vm_compute. reflexivity. Qed.

(** ** CapabilityNegotiator: the sample rate *)

Lemma tcp_receive_blocking_8 (b0 b1 b2 b3 b4 b5 b6 b7 : Z)
    (rx : list rx_event) (tx wire : list Z) :
  tcp_receive_blocking 8
    (mk_tcp (RxData [b0; b1; b2; b3; b4; b5; b6; b7] :: rx) tx wire)
  = Some ((8, [b0; b1; b2; b3; b4; b5; b6; b7]), mk_tcp rx tx wire).
Proof. reflexivity. Qed.

(** Whatever the shifts by 32 and more leave behind, bits 32 and 33 of the
    result are equal: both come from the sign of one [int]. *)
Lemma samplerate_bits_32_33 (beyond : Z -> Z -> Z) (buf : list Z) (r : Z) :
  samplerate_of beyond buf = Some r ->
  Z.testbit r 32 = Z.testbit r 33.
Proof.
  unfold samplerate_of. intros H.
  repeat match type of H with
         | (mbind _ ?o = Some _) =>
             let b := fresh "b" in destruct o as [b|]; [cbn [mbind option_bind] in H | discriminate H]
         end.
  injection H as <-.
  rewrite !Z.lor_spec, !Z.land_spec, !u64_testbit by lia.
  rewrite !Z.land_spec.
  assert (H8 : forall x, Z.testbit (shl_int beyond x 8) 32
                         = Z.testbit (shl_int beyond x 8) 33).
  { intros x. apply int_high_bits; [apply to_int_range | lia | lia]. }
  assert (H16 : forall x, Z.testbit (shl_int beyond x 16) 32
                          = Z.testbit (shl_int beyond x 16) 33).
  { intros x. apply int_high_bits; [apply to_int_range | lia | lia]. }
  assert (H32 : forall x, Z.testbit (shl_int beyond x 32) 32
                          = Z.testbit (shl_int beyond x 32) 33).
  { intros x. apply int_high_bits; [|lia|lia].
    unfold shl_int. cbn [Z.leb Z.ltb Z.compare Pos.compare Pos.compare_cont andb].
    apply to_int_range. }
  rewrite H8, H16, H32.
  change (Z.testbit 255 32) with false. change (Z.testbit 255 33) with false.
  change (Z.testbit 65280 32) with false. change (Z.testbit 65280 33) with false.
  change (Z.testbit 16711680 32) with false.
  change (Z.testbit 16711680 33) with false.
  change (Z.testbit 4278190080 32) with false.
  change (Z.testbit 4278190080 33) with false.
  change (Z.testbit 1095216660480 32) with true.
  change (Z.testbit 1095216660480 33) with true.
  change (Z.testbit 280375465082880 32) with false.
  change (Z.testbit 280375465082880 33) with false.
  change (Z.testbit 71776119061217280 32) with false.
  change (Z.testbit 71776119061217280 33) with false.
  change (Z.testbit 18374686479671623680 32) with false.
  change (Z.testbit 18374686479671623680 33) with false.
  rewrite !andb_false_r. reflexivity.
Qed.

(** Without the feature bit nothing is sent and nothing is set. *)
Lemma set_samplerate_feature_clear (beyond : Z -> Z -> Z)
    (devc : dev_context) (tcp : ipdbg_la_tcp) :
  Z.land (features devc) FEATURE_AUGMENTER_SAMPLERATE_ENABLED = 0 ->
  ipdbg_la_set_samplerate beyond devc tcp = Some (devc, tcp).
Proof. intros H. unfold ipdbg_la_set_samplerate. by rewrite H. Qed.

(** When the eight bytes do not come, the sample rate stays as it was. *)
Example set_samplerate_read_fails (beyond : Z -> Z -> Z) :
  ipdbg_la_set_samplerate beyond devc_samplerate
    (reliable [RxData [1; 2; 3]] [])
  = Some (devc_samplerate, reliable [] [0x80]).
Proof. vm_compute. reflexivity. Qed.

(** The low four bytes are assembled as the specification says. *)
Example set_samplerate_low_bytes :
  samplerate_of (fun _ _ => 0) [0x01; 0x02; 0x03; 0x84; 0; 0; 0; 0]
  = Some (le64 [0x01; 0x02; 0x03; 0x84; 0; 0; 0; 0]).
Proof. vm_compute. reflexivity. Qed.

(** C9.  What the code does with the eight bytes 00 00 00 00 01 00 00 00,
    the little-endian form of 2^32: the bytes are shifted as [int], so byte 4
    is shifted by 32 bits, which C leaves undefined; whatever [int] comes
    out of it, the sample rate stored is not 2^32. *)
Theorem set_samplerate_loses_high_bytes (beyond : Z -> Z -> Z)
    (devc : dev_context) (rx : list rx_event) (wire : list Z) :
  Z.land (features devc) FEATURE_AUGMENTER_SAMPLERATE_ENABLED <> 0 ->
  exists devc',
    ipdbg_la_set_samplerate beyond devc
      (reliable (RxData [0; 0; 0; 0; 1; 0; 0; 0] :: rx) wire)
    = Some (devc', reliable rx (wire ++ [0x80]))
    /\ le64 [0; 0; 0; 0; 1; 0; 0; 0] = 2 ^ 32
    /\ cur_samplerate devc' <> 2 ^ 32.
Proof.
  intros Hbit. unfold ipdbg_la_set_samplerate.
  destruct (Z.eqb_spec (Z.land (features devc)
                          FEATURE_AUGMENTER_SAMPLERATE_ENABLED) 0) as [E|_];
    [contradiction|].
  unfold io_bind. rewrite tcp_send_reliable. unfold reliable at 1.
  rewrite tcp_receive_blocking_8. change (negb (8 =? 8)) with false. cbv iota.
  destruct (samplerate_of beyond [0; 0; 0; 0; 1; 0; 0; 0]) as [r|] eqn:Hr.
  2: { discriminate Hr. }
  eexists. split; [reflexivity|]. split; [reflexivity|].
  apply samplerate_bits_32_33 in Hr.
  destruct devc; cbn. intros ->. discriminate Hr.
Qed.

Lemma set_samplerate_loses_high_bytes_witness :
  exists devc',
    ipdbg_la_set_samplerate beyond_x86 devc_samplerate
      (reliable [RxData [0; 0; 0; 0; 1; 0; 0; 0]] [])
    = Some (devc', reliable [] ([] ++ [0x80]))
    /\ le64 [0; 0; 0; 0; 1; 0; 0; 0] = 2 ^ 32
    /\ cur_samplerate devc' <> 2 ^ 32.
Proof.
  apply (set_samplerate_loses_high_bytes beyond_x86 devc_samplerate [] []).
  vm_compute. discriminate.
Defined.

(** With the x86 shift the high half is simply lost. *)
Example set_samplerate_x86 :
  samplerate_of beyond_x86 [0; 0; 0; 0; 1; 0; 0; 0] = Some 0.
Proof. vm_compute. reflexivity. Qed.

(** ** TriggerTranslator *)

Lemma vector_of_set_vector (v v' : trigger_vector) (a : list Z)
    (d : dev_context) :
  vector_of v' (set_vector v a d)
  = if vector_eqb v' v then a else vector_of v' d.
Proof. destruct v, v'; reflexivity. Qed.

Lemma data_width_bytes_set_vector (v : trigger_vector) (a : list Z)
    (d : dev_context) :
  data_width_bytes (set_vector v a d) = data_width_bytes d.
Proof. destruct v; reflexivity. Qed.

(** An update inside the vector is defined. *)
Lemma vector_update_defined (v : trigger_vector) (i : Z) (f : Z -> Z)
    (d : dev_context) :
  0 <= i < Z.of_nat (length (vector_of v d)) ->
  vector_update v i f d
  = Some (set_vector v
            (<[Z.to_nat i := f (vector_of v d !!! Z.to_nat i)]> (vector_of v d))
            d).
Proof.
  intros Hi. unfold vector_update, peek.
  destruct (Z.ltb_spec i 0); [lia|].
  destruct (lookup_lt_is_Some_2 (vector_of v d) (Z.to_nat i) ltac:(lia))
    as [x Hx].
  rewrite Hx. cbn. by rewrite (list_lookup_total_correct _ _ _ Hx).
Qed.

(** The bit of channel [idx] within its byte. *)
Lemma match_bit_testbit (idx p : Z) :
  0 <= idx -> 0 <= p < 8 ->
  Z.testbit (u8 (Z.shiftl 1 (Z.rem idx 8))) p = (p =? idx mod 8).
Proof.
  intros Hidx Hp. rewrite Z.rem_mod_nonneg by lia.
  pose proof (Z.mod_pos_bound idx 8 ltac:(lia)) as Hm.
  unfold u8. rewrite Z.mod_pow2_bits_low by lia.
  rewrite Z.shiftl_1_l. rewrite Z.pow2_bits_eqb by lia.
  apply Z.eqb_sym.
Qed.

Lemma channel_eq_split (c idx : Z) :
  (c =? idx) = (c / 8 =? idx / 8) && (c mod 8 =? idx mod 8).
Proof.
  pose proof (Z.div_mod c 8 ltac:(lia)). pose proof (Z.div_mod idx 8 ltac:(lia)).
  destruct (Z.eqb_spec c idx) as [->|Hne].
  - by rewrite !Z.eqb_refl.
  - destruct (Z.eqb_spec (c / 8) (idx / 8)) as [Hq|]; [|reflexivity].
    destruct (Z.eqb_spec (c mod 8) (idx mod 8)) as [Hr|]; [|reflexivity].
    lia.
Qed.

(** Setting ([b = true]) or clearing the bit of channel [idx] in a vector
    changes that bit and no other. *)
Lemma vector_bit_write (a : list Z) (idx c : Z) (b : bool) :
  0 <= idx < 8 * Z.of_nat (length a) -> 0 <= c ->
  let bit := u8 (Z.shiftl 1 (Z.rem idx 8)) in
  let i := Z.to_nat (Z.quot idx 8) in
  vector_bit (<[i := (if b then set_bit bit else clear_bit bit) (a !!! i)]> a) c
  = if c =? idx then b else vector_bit a c.
Proof.
  intros Hidx Hc bit i. unfold vector_bit.
  subst i. rewrite Z.quot_div_nonneg by lia.
  pose proof (Z.mod_pos_bound c 8 ltac:(lia)) as Hcm.
  assert (Hq : 0 <= idx / 8 < Z.of_nat (length a)).
  { split; [apply Z.div_pos; lia | apply Z.div_lt_upper_bound; lia]. }
  rewrite channel_eq_split.
  destruct (Z.eqb_spec (c / 8) (idx / 8)) as [Heq|Hne]; cbn [andb].
  - rewrite Heq, list_lookup_total_insert_eq by lia.
    destruct b; unfold set_bit, clear_bit, u8 at 1;
      rewrite Z.mod_pow2_bits_low by lia.
    + rewrite Z.lor_spec. subst bit. rewrite match_bit_testbit by lia.
      destruct (c mod 8 =? idx mod 8); [apply orb_true_r | apply orb_false_r].
    + rewrite Z.land_spec, Z.lnot_spec by lia.
      subst bit. rewrite match_bit_testbit by lia.
      destruct (c mod 8 =? idx mod 8); [apply andb_false_r | apply andb_true_r].
  - rewrite list_lookup_total_insert_ne; [reflexivity|].
    assert (0 <= c / 8) by (apply Z.div_pos; lia). lia.
Qed.

(** One read-modify-write of [convert_match]: the bit of channel [idx] of
    vector [v] becomes [b], nothing else changes. *)
Lemma vector_update_bit (v : trigger_vector) (idx n : Z) (b : bool)
    (d : dev_context) :
  vectors_ok d ->
  data_width_bytes d = n ->
  0 <= idx < 8 * n ->
  let bit := u8 (Z.shiftl 1 (Z.rem idx 8)) in
  exists d',
    vector_update v (Z.quot idx 8)
      (if b then set_bit bit else clear_bit bit) d = Some d'
    /\ vectors_ok d'
    /\ data_width_bytes d' = n
    /\ forall v' c, 0 <= c ->
         vector_bit (vector_of v' d') c
         = if vector_eqb v' v && (c =? idx) then b
           else vector_bit (vector_of v' d) c.
Proof.
  intros Hok Hn Hidx bit.
  destruct (Hok v) as [Hlen Hbytes].
  assert (Hq : 0 <= Z.quot idx 8 < Z.of_nat (length (vector_of v d))).
  { rewrite Z.quot_div_nonneg by lia.
    split; [apply Z.div_pos; lia | apply Z.div_lt_upper_bound; lia]. }
  rewrite vector_update_defined by exact Hq.
  eexists. split; [reflexivity|]. split; [|split].
  - intros v'. rewrite vector_of_set_vector, data_width_bytes_set_vector.
    destruct (vector_eqb v' v); [|apply Hok].
    rewrite length_insert. split; [exact Hlen|].
    apply Forall_insert; [exact Hbytes|].
    destruct b; apply is_byte_u8.
  - by rewrite data_width_bytes_set_vector.
  - intros v' c Hc. rewrite vector_of_set_vector.
    destruct (vector_eqb v' v) eqn:Hv; cbn [andb]; [|reflexivity].
    assert (v' = v) as -> by (destruct v, v'; (reflexivity || discriminate)).
    apply vector_bit_write; lia.
Qed.

(** Chains the updates of one branch of [convert_match]. *)
Ltac update_bit v b :=
  match goal with
  | Hok : vectors_ok ?d, Hn : data_width_bytes ?d = ?n,
    Hidx : 0 <= ?idx < 8 * ?n
    |- context [vector_update v _ _ ?d] =>
      let d' := fresh "d" in
      let Hu := fresh "Hu" in
      let Hok' := fresh "Hok" in
      let Hn' := fresh "Hn" in
      let Hb := fresh "Hb" in
      destruct (vector_update_bit v idx n b d Hok Hn Hidx)
        as (d' & Hu & Hok' & Hn' & Hb);
      cbv iota zeta in Hu; rewrite Hu, ?bind_Some;
      clear Hu Hok Hn
  end.

(** The inner loop body follows the table. *)
Lemma convert_match_table (m : sr_trigger_match) (n : Z) (d : dev_context) :
  vectors_ok d ->
  data_width_bytes d = n ->
  0 <= index (channel m) ->
  (enabled (channel m) = true -> index (channel m) < 8 * n) ->
  exists d',
    convert_match m d = Some d'
    /\ vectors_ok d'
    /\ data_width_bytes d' = n
    /\ forall v c, 0 <= c ->
         vector_bit (vector_of v d') c
         = table_step v c (vector_bit (vector_of v d) c) m.
Proof.
  intros Hok Hn Hidx0 Hidx1. unfold convert_match, table_step.
  destruct (Z.ltb_spec (Z.rem (index (channel m)) 8) 0) as [Hneg|_].
  { pose proof (Z.rem_nonneg (index (channel m)) 8 ltac:(lia) Hidx0). lia. }
  destruct (enabled (channel m)); cbn [negb andb].
  2: { exists d. auto. }
  assert (Hidx : 0 <= index (channel m) < 8 * n) by (split; auto).
  destruct (match_kind m).
  - (* ZERO *)
    update_bit Vvalue false. update_bit Vmask true.
    update_bit Vmask_last false. update_bit Vedge_mask false.
    eexists. split; [reflexivity|]. split; [assumption|]. split; [assumption|].
    intros v c Hc. rewrite Hb2, Hb1, Hb0, Hb by assumption.
    rewrite (Z.eqb_sym c). destruct v, (index (channel m) =? c); reflexivity.
  - (* ONE *)
    update_bit Vvalue true. update_bit Vmask true.
    update_bit Vmask_last false. update_bit Vedge_mask false.
    eexists. split; [reflexivity|]. split; [assumption|]. split; [assumption|].
    intros v c Hc. rewrite Hb2, Hb1, Hb0, Hb by assumption.
    rewrite (Z.eqb_sym c). destruct v, (index (channel m) =? c); reflexivity.
  - (* RISING *)
    update_bit Vvalue true. update_bit Vvalue_last false.
    update_bit Vmask true. update_bit Vmask_last true.
    update_bit Vedge_mask false.
    eexists. split; [reflexivity|]. split; [assumption|]. split; [assumption|].
    intros v c Hc. rewrite Hb3, Hb2, Hb1, Hb0, Hb by assumption.
    rewrite (Z.eqb_sym c). destruct v, (index (channel m) =? c); reflexivity.
  - (* FALLING *)
    update_bit Vvalue false. update_bit Vvalue_last true.
    update_bit Vmask true. update_bit Vmask_last true.
    update_bit Vedge_mask false.
    eexists. split; [reflexivity|]. split; [assumption|]. split; [assumption|].
    intros v c Hc. rewrite Hb3, Hb2, Hb1, Hb0, Hb by assumption.
    rewrite (Z.eqb_sym c). destruct v, (index (channel m) =? c); reflexivity.
  - (* EDGE *)
    update_bit Vmask false. update_bit Vmask_last false.
    update_bit Vedge_mask true.
    eexists. split; [reflexivity|]. split; [assumption|]. split; [assumption|].
    intros v c Hc. rewrite Hb1, Hb0, Hb by assumption.
    rewrite (Z.eqb_sym c). destruct v, (index (channel m) =? c); reflexivity.
  - (* OVER *)
    exists d. repeat split; try assumption; try apply Hok.
    intros v c _. destruct v, (index (channel m) =? c); reflexivity.
  - (* UNDER *)
    exists d. repeat split; try assumption; try apply Hok.
    intros v c _. destruct v, (index (channel m) =? c); reflexivity.
Qed.

(** The inner loop over the matches of a stage. *)
Lemma convert_matches_table (ms : list sr_trigger_match) (n : Z)
    (d : dev_context) :
  vectors_ok d ->
  data_width_bytes d = n ->
  Forall (fun m => 0 <= index (channel m)
                   /\ (enabled (channel m) = true
                       -> index (channel m) < 8 * n)) ms ->
  exists d',
    convert_matches ms d = Some d'
    /\ vectors_ok d'
    /\ data_width_bytes d' = n
    /\ forall v c, 0 <= c ->
         vector_bit (vector_of v d') c
         = fold_left (table_step v c) ms (vector_bit (vector_of v d) c).
Proof.
  intros Hok Hn Hms. revert d Hok Hn.
  induction Hms as [|m ms [Hm0 Hm1] _ IH]; intros d Hok Hn.
  - exists d. auto.
  - cbn [convert_matches fold_left].
    destruct (convert_match_table m n d Hok Hn Hm0 Hm1)
      as (d1 & -> & Hok1 & Hn1 & Hb1).
    rewrite bind_Some.
    destruct (IH d1 Hok1 Hn1) as (d2 & -> & Hok2 & Hn2 & Hb2).
    exists d2. repeat split; try assumption; try apply Hok2.
    intros v c Hc. rewrite Hb2, Hb1 by assumption. reflexivity.
Qed.

Lemma convert_matches_app (ms1 ms2 : list sr_trigger_match)
    (d : dev_context) :
  convert_matches (ms1 ++ ms2) d
  = convert_matches ms1 d ≫= convert_matches ms2.
Proof.
  revert d; induction ms1 as [|m ms1 IH]; intros d; [reflexivity|].
  cbn [app convert_matches].
  destruct (convert_match m d) as [d1|]; [|reflexivity].
  rewrite !bind_Some. apply IH.
Qed.

(** The two nested loops visit the matches stage after stage. *)
Lemma convert_stages_flat (ss : list sr_trigger_stage) (d : dev_context) :
  convert_stages ss d = convert_matches (concat (map matches ss)) d.
Proof.
  revert d; induction ss as [|s ss IH]; intros d; [reflexivity|].
  cbn [convert_stages map concat]. rewrite convert_matches_app.
  destruct (convert_matches (matches s) d) as [d1|]; [|reflexivity].
  rewrite !bind_Some. apply IH.
Qed.

(** The first loop, from index [i] on: the bytes it visits become 0. *)
Lemma clear_vectors_zero (k : nat) (i n : Z) (d : dev_context) :
  (forall v, Z.of_nat (length (vector_of v d)) = n) ->
  data_width_bytes d = n ->
  0 <= i -> i + Z.of_nat k <= n ->
  exists d',
    clear_vectors k i d = Some d'
    /\ (forall v, Z.of_nat (length (vector_of v d')) = n)
    /\ data_width_bytes d' = n
    /\ forall v (j : nat),
         vector_of v d' !! j
         = if (Z.to_nat i <=? j)%nat && (j <? Z.to_nat i + k)%nat
           then (if (j <? Z.to_nat n)%nat then Some 0 else None)
           else vector_of v d !! j.
Proof.
  revert i d. induction k as [|k IH]; intros i d Hlen Hn Hi Hin.
  - exists d. repeat split; try assumption.
    intros v j.
    destruct (Nat.leb_spec (Z.to_nat i) j), (Nat.ltb_spec j (Z.to_nat i + 0));
      cbn [andb]; try reflexivity; lia.
  - cbn [clear_vectors]. unfold clear_vectors_at.
    assert (Hstep : forall v d0,
              (forall v, Z.of_nat (length (vector_of v d0)) = n) ->
              vector_update v i (fun _ => 0) d0
              = Some (set_vector v (<[Z.to_nat i := 0]> (vector_of v d0)) d0)).
    { intros v d0 Hlen0. apply vector_update_defined.
      rewrite Hlen0. lia. }
    assert (Hkeep : forall v a d0,
              (forall v, Z.of_nat (length (vector_of v d0)) = n) ->
              Z.of_nat (length a) = n ->
              forall v', Z.of_nat (length (vector_of v' (set_vector v a d0))) = n).
    { intros v a d0 Hlen0 Ha v'. rewrite vector_of_set_vector.
      destruct (vector_eqb v' v); auto. }
    set (z := fun (v : trigger_vector) (d0 : dev_context) =>
                set_vector v (<[Z.to_nat i := 0]> (vector_of v d0)) d0).
    assert (Hz : forall v d0,
              (forall v, Z.of_nat (length (vector_of v d0)) = n) ->
              forall v', Z.of_nat (length (vector_of v' (z v d0))) = n).
    { intros v d0 Hlen0. apply Hkeep; [exact Hlen0|].
      rewrite length_insert. apply Hlen0. }
    rewrite (Hstep Vmask d Hlen), bind_Some. fold (z Vmask d).
    rewrite (Hstep Vvalue _ (Hz Vmask d Hlen)), bind_Some.
    fold (z Vvalue (z Vmask d)).
    rewrite (Hstep Vmask_last _ (Hz Vvalue _ (Hz Vmask d Hlen))), bind_Some.
    fold (z Vmask_last (z Vvalue (z Vmask d))).
    rewrite (Hstep Vvalue_last _
               (Hz Vmask_last _ (Hz Vvalue _ (Hz Vmask d Hlen)))), bind_Some.
    fold (z Vvalue_last (z Vmask_last (z Vvalue (z Vmask d)))).
    rewrite (Hstep Vedge_mask _
               (Hz Vvalue_last _
                  (Hz Vmask_last _ (Hz Vvalue _ (Hz Vmask d Hlen))))),
      bind_Some.
    fold (z Vedge_mask (z Vvalue_last (z Vmask_last (z Vvalue (z Vmask d))))).
    set (d1 := z Vedge_mask (z Vvalue_last (z Vmask_last (z Vvalue (z Vmask d))))).
    assert (Hlen1 : forall v, Z.of_nat (length (vector_of v d1)) = n).
    { subst d1. repeat apply Hz. exact Hlen. }
    assert (Hn1 : data_width_bytes d1 = n).
    { subst d1 z. cbv beta. by rewrite !data_width_bytes_set_vector. }
    assert (Hd1 : forall v, vector_of v d1
                            = <[Z.to_nat i := 0]> (vector_of v d)).
    { intros v. subst d1 z. cbv beta. rewrite !vector_of_set_vector.
      destruct v; reflexivity. }
    destruct (IH (i + 1) d1 Hlen1 Hn1) as (d2 & -> & Hlen2 & Hn2 & Hd2);
      [lia | lia |].
    exists d2. repeat split; try assumption.
    intros v j. rewrite Hd2, Hd1.
    replace (Z.to_nat (i + 1)) with (S (Z.to_nat i)) by lia.
    specialize (Hlen v).
    destruct (Nat.eq_dec j (Z.to_nat i)) as [->|Hne].
    + rewrite list_lookup_insert_eq by lia.
      destruct (Nat.leb_spec (S (Z.to_nat i)) (Z.to_nat i)); [lia|].
      destruct (Nat.leb_spec (Z.to_nat i) (Z.to_nat i)); [|lia].
      destruct (Nat.ltb_spec (Z.to_nat i) (Z.to_nat i + S k)); [|lia].
      destruct (Nat.ltb_spec (Z.to_nat i) (Z.to_nat n)); [|lia].
      reflexivity.
    + rewrite list_lookup_insert_ne by lia.
      destruct (Nat.leb_spec (S (Z.to_nat i)) j),
        (Nat.leb_spec (Z.to_nat i) j),
        (Nat.ltb_spec j (S (Z.to_nat i) + k)),
        (Nat.ltb_spec j (Z.to_nat i + S k)); cbn [andb];
        try reflexivity; lia.
Qed.

Lemma convert_trigger_reset (devc : dev_context) (v : trigger_vector) :
  let d := set_raw_sample_buf None
             (set_num_transfers 0 (set_num_stages 0 devc)) in
  vector_of v d = vector_of v devc
  /\ data_width_bytes d = data_width_bytes devc.
Proof. destruct devc, v; split; reflexivity. Qed.

(** C4.  [ipdbg_la_convert_trigger] clears the five vectors, then goes
    through the matches stage after stage: a match on a disabled channel
    changes nothing, a match on an enabled channel [c] changes bit [c mod 8]
    of byte [c / 8] of each vector as the table says.  So every bit of
    every vector is the table applied, match after match, to 0. *)
Theorem convert_trigger_follows_table (trigger : option sr_trigger)
    (devc : dev_context) :
  vectors_allocated devc ->
  matches_in_range devc (all_matches trigger) ->
  trigger_translated trigger devc.
Proof.
  intros Halloc Hrange.
  set (n := data_width_bytes devc).
  assert (Hn0 : 0 <= n) by (subst n; rewrite <- (Halloc Vmask); lia).
  unfold trigger_translated, ipdbg_la_convert_trigger.
  set (d0 := set_raw_sample_buf None
               (set_num_transfers 0 (set_num_stages 0 devc))).
  assert (Hd0 : forall v, vector_of v d0 = vector_of v devc)
    by (intros v; apply (convert_trigger_reset devc v)).
  assert (Hn : data_width_bytes d0 = n)
    by apply (convert_trigger_reset devc Vmask).
  rewrite Hn.
  destruct (clear_vectors_zero (Z.to_nat n) 0 n d0)
    as (d1 & -> & Hlen1 & Hn1 & Hz1); try lia.
  { intros v. rewrite Hd0. apply Halloc. }
  rewrite bind_Some.
  assert (Hzero : forall v (j : nat), (j < Z.to_nat n)%nat ->
            vector_of v d1 !! j = Some 0).
  { intros v j Hj. rewrite Hz1.
    change (Z.to_nat 0) with 0%nat. cbn [Nat.leb Nat.add andb].
    destruct (Nat.ltb_spec j (Z.to_nat n)); [reflexivity | lia]. }
  assert (Hok1 : vectors_ok d1).
  { intros v. rewrite Hn1. split; [apply Hlen1|].
    apply Forall_lookup. intros j x Hx.
    assert (Hj : (j < Z.to_nat n)%nat).
    { apply lookup_lt_Some in Hx. specialize (Hlen1 v). lia. }
    rewrite (Hzero v j Hj) in Hx. injection Hx as <-. unfold is_byte. lia. }
  assert (Hbit1 : forall v c, 0 <= c < 8 * n ->
            vector_bit (vector_of v d1) c = false).
  { intros v c Hc. unfold vector_bit.
    assert (Hq : 0 <= c / 8 < n)
      by (split; [apply Z.div_pos; lia | apply Z.div_lt_upper_bound; lia]).
    rewrite (list_lookup_total_correct _ _ 0 (Hzero v (Z.to_nat (c / 8))
                                               ltac:(lia))).
    apply Z.bits_0. }
  destruct trigger as [t|].
  - rewrite convert_stages_flat.
    destruct (convert_matches_table (concat (map matches (stages t))) n d1
                Hok1 Hn1 Hrange) as (d2 & -> & Hok2 & Hn2 & Hb2).
    rewrite bind_Some. exists d2. split; [reflexivity|].
    split; [exact Hok2|]. split; [exact Hn2|].
    intros v c Hc. rewrite Hb2 by lia. rewrite Hbit1 by exact Hc. reflexivity.
  - exists d1. split; [reflexivity|]. split; [exact Hok1|].
    split; [exact Hn1|].
    intros v c Hc. rewrite Hbit1 by exact Hc. reflexivity.
Qed.

Lemma convert_trigger_follows_table_witness :
  trigger_translated (Some trigger_example) devc_example.
Proof.
  apply (convert_trigger_follows_table (Some trigger_example) devc_example).
  - intros []; reflexivity.
  - repeat constructor; cbn; lia.
Defined.

(** The two examples of the specification, and a disabled channel. *)
Example convert_trigger_rising_5 :
  exists devc',
    ipdbg_la_convert_trigger
      (Some (mk_trigger
               [mk_stage [mk_match (mk_channel 5 true) SR_TRIGGER_RISING]]))
      devc_example = Some (SR_OK, devc')
    /\ trigger_mask devc' = [0x20; 0] /\ trigger_mask_last devc' = [0x20; 0]
    /\ trigger_value devc' = [0x20; 0] /\ trigger_value_last devc' = [0; 0]
    /\ trigger_edge_mask devc' = [0; 0].
Proof.
  eexists. split; [vm_compute; reflexivity|].
  repeat (split; [reflexivity|]). reflexivity.
Qed.

Example convert_trigger_edge_0 :
  exists devc',
    ipdbg_la_convert_trigger
      (Some (mk_trigger
               [mk_stage [mk_match (mk_channel 0 true) SR_TRIGGER_EDGE]]))
      devc_example = Some (SR_OK, devc')
    /\ trigger_mask devc' = [0; 0] /\ trigger_mask_last devc' = [0; 0]
    /\ trigger_value devc' = [0; 0] /\ trigger_value_last devc' = [0; 0]
    /\ trigger_edge_mask devc' = [0x01; 0].
Proof.
  eexists. split; [vm_compute; reflexivity|].
  repeat (split; [reflexivity|]). reflexivity.
Qed.

Example convert_trigger_disabled :
  exists devc',
    ipdbg_la_convert_trigger
      (Some (mk_trigger
               [mk_stage [mk_match (mk_channel 3 false) SR_TRIGGER_ONE]]))
      devc_example = Some (SR_OK, devc')
    /\ forall v, vector_of v devc' = [0; 0].
Proof.
  eexists. split; [vm_compute; reflexivity|]. intros []; reflexivity.
Qed.

(** ** TriggerSerializer *)

(** The loop that sends a vector, with [k] bytes left to send: they leave
    from index [k - 1] down to index 0. *)
Lemma send_reversed (a : list Z) (dwb : Z) (k : nat) (i : Z)
    (rx : list rx_event) (wire : list Z) :
  dwb <= Z.of_nat (length a) ->
  0 <= i ->
  i + Z.of_nat k = dwb ->
  io_for k i (fun i =>
    match ptr_add a (dwb - 1 - i) with
    | Some p => io_bind (send_escaping p 1) (fun _ => io_ret tt)
    | None => io_undefined
    end) (reliable rx wire)
  = Some (tt, reliable rx (wire ++ escape (rev (take k a)))).
Proof.
  intros Hlen. revert i wire.
  induction k as [|k IH]; intros i wire Hi0 Hi.
  - cbn. unfold io_ret, escape. cbn. by rewrite app_nil_r.
  - cbn [io_for]. unfold io_bind at 1.
    assert (Hidx : dwb - 1 - i = Z.of_nat k) by lia.
    destruct (a !! k) as [x|] eqn:Hx.
    2: { apply lookup_ge_None in Hx. lia. }
    unfold ptr_add. rewrite Hidx, Nat2Z.id.
    destruct (Z.ltb_spec (Z.of_nat k) 0); [lia|].
    destruct (Z.ltb_spec (Z.of_nat (length a)) (Z.of_nat k)); [lia|].
    cbn [orb]. rewrite (drop_S _ _ _ Hx).
    unfold io_bind at 1. rewrite send_escaping_one. unfold io_ret at 1.
    rewrite IH by lia.
    rewrite (take_S_r _ _ _ Hx), rev_app_distr. cbn [rev app].
    rewrite escape_cons, app_assoc. reflexivity.
Qed.

Lemma send_vector_reliable (group selector : Z) (v : trigger_vector)
    (devc : dev_context) (rx : list rx_event) (wire : list Z) :
  Z.of_nat (length (vector_of v devc)) = data_width_bytes devc ->
  send_vector group selector v devc (reliable rx wire)
  = Some (tt, reliable rx (wire ++ [0xF0; group; selector]
                             ++ escape (rev (vector_of v devc)))).
Proof.
  intros Hlen. unfold send_vector, io_bind.
  rewrite !tcp_send_reliable.
  rewrite (send_reversed _ (data_width_bytes devc)) by lia.
  rewrite <- Hlen, Nat2Z.id, firstn_all, <- !app_assoc. reflexivity.
Qed.

(** C8.  [ipdbg_la_send_trigger] sends mask, value, mask_last, value_last
    and edge_mask in this order, each after its three opcodes (0xF0, the
    group selector, the vector selector; edge_mask has the pair 0xF5, 0xF6)
    and each from its last byte to its first, every byte escaped on its
    own. *)
Theorem send_trigger_stream (devc : dev_context) (rx : list rx_event)
    (wire : list Z) :
  vectors_allocated devc ->
  ipdbg_la_send_trigger devc (reliable rx wire)
  = Some (SR_OK,
          reliable rx
            (wire
             ++ ([0xF0; 0xF1; 0xF3] ++ escape (rev (trigger_mask devc)))
             ++ ([0xF0; 0xF1; 0xF7] ++ escape (rev (trigger_value devc)))
             ++ ([0xF0; 0xF9; 0xFB] ++ escape (rev (trigger_mask_last devc)))
             ++ ([0xF0; 0xF9; 0xFF] ++ escape (rev (trigger_value_last devc)))
             ++ ([0xF0; 0xF5; 0xF6] ++ escape (rev (trigger_edge_mask devc))))).
Proof.
  intros Hvec. unfold ipdbg_la_send_trigger, io_bind.
  rewrite !send_vector_reliable by apply Hvec.
  unfold io_ret. cbn [vector_of]. rewrite <- !app_assoc. reflexivity.
Qed.

Lemma send_trigger_stream_witness :
  vectors_allocated devc_example
  /\ ipdbg_la_send_trigger devc_example (reliable [] [])
     = Some (SR_OK,
             reliable []
               [0xF0; 0xF1; 0xF3; 0x55; 0x55; 0x20;
                0xF0; 0xF1; 0xF7; 0; 0x20;
                0xF0; 0xF9; 0xFB; 0x55; 0xEE; 0;
                0xF0; 0xF9; 0xFF; 0; 0;
                0xF0; 0xF5; 0xF6; 0; 1]).
Proof.
  assert (H : vectors_allocated devc_example) by (intros []; reflexivity).
  split; [exact H|].
  rewrite (send_trigger_stream devc_example [] [] H). reflexivity.
Defined.

(** ** Delay *)

Example delay_1000_50 : delay_of 1000 50 = Some 499.
Proof. vm_compute. reflexivity. Qed.

Example delay_30_100 : delay_of 30 100 = Some 28.
Proof. vm_compute. reflexivity. Qed.

(** Up to 128 samples the delay is never more than one below the exact
    quotient, and never above it. *)
Lemma delay_of_near_exact (limit_samples capture_ratio : Z) :
  1 <= limit_samples <= 128 -> 0 <= capture_ratio <= 100 ->
  delay_near limit_samples capture_ratio = true.
Proof.
  intros Hn Hr.
  assert (Hall : forallb (fun n => forallb (delay_near n) (seqZ 0 101))
                   (seqZ 1 128) = true) by (vm_compute; reflexivity).
  rewrite forallb_forall in Hall.
  specialize (Hall limit_samples).
  rewrite forallb_forall in Hall.
  apply Hall.
  - apply list_elem_of_In, elem_of_seqZ. lia.
  - apply list_elem_of_In, elem_of_seqZ. lia.
Qed.

(** C7.  What the code does for 30 samples and a capture ratio of 100: 29 /
    100.0 is the double nearest to 0.29, which is below 0.29; its product
    with 100 rounds to the double just below 29; the conversion to
    [uint64_t] drops the fraction.  The delay is 28, not
    floor (29 * 100 / 100) = 29. *)
Theorem send_delay_rounds_below (devc : dev_context) (rx : list rx_event)
    (wire : list Z) :
  limit_samples devc = 30 ->
  capture_ratio devc = 100 ->
  0 <= addr_width_bytes devc <= 4 ->
  exists devc' tcp',
    ipdbg_la_send_delay devc (reliable rx wire) = Some (SR_OK, devc', tcp')
    /\ delay_value devc' = 28
    /\ delay_value devc'
       <> (limit_samples devc - 1) * capture_ratio devc / 100.
Proof.
  intros Hn Hr Hw. unfold ipdbg_la_send_delay. rewrite Hn, Hr, delay_30_100.
  unfold io_bind. rewrite !tcp_send_reliable.
  rewrite (send_reversed _ (addr_width_bytes devc));
    [ | cbn [length]; lia | lia | destruct devc; cbn in *; lia ].
  eexists _, _. split; [reflexivity|]. split; [reflexivity|].
  destruct devc; cbn in *. subst. discriminate.
Qed.

Lemma send_delay_rounds_below_witness :
  exists devc' tcp',
    ipdbg_la_send_delay devc_thirty (reliable [] []) = Some (SR_OK, devc', tcp')
    /\ delay_value devc' = 28
    /\ delay_value devc' <> (30 - 1) * 100 / 100.
Proof.
  apply (send_delay_rounds_below devc_thirty [] []);
    [reflexivity | reflexivity | cbn; lia].
Defined.

(** ** AcquisitionDecoder: the pass-through *)

(** C6.  With a run-length code width of 0 the decoder succeeds, reports
    [limit_samples] samples and the configured delay, and leaves the context,
    the raw buffer with it, as it is; the allocator is not consulted. *)
Theorem runlength_decode_passthrough (can_alloc : Z -> bool)
    (devc : dev_context) :
  runlength_code_width devc = 0 ->
  ipdbg_la_runlength_decode can_alloc devc
  = Some (true, delay_value devc, limit_samples devc, devc).
Proof. intros Hw. unfold ipdbg_la_runlength_decode. by rewrite Hw. Qed.

Lemma runlength_decode_passthrough_witness :
  runlength_code_width devc_example = 0
  /\ ipdbg_la_runlength_decode (fun _ => false) devc_example
     = Some (true, 0, 1024, devc_example).
Proof.
  split; [reflexivity|].
  apply (runlength_decode_passthrough (fun _ => false) devc_example).
  reflexivity.
Defined.

(** ** AcquisitionDecoder: the repeat counts *)

Lemma sum_list_lower (l : list Z) :
  Forall (fun r => 1 <= r) l -> Z.of_nat (length l) <= sum_list l.
Proof.
  induction 1 as [|r l Hr _ IH]; [reflexivity|].
  unfold sum_list in *. cbn [length foldr]. lia.
Qed.

Lemma sum_list_upper (l : list Z) (b : Z) :
  Forall (fun r => r <= b) l -> sum_list l <= Z.of_nat (length l) * b.
Proof.
  induction 1 as [|r l Hr _ IH]; [reflexivity|].
  unfold sum_list in *. cbn [length foldr]. lia.
Qed.

Lemma sum_list_take (l : list Z) (k : nat) :
  Forall (fun r => 0 <= r) l -> 0 <= sum_list (take k l) <= sum_list l.
Proof.
  intros H. revert k. induction H as [|r l Hr _ IH]; intros [|k];
    unfold sum_list in *; cbn [take foldr]; try lia.
  - pose proof (IH 0%nat) as IH0. rewrite take_0 in IH0. cbn in IH0. lia.
  - specialize (IH k). lia.
Qed.

Section Repeats.

Variables (raw : list Z) (rdwb rcwb w rdv : Z).

Hypothesis Hw : 0 < w < 32.
Hypothesis Hrcwb : 0 <= rcwb <= 4.
Hypothesis Hwidths : rcwb <= rdwb.

(** Inside the buffer and below byte 4 the code is read. *)
Lemma read_code_defined (n : nat) (byte base acc : Z) :
  0 <= byte -> 0 <= base ->
  byte + Z.of_nat n <= 4 ->
  base + byte + Z.of_nat n <= Z.of_nat (length raw) ->
  exists code, read_code n byte raw base acc = Some code.
Proof.
  revert byte acc. induction n as [|n IH]; intros byte acc Hb Hbase H4 Hin.
  - eexists; reflexivity.
  - cbn [read_code]. unfold peek.
    destruct (Z.ltb_spec (base + byte) 0); [lia|].
    destruct (raw !! Z.to_nat (base + byte)) as [x|] eqn:Hx.
    2: { apply lookup_ge_None in Hx. lia. }
    cbn [mbind option_bind]. unfold host_word_size.
    destruct (Z.leb_spec 32 (byte * 8)); [lia|].
    apply IH; lia.
Qed.

(** A repeat count is between 1 and 2^w. *)
Lemma repeat_count_range (i : Z) :
  0 <= i ->
  (i + 1) * rdwb <= Z.of_nat (length raw) ->
  exists r, repeat_count raw rdwb rcwb (Z.ones w) i = Some r
            /\ 1 <= r <= 2 ^ w.
Proof.
  intros Hi Hin. unfold repeat_count.
  destruct (read_code_defined (Z.to_nat rcwb) 0 (i * rdwb) 0) as [code ->];
    try nia.
  cbn [mbind option_bind]. eexists; split; [reflexivity|].
  rewrite Z.land_ones by lia.
  pose proof (Z.mod_pos_bound code (2 ^ w) ltac:(lia)) as Hmod.
  assert (2 ^ w < 2 ^ 32) by (apply Z.pow_lt_mono_r; lia).
  unfold u32. rewrite Z.mod_small; lia.
Qed.

(** The loop over the raw samples, from sample [i] on. *)
Lemma count_repeats_sums (n : nat) (i : Z) (repeats : list Z)
    (total delay : Z) :
  0 <= i ->
  0 <= delay <= total ->
  total + Z.of_nat n * 2 ^ w < 2 ^ 64 ->
  (i + Z.of_nat n) * rdwb <= Z.of_nat (length raw) ->
  exists rs,
    count_repeats n i raw rdwb rcwb (Z.ones w) rdv repeats total delay
    = Some (repeats ++ rs, total + sum_list rs,
            delay + sum_list (take (Z.to_nat (rdv - i)) rs))
    /\ length rs = n
    /\ Forall (fun r => 1 <= r <= 2 ^ w) rs.
Proof.
  revert i repeats total delay.
  induction n as [|n IH]; intros i repeats total delay Hi Hdel Htot Hin.
  - exists []. rewrite app_nil_r, take_nil. cbn.
    rewrite !Z.add_0_r. auto.
  - cbn [count_repeats].
    assert (0 <= rdwb) by lia.
    destruct (repeat_count_range i Hi) as (r & -> & Hr); [nia|].
    cbn [mbind option_bind].
    assert (Hpow : 0 < 2 ^ w) by (apply Z.pow_pos_nonneg; lia).
    rewrite (u64_small (total + r)) by nia.
    destruct (IH (i + 1) (repeats ++ [r]) (total + r)
                (if i <? rdv then u64 (delay + r) else delay))
      as (rs & -> & Hlen & Hrs); try nia.
    { destruct (i <? rdv); [rewrite u64_small|]; nia. }
    exists (r :: rs). rewrite <- app_assoc. cbn [app]. split; [|split].
    + f_equal. f_equal; [f_equal; unfold sum_list; cbn [foldr]; lia|].
      destruct (Z.ltb_spec i rdv) as [Hlt|Hge].
      * rewrite u64_small by nia.
        replace (Z.to_nat (rdv - i)) with (S (Z.to_nat (rdv - (i + 1))))
          by lia.
        unfold sum_list. cbn [take foldr]. lia.
      * replace (Z.to_nat (rdv - i)) with 0%nat by lia.
        replace (Z.to_nat (rdv - (i + 1))) with 0%nat by lia.
        rewrite !take_0. cbn. lia.
    + cbn [length]. lia.
    + constructor; assumption.
Qed.

End Repeats.

Lemma runlength_count_mask_ones (devc : dev_context) :
  0 < runlength_code_width devc < 32 ->
  runlength_count_mask devc = Some (Z.ones (runlength_code_width devc)).
Proof.
  intros Hw. unfold runlength_count_mask.
  destruct (Z.leb_spec 64 (runlength_code_width devc)); [lia|].
  rewrite Z.shiftl_1_l, Z.ones_equiv.
  assert (0 < 2 ^ runlength_code_width devc) by (apply Z.pow_pos_nonneg; lia).
  assert (2 ^ runlength_code_width devc < 2 ^ 32)
    by (apply Z.pow_lt_mono_r; lia).
  rewrite u64_small by lia. unfold u32. rewrite Z.mod_small by lia.
  reflexivity.
Qed.

Lemma code_width_bytes_range (devc : dev_context) :
  0 < runlength_code_width devc < 32 ->
  0 <= data_width devc ->
  data_width devc + runlength_code_width devc + 7 < 2 ^ 32 ->
  0 <= runlength_code_width_bytes devc <= 4
  /\ runlength_code_width_bytes devc <= raw_data_width_bytes devc.
Proof.
  intros Hw Hd Hfit.
  unfold runlength_code_width_bytes, raw_data_width_bytes, host_word_size, u32.
  rewrite (Z.mod_small (data_width devc + runlength_code_width devc + 8 - 1))
    by lia.
  split; [split|].
  - apply Z.div_pos; lia.
  - assert ((runlength_code_width devc + 8 - 1) / 8 < 5)
      by (apply Z.div_lt_upper_bound; lia).
    lia.
  - apply Z.div_le_mono; lia.
Qed.

(** C10, as the code has it.  For a code width of 1 to 31 bits and a raw
    buffer of [limit_samples] samples, every repeat count is between 1 and
    2^w, so [total_samples] is at least [limit_samples] and the expanded
    delay, a sum of some of the counts, is at most [total_samples]. *)
Theorem decode_repeats_in_range (devc : dev_context) (raw : list Z) :
  0 < runlength_code_width devc < 32 ->
  0 <= data_width devc ->
  data_width devc + runlength_code_width devc + 7 < 2 ^ 32 ->
  raw_sample_buf devc = Some raw ->
  Z.of_nat (length raw) = byte_budget devc ->
  0 <= limit_samples devc < 2 ^ 32 ->
  repeats_counted devc.
Proof.
  intros Hw Hd Hfit Hraw Hlen Hn.
  destruct (code_width_bytes_range devc Hw Hd Hfit) as [Hrcwb Hwidths].
  assert (Hpow : 2 ^ runlength_code_width devc <= 2 ^ 31)
    by (apply Z.pow_le_mono_r; lia).
  destruct (count_repeats_sums raw (raw_data_width_bytes devc)
              (runlength_code_width_bytes devc) (runlength_code_width devc)
              (delay_value devc) Hw Hrcwb Hwidths
              (Z.to_nat (limit_samples devc)) 0 [] 0 0)
    as (rs & Hcount & Hlenrs & Hrs); try lia.
  { rewrite Z2Nat.id by lia. nia. }
  { rewrite Z2Nat.id by lia. unfold byte_budget in Hlen. lia. }
  cbn [app] in Hcount. rewrite !Z.add_0_l, Z.sub_0_r in Hcount.
  unfold repeats_counted, decode_repeats.
  rewrite (runlength_count_mask_ones devc Hw), Hraw.
  exists rs, (sum_list rs), (sum_list (take (Z.to_nat (delay_value devc)) rs)).
  split; [exact Hcount|]. split; [lia|]. split; [exact Hrs|].
  split; [reflexivity|]. split; [reflexivity|]. split.
  - pose proof (sum_list_lower rs) as Hlow.
    rewrite Hlenrs in Hlow. rewrite Z2Nat.id in Hlow by lia.
    apply Hlow. eapply Forall_impl; [exact Hrs|]. cbn. lia.
  - apply sum_list_take. eapply Forall_impl; [exact Hrs|]. cbn. lia.
Qed.

Lemma decode_repeats_in_range_witness : repeats_counted devc_two_runs.
Proof.
  apply (decode_repeats_in_range devc_two_runs [0; 0xAB; 2; 0xCD]);
    try reflexivity; vm_compute; intuition discriminate.
Defined.

Example decode_repeats_two_runs :
  decode_repeats devc_two_runs = Some ([1; 3], 4, 1).
Proof. reflexivity. Qed.

(** C10 as stated fails for a code width of 32: the count of a field with
    all bits set is 2^32 in 32 bits, which is 0. *)
Lemma decode_repeats_wraps : ~ repeats_in_range devc_full_code.
Proof.
  intros H. destruct (H [0] 0 0 eq_refl) as (Hall & _).
  apply Forall_cons in Hall as [Hr _]. lia.
Qed.

(** ** AcquisitionDecoder: the expansion *)

(** The example of the specification: one 0xAB, three 0xCD, the delay of one
    raw sample is one sample. *)
Example runlength_decode_two_runs :
  ipdbg_la_runlength_decode (fun _ => true) devc_two_runs
  = Some (true, 1, 4,
          set_raw_sample_buf (Some [0xAB; 0xCD; 0xCD; 0xCD]) devc_two_runs).
Proof. vm_compute. reflexivity. Qed.

(** A code width below 8: three bits of count under five bits of data. *)
Example runlength_decode_three_bits :
  ipdbg_la_runlength_decode (fun _ => true)
    (mk_devc 5 1 1 1 2 2 50 [0] [0] [0] [0] [0] 0 0 2
       (Some [0xA9; 0x38]) 2 3 1 0)
  = Some (true, 0, 3,
          set_raw_sample_buf (Some [0x15; 0x15; 0x07])
            (mk_devc 5 1 1 1 2 2 50 [0] [0] [0] [0] [0] 0 0 2
               (Some [0xA9; 0x38]) 2 3 1 0)).
Proof. vm_compute. reflexivity. Qed.

(** The slip of line 349, with four channels and a code width of 12.  The
    data of the first raw sample is 0x0A.  The guard of line 349 lets the
    code read the byte after the sample, the first byte of the next one,
    whose low nibble lands in the high nibble of the output: 0xFA, and 0x0A
    again once that byte is 0.  For the last raw sample the byte after it is
    outside the buffer, and the decoder has no defined result. *)
Lemma runlength_decode_reads_next_sample :
  let d := devc_nibbles in
  let w := runlength_code_width d in
  let rdwb := raw_data_width_bytes d in
  let rcwb := runlength_code_width_bytes d in
  (w, rdwb, decode_data_width_bytes d, rcwb) = (12, 2, 1, 2)
  /\ decode_repeats d = Some ([1; 16], 17, 1)
  /\ sample_payload w 1 (raw_sample raw_nibbles rdwb 0) = [0x0A]
  /\ payload_byte raw_nibbles w rdwb rcwb 0 0 = Some 0xFA
  /\ payload_byte [0x00; 0xA0; 0x00; 0xB0] w rdwb rcwb 0 0 = Some 0x0A
  /\ payload_byte raw_nibbles w rdwb rcwb 1 0 = None
  /\ ipdbg_la_runlength_decode (fun _ => true) d = None.
Proof. vm_compute. repeat split. Qed.

(** *** Bytes and little-endian numbers *)

Lemma le_value_cons (b : Z) (s : list Z) :
  le_value (b :: s) = b + 2 ^ 8 * le_value s.
Proof. reflexivity. Qed.

Lemma le_value_range (s : list Z) :
  Forall is_byte s -> 0 <= le_value s < 2 ^ (8 * Z.of_nat (length s)).
Proof.
  induction 1 as [|b s Hb _ IH]; [cbn; lia|].
  rewrite le_value_cons. cbn [length].
  replace (8 * Z.of_nat (S (length s))) with (8 + 8 * Z.of_nat (length s))
    by lia.
  rewrite Z.pow_add_r by lia. unfold is_byte in Hb. nia.
Qed.

Lemma le_value_app (s1 s2 : list Z) :
  le_value (s1 ++ s2)
  = le_value s1 + 2 ^ (8 * Z.of_nat (length s1)) * le_value s2.
Proof.
  induction s1 as [|b s1 IH]; [cbn [app length]; change (le_value []) with 0; lia|].
  cbn [app length]. rewrite !le_value_cons, IH.
  replace (8 * Z.of_nat (S (length s1))) with (8 + 8 * Z.of_nat (length s1))
    by lia.
  rewrite Z.pow_add_r by lia. ring.
Qed.

(** Byte [k] of the number is byte [k] of the list. *)
Lemma le_value_byte (s : list Z) (k : nat) :
  Forall is_byte s ->
  (le_value s / 2 ^ (8 * Z.of_nat k)) mod 2 ^ 8 = default 0 (s !! k).
Proof.
  intros Hs. revert k. induction Hs as [|b s Hb _ IH]; intros k.
  - change (le_value []) with 0. by rewrite Z.div_0_l, Z.mod_0_l by lia.
  - rewrite le_value_cons. unfold is_byte in Hb. destruct k as [|k].
    + change (2 ^ (8 * Z.of_nat 0)) with 1. rewrite Z.div_1_r.
      rewrite (Z.mul_comm (2 ^ 8)), Z.mod_add by lia.
      cbn. apply Z.mod_small. lia.
    + replace (8 * Z.of_nat (S k)) with (8 + 8 * Z.of_nat k) by lia.
      rewrite Z.pow_add_r, <- Z.div_div by lia.
      rewrite (Z.add_comm b), (Z.mul_comm (2 ^ 8)), Z.div_add_l by lia.
      rewrite (Z.div_small b) by lia. rewrite Z.add_0_r. apply IH.
Qed.

(** Sixteen bits of the number from byte [k] on. *)
Lemma le_value_two_bytes (s : list Z) (k : nat) :
  Forall is_byte s ->
  (le_value s / 2 ^ (8 * Z.of_nat k)) mod 2 ^ 16
  = default 0 (s !! k) + 2 ^ 8 * default 0 (s !! S k).
Proof.
  intros Hs. change (2 ^ 16) with (2 ^ 8 * 2 ^ 8).
  rewrite Z.rem_mul_r by lia.
  rewrite Z.div_div by lia. rewrite <- Z.pow_add_r by lia.
  replace (8 * Z.of_nat k + 8) with (8 * Z.of_nat (S k)) by lia.
  by rewrite !le_value_byte.
Qed.

(** The low [w] bits of the number are in its first [k] bytes when
    [w <= 8 * k]. *)
Lemma le_value_take_mod (s : list Z) (k : nat) (w : Z) :
  0 <= w <= 8 * Z.of_nat k ->
  le_value s mod 2 ^ w = le_value (take k s) mod 2 ^ w.
Proof.
  intros Hw. destruct (Nat.le_gt_cases (length s) k) as [Hlen|Hlen].
  - by rewrite take_ge.
  - rewrite <- (take_drop k s) at 1. rewrite le_value_app, length_take.
    replace (k `min` length s)%nat with k by lia.
    replace (8 * Z.of_nat k) with (w + (8 * Z.of_nat k - w)) by lia.
    rewrite Z.pow_add_r by lia.
    rewrite <- Z.mul_assoc, (Z.mul_comm (2 ^ w)), Z.mod_add; [reflexivity|].
    apply Z.pow_nonzero; lia.
Qed.

(** A byte below a number shifted by eight bits: adding is or-ing. *)
Lemma byte_lor (x y : Z) :
  is_byte x -> x + 2 ^ 8 * y = Z.lor x (Z.shiftl y 8).
Proof.
  intros Hx. unfold is_byte in Hx.
  rewrite Z.shiftl_mul_pow2 by lia. rewrite (Z.mul_comm y).
  apply Z.add_nocarry_lor. apply Z.bits_inj'. intros n Hn.
  rewrite Z.land_spec, Z.bits_0.
  destruct (Z.lt_ge_cases n 8) as [Hlow|Hhigh].
  - rewrite (Z.mul_comm (2 ^ 8)), Z.mul_pow2_bits_low by lia.
    apply andb_false_r.
  - destruct (Z.eq_dec x 0) as [->|Hx0]; [by rewrite Z.bits_0|].
    rewrite (Z.bits_above_log2 x n); [reflexivity | lia |].
    assert (Z.log2 x < 8) by (apply Z.log2_lt_pow2; lia). lia.
Qed.

(** Eight bits out of a number: only its low sixteen bits matter when the
    shift is below eight. *)
Lemma shifted_byte (x r : Z) :
  0 <= r <= 8 ->
  (x / 2 ^ r) mod 2 ^ 8 = ((x mod 2 ^ 16) / 2 ^ r) mod 2 ^ 8.
Proof.
  intros Hr. apply Z.bits_inj'. intros n Hn.
  destruct (Z.lt_ge_cases n 8) as [Hlow|Hhigh].
  - rewrite !Z.mod_pow2_bits_low by lia.
    rewrite <- !Z.shiftr_div_pow2, !Z.shiftr_spec by lia.
    rewrite Z.mod_pow2_bits_low by lia. reflexivity.
  - rewrite !Z.mod_pow2_bits_high by lia. reflexivity.
Qed.

(** *** The decoder on a buffer of bytes *)

Section Decode.

Variables (raw : list Z) (w rdwb rcwb dwb : Z).

Hypothesis Hbytes : Forall is_byte raw.
Hypothesis Hw : 0 < w < 32.
Hypothesis Hrcwb : rcwb = (w + 7) / 8.
Hypothesis Hdwb : 0 <= dwb.
Hypothesis Hcode : rcwb <= rdwb.
Hypothesis Hwide : rcwb + dwb <= rdwb + 1.
Hypothesis Hinside : rcwb <= 1 \/ rcwb + dwb <= rdwb.
Hypothesis Haligned : w mod 8 = 0 -> rcwb + dwb <= rdwb.

Lemma rcwb_range : 1 <= rcwb <= 4 /\ w <= 8 * rcwb.
Proof using Hw Hrcwb.
  rewrite Hrcwb. Z.to_euclidean_division_equations. lia.
Qed.

Lemma raw_sample_bytes (i : Z) : Forall is_byte (raw_sample raw rdwb i).
Proof using Hbytes. unfold raw_sample. by apply Forall_take, Forall_drop. Qed.

Lemma raw_sample_length (i : Z) :
  0 <= i -> (i + 1) * rdwb <= Z.of_nat (length raw) ->
  Z.of_nat (length (raw_sample raw rdwb i)) = rdwb.
Proof using Hw Hrcwb Hcode.
  clear Hbytes Hdwb Hwide Hinside Haligned.
  intros Hi Hin. pose proof rcwb_range.
  unfold raw_sample. rewrite length_take, length_drop. nia.
Qed.

(** Reading byte [j] of raw sample [i]. *)
Lemma peek_raw_sample (i j : Z) :
  0 <= i -> (i + 1) * rdwb <= Z.of_nat (length raw) ->
  0 <= j < rdwb ->
  exists x, peek raw (i * rdwb + j) = Some x
            /\ raw_sample raw rdwb i !! Z.to_nat j = Some x
            /\ is_byte x.
Proof using Hbytes Hw Hrcwb Hcode.
  clear Hdwb Hwide Hinside Haligned.
  intros Hi Hin Hj. unfold peek, raw_sample.
  destruct (Z.ltb_spec (i * rdwb + j) 0); [nia|].
  destruct (lookup_lt_is_Some_2 raw (Z.to_nat (i * rdwb + j)) ltac:(nia))
    as [x Hx].
  exists x. split; [exact Hx|]. split.
  - rewrite lookup_take_lt, lookup_drop by lia.
    rewrite <- Z2Nat.inj_add by nia. exact Hx.
  - eapply Forall_lookup_1; [exact Hbytes | exact Hx].
Qed.

(** The bytes of the code, or-ed together, are the little-endian number
    they spell. *)
Lemma read_code_value (n : nat) (byte base acc : Z) :
  0 <= byte -> 0 <= base ->
  byte + Z.of_nat n <= 4 ->
  base + byte + Z.of_nat n <= Z.of_nat (length raw) ->
  read_code n byte raw base acc
  = Some (Z.lor acc
            (Z.shiftl (le_value (take n (drop (Z.to_nat (base + byte)) raw)))
                      (8 * byte))).
Proof using Hbytes.
  clear Hw Hrcwb Hdwb Hcode Hwide Hinside Haligned.
  revert byte acc. induction n as [|n IH]; intros byte acc Hb Hbase H4 Hin.
  - rewrite take_0. change (le_value []) with 0.
    by rewrite Z.shiftl_0_l, Z.lor_0_r.
  - cbn [read_code]. unfold peek.
    destruct (Z.ltb_spec (base + byte) 0); [lia|].
    destruct (raw !! Z.to_nat (base + byte)) as [x|] eqn:Hx.
    2: { apply lookup_ge_None in Hx. lia. }
    rewrite bind_Some. unfold host_word_size.
    destruct (Z.leb_spec 32 (byte * 8)); [lia|].
    assert (Hxb : is_byte x) by (eapply Forall_lookup_1; eauto).
    rewrite IH by lia.
    rewrite (drop_S _ _ _ Hx). cbn [take]. rewrite le_value_cons.
    replace (Z.to_nat (base + (byte + 1))) with (S (Z.to_nat (base + byte)))
      by lia.
    f_equal. rewrite (byte_lor x _ Hxb), Z.shiftl_lor, Z.shiftl_shiftl by lia.
    rewrite Z.lor_assoc. f_equal; [|f_equal; lia]. f_equal.
    unfold u32. rewrite (Z.mul_comm byte 8), !Z.shiftl_mul_pow2 by lia.
    unfold is_byte in Hxb.
    assert (0 < 2 ^ (8 * byte) <= 2 ^ 24)
      by (split; [apply Z.pow_pos_nonneg; lia | apply Z.pow_le_mono_r; lia]).
    rewrite Z.mod_small by nia. reflexivity.
Qed.

(** A repeat count is the run-length field of its raw sample plus one. *)
Lemma repeat_count_value (i : Z) :
  0 <= i -> (i + 1) * rdwb <= Z.of_nat (length raw) ->
  repeat_count raw rdwb rcwb (Z.ones w) i
  = Some (sample_repeat w (raw_sample raw rdwb i)).
Proof using Hbytes Hw Hrcwb Hcode.
  clear Hdwb Hwide Hinside Haligned.
  intros Hi Hin. pose proof rcwb_range as [Hr Hwr].
  unfold repeat_count. rewrite read_code_value by nia.
  rewrite bind_Some. f_equal.
  rewrite Z.lor_0_l, Z.mul_0_r, Z.shiftl_0_r, Z.add_0_r.
  rewrite Z.land_ones by lia. unfold sample_repeat, raw_sample.
  rewrite (le_value_take_mod (take (Z.to_nat rdwb) _) (Z.to_nat rcwb) w)
    by lia.
  rewrite take_take. replace (Z.to_nat rcwb `min` Z.to_nat rdwb)%nat
    with (Z.to_nat rcwb) by lia.
  pose proof (Z.mod_pos_bound
                (le_value (take (Z.to_nat rcwb)
                             (drop (Z.to_nat (i * rdwb)) raw)))
                (2 ^ w) ltac:(lia)).
  assert (2 ^ w < 2 ^ 32) by (apply Z.pow_lt_mono_r; lia).
  unfold u32. rewrite Z.mod_small by lia. reflexivity.
Qed.

(** The table of repeat counts holds the fields of the raw samples. *)
Lemma count_repeats_values (n : nat) (i rdv : Z) (repeats : list Z)
    (total delay : Z) (result : list Z * Z * Z) :
  0 <= i ->
  (i + Z.of_nat n) * rdwb <= Z.of_nat (length raw) ->
  count_repeats n i raw rdwb rcwb (Z.ones w) rdv repeats total delay
  = Some result ->
  result.1.1
  = repeats ++ map (fun j => sample_repeat w (raw_sample raw rdwb j))
                   (seqZ i (Z.of_nat n)).
Proof using Hbytes Hw Hrcwb Hcode.
  clear Hdwb Hwide Hinside Haligned.
  pose proof rcwb_range as [Hr _].
  revert i repeats total delay.
  induction n as [|n IH]; intros i repeats total delay Hi Hin.
  - cbn. intros [= <-]. cbn. by rewrite app_nil_r.
  - cbn [count_repeats]. rewrite repeat_count_value by nia.
    rewrite bind_Some. intros Hcount.
    apply IH in Hcount; [|lia|lia]. rewrite Hcount, <- app_assoc.
    rewrite (seqZ_cons i) by lia. cbn [map app].
    repeat f_equal; lia.
Qed.

Hypothesis Hrdwb : rdwb < 2 ^ 32.

Lemma land_255 (x : Z) : Z.land x 0x00ff = x mod 2 ^ 8.
Proof using Type. change 255 with (Z.ones 8). apply Z.land_ones. lia. Qed.

(** A byte of the output is eight bits of the raw sample, from bit
    [w + 8 * byte] on. *)
Lemma payload_byte_value (i byte : Z) :
  0 <= i -> (i + 1) * rdwb <= Z.of_nat (length raw) ->
  0 <= byte < dwb ->
  payload_byte raw w rdwb rcwb i byte
  = Some ((le_value (raw_sample raw rdwb i) / 2 ^ (w + 8 * byte)) mod 2 ^ 8).
Proof.
  intros Hi Hin Hbyte. pose proof rcwb_range as [Hr Hwr].
  pose proof (raw_sample_bytes i) as HS.
  pose proof (raw_sample_length i Hi Hin) as HSlen.
  unfold payload_byte, host_word_size.
  destruct (Z.eqb_spec (w mod 8) 0) as [Hal|Hun]; cbn [negb].
  - (* the code ends on a byte *)
    specialize (Haligned Hal).
    assert (Hw8 : w = 8 * rcwb)
      by (subst rcwb; Z.to_euclidean_division_equations; lia).
    replace (i * rdwb + rcwb + byte) with (i * rdwb + (rcwb + byte)) by lia.
    destruct (peek_raw_sample i (rcwb + byte) Hi Hin ltac:(lia))
      as (x & -> & Hx & Hxb).
    rewrite !bind_Some. f_equal. rewrite land_255.
    replace (w + 8 * byte) with (8 * Z.of_nat (Z.to_nat (rcwb + byte))) by lia.
    rewrite le_value_byte, Hx by exact HS. cbn. apply Z.mod_small, Hxb.
  - (* the code ends inside a byte *)
    set (r := w mod 8) in *.
    assert (Hr8 : 0 < r < 8) by (subst r; pose proof (Z.mod_pos_bound w 8); lia).
    assert (Hw8 : w = 8 * (rcwb - 1) + r)
      by (subst rcwb r; Z.to_euclidean_division_equations; lia).
    set (k := rcwb - 1 + byte).
    replace (i * rdwb + rcwb - 1 + byte) with (i * rdwb + k) by (subst k; lia).
    destruct (peek_raw_sample i k Hi Hin ltac:(subst k; lia))
      as (x & -> & Hx & Hxb).
    rewrite bind_Some.
    assert (Hspec : forall y,
              default 0 (raw_sample raw rdwb i !! S (Z.to_nat k)) = y ->
              (le_value (raw_sample raw rdwb i) / 2 ^ (w + 8 * byte)) mod 2 ^ 8
              = ((x + 2 ^ 8 * y) / 2 ^ r) mod 2 ^ 8).
    { intros y Hy.
      replace (w + 8 * byte) with (8 * Z.of_nat (Z.to_nat k) + r)
        by (subst k; lia).
      rewrite Z.pow_add_r, <- Z.div_div by lia.
      rewrite shifted_byte by lia.
      rewrite le_value_two_bytes, Hx, Hy by exact HS. reflexivity. }
    unfold u32. rewrite (Z.mod_small (rdwb - 1)) by lia.
    destruct (Z.ltb_spec byte (rdwb - 1)) as [Hguard|Hguard].
    + replace (i * rdwb + rcwb + byte) with (i * rdwb + (k + 1))
        by (subst k; lia).
      destruct (peek_raw_sample i (k + 1) Hi Hin ltac:(subst k; lia))
        as (y & -> & Hy & Hyb).
      rewrite !bind_Some. f_equal.
      rewrite land_255, Z.shiftr_div_pow2 by lia.
      rewrite <- (byte_lor x y Hxb).
      unfold u16. unfold is_byte in Hxb, Hyb.
      rewrite (Z.mod_small (x + 2 ^ 8 * y)) by lia.
      symmetry. apply Hspec.
      replace (S (Z.to_nat k)) with (Z.to_nat (k + 1)) by (subst k; lia).
      by rewrite Hy.
    + rewrite !bind_Some. f_equal.
      rewrite land_255, Z.shiftr_div_pow2 by lia.
      rewrite (Hspec 0).
      * by rewrite Z.mul_0_r, Z.add_0_r.
      * rewrite lookup_ge_None_2; [reflexivity|]. subst k. lia.
Qed.

(** The payload of a raw sample, written byte after byte. *)
Lemma write_payload_value (n : nat) (i byte : Z) (out : list Z) :
  0 <= i -> (i + 1) * rdwb <= Z.of_nat (length raw) ->
  0 <= byte -> byte + Z.of_nat n <= dwb ->
  write_payload n byte raw w rdwb rcwb i out
  = Some (out ++ map (fun k => (le_value (raw_sample raw rdwb i)
                                / 2 ^ (w + 8 * k)) mod 2 ^ 8)
                     (seqZ byte (Z.of_nat n))).
Proof.
  intros Hi Hin. revert byte out.
  induction n as [|n IH]; intros byte out Hb Hn.
  - cbn. by rewrite app_nil_r.
  - cbn [write_payload]. rewrite payload_byte_value by lia.
    rewrite bind_Some, IH by lia.
    rewrite (seqZ_cons byte) by lia. cbn [map].
    rewrite <- app_assoc. cbn [app].
    repeat f_equal; lia.
Qed.

(** The copies of a payload behind it. *)
Lemma copy_payload_value (n : nat) (pre p : list Z) :
  Z.of_nat (length p) = dwb ->
  copy_payload n dwb (pre ++ p)
  = Some (pre ++ p ++ concat (replicate n p)).
Proof using Type.
  intros Hp. revert pre. induction n as [|n IH]; intros pre.
  - cbn. by rewrite app_nil_r.
  - cbn [copy_payload]. rewrite length_app.
    destruct (Z.ltb_spec (Z.of_nat (length pre + length p)) dwb); [lia|].
    replace (length pre + length p - Z.to_nat dwb)%nat with (length pre)
      by lia.
    rewrite drop_app_length.
    rewrite (IH (pre ++ p)). cbn [replicate concat].
    by rewrite <- !app_assoc.
Qed.

Lemma sample_payload_length (s : list Z) :
  Z.of_nat (length (sample_payload w dwb s)) = dwb.
Proof using Hdwb. unfold sample_payload. rewrite length_map, length_seqZ. lia. Qed.

(** The second loop: every raw sample gives its payload as many times as
    its repeat count says. *)
Lemma expand_value (N : Z) (n : nat) (i : Z) (out : list Z) :
  0 <= i -> i + Z.of_nat n <= N ->
  N * rdwb <= Z.of_nat (length raw) ->
  expand n i raw w rdwb dwb rcwb
    (map (sample_repeat w) (raw_samples raw rdwb N)) out
  = Some (out ++ run_length_expansion w dwb
                   (map (raw_sample raw rdwb) (seqZ i (Z.of_nat n)))).
Proof.
  intros Hi HN Hin. pose proof rcwb_range as [Hr _].
  revert i out Hi HN. induction n as [|n IH]; intros i out Hi HN.
  - cbn. by rewrite app_nil_r.
  - cbn [expand].
    rewrite (write_payload_value (Z.to_nat dwb) i 0 out) by nia.
    rewrite bind_Some, Z2Nat.id by lia.
    fold (sample_payload w dwb (raw_sample raw rdwb i)).
    assert (Hlook : peek (map (sample_repeat w) (raw_samples raw rdwb N)) i
                    = Some (sample_repeat w (raw_sample raw rdwb i))).
    { unfold peek, raw_samples. destruct (Z.ltb_spec i 0); [lia|].
      rewrite !list_lookup_fmap, lookup_seqZ_lt by lia.
      cbn. repeat f_equal. lia. }
    rewrite Hlook, bind_Some.
    rewrite copy_payload_value by apply sample_payload_length.
    rewrite bind_Some, IH by lia.
    rewrite (seqZ_cons i) by lia. unfold run_length_expansion.
    cbn [map concat]. rewrite <- !app_assoc.
    assert (Hrep : 1 <= sample_repeat w (raw_sample raw rdwb i)).
    { unfold sample_repeat.
      pose proof (Z.mod_pos_bound (le_value (raw_sample raw rdwb i)) (2 ^ w)
                    ltac:(lia)). lia. }
    replace (Z.to_nat (sample_repeat w (raw_sample raw rdwb i)))
      with (S (Z.to_nat (sample_repeat w (raw_sample raw rdwb i) - 1)))
      by lia.
    cbn [replicate concat]. rewrite <- !app_assoc.
    repeat f_equal; lia.
Qed.

Lemma run_length_expansion_length (samples : list (list Z)) :
  Z.of_nat (length (run_length_expansion w dwb samples))
  = sum_list (map (sample_repeat w) samples) * dwb.
Proof using Hw Hdwb.
  unfold run_length_expansion, sum_list.
  induction samples as [|s samples IH]; [reflexivity|].
  cbn [map concat foldr]. rewrite length_app, Nat2Z.inj_add, IH.
  assert (Hrep : 1 <= sample_repeat w s).
  { unfold sample_repeat.
    pose proof (Z.mod_pos_bound (le_value s) (2 ^ w) ltac:(lia)). lia. }
  assert (Hlen : forall k : nat,
            Z.of_nat (length (concat (replicate k (sample_payload w dwb s))))
            = Z.of_nat k * dwb).
  { induction k as [|k IHk]; [reflexivity|].
    cbn [replicate concat]. rewrite length_app, Nat2Z.inj_add, IHk.
    rewrite sample_payload_length. lia. }
  rewrite Hlen. lia.
Qed.

End Decode.

(** The widths of lines 310-316 for a code of 1 to 31 bits. *)
Lemma decode_widths (devc : dev_context) :
  0 < runlength_code_width devc < 32 ->
  0 < data_width devc ->
  data_width devc + runlength_code_width devc + 7 < 2 ^ 32 ->
  let w := runlength_code_width devc in
  let rdwb := raw_data_width_bytes devc in
  let rcwb := runlength_code_width_bytes devc in
  let dwb := decode_data_width_bytes devc in
  rcwb = (w + 7) / 8 /\ 0 < dwb /\ rcwb <= rdwb /\ rcwb + dwb <= rdwb + 1
  /\ (w mod 8 = 0 -> rcwb + dwb <= rdwb) /\ rdwb < 2 ^ 32
  /\ 0 <= rcwb <= 4.
Proof.
  intros Hw Hd Hfit. cbv zeta.
  unfold raw_data_width_bytes, runlength_code_width_bytes,
    decode_data_width_bytes, host_word_size, u32.
  rewrite (Z.mod_small (data_width devc + runlength_code_width devc + 8 - 1))
    by lia.
  rewrite (Z.mod_small (data_width devc + 8 - 1)) by lia.
  replace (runlength_code_width devc + 8 - 1)
    with (runlength_code_width devc + 7) by lia.
  Z.to_euclidean_division_equations. lia.
Qed.

(** The first loop of the decoder on a buffer of bytes. *)
Lemma decode_repeats_fields (devc : dev_context) (raw : list Z) :
  Forall is_byte raw ->
  0 < runlength_code_width devc < 32 ->
  0 < data_width devc ->
  data_width devc + runlength_code_width devc + 7 < 2 ^ 32 ->
  raw_sample_buf devc = Some raw ->
  Z.of_nat (length raw) = byte_budget devc ->
  0 <= limit_samples devc < 2 ^ 32 ->
  let repeats := map (sample_repeat (runlength_code_width devc))
                   (raw_samples raw (raw_data_width_bytes devc)
                      (limit_samples devc)) in
  decode_repeats devc
  = Some (repeats, sum_list repeats,
          sum_list (take (Z.to_nat (delay_value devc)) repeats))
  /\ Forall (fun r => 1 <= r <= 2 ^ runlength_code_width devc) repeats.
Proof.
  intros Hbytes Hw Hd Hfit Hraw Hlen Hn repeats.
  destruct (decode_widths devc Hw Hd Hfit)
    as (Hrcwb & Hdwb & Hcode & Hwide & Hal & Hrdwb & Hr4).
  assert (Hpow : 2 ^ runlength_code_width devc <= 2 ^ 31)
    by (apply Z.pow_le_mono_r; lia).
  unfold byte_budget in Hlen.
  destruct (count_repeats_sums raw (raw_data_width_bytes devc)
              (runlength_code_width_bytes devc) (runlength_code_width devc)
              (delay_value devc) Hw Hr4 Hcode
              (Z.to_nat (limit_samples devc)) 0 [] 0 0)
    as (rs & Hcount & Hlenrs & Hrs);
    try (rewrite ?Z2Nat.id by lia; nia).
  pose proof (count_repeats_values raw (runlength_code_width devc)
                (raw_data_width_bytes devc) (runlength_code_width_bytes devc)
                Hbytes Hw Hrcwb Hcode
                (Z.to_nat (limit_samples devc)) 0 (delay_value devc) [] 0 0 _
                ltac:(lia) ltac:(rewrite Z2Nat.id by lia; lia) Hcount)
    as Hvalues.
  cbn [fst app] in Hvalues. rewrite Z2Nat.id in Hvalues by lia.
  assert (Hrs_eq : rs = repeats).
  { subst repeats. unfold raw_samples. rewrite map_map. exact Hvalues. }
  cbn [app] in Hcount. rewrite !Z.add_0_l, Z.sub_0_r, Hrs_eq in Hcount.
  rewrite Hrs_eq in Hrs.
  split; [|exact Hrs].
  unfold decode_repeats.
  rewrite (runlength_count_mask_ones devc Hw), Hraw. exact Hcount.
Qed.

(** C2, as the code has it.  For a raw buffer of [limit_samples] samples of
    bytes and a code width of 1 to 31 bits, the first loop makes the repeat
    count of a raw sample its little-endian run-length field plus one, and
    leaves in [*total_samples] the sum of the counts and in [*delay_value]
    the sum of the first [raw_delay_value] of them, wherever the payload
    lies; and where the payload is extracted from inside the raw sample, the
    call returns TRUE with these two values and a new buffer that holds the
    payload of each raw sample as many times as its count says, one raw
    sample after the other. *)
Theorem runlength_decode_expands (can_alloc : Z -> bool)
    (devc : dev_context) (raw : list Z) :
  let w := runlength_code_width devc in
  let dwb := decode_data_width_bytes devc in
  let samples := raw_samples raw (raw_data_width_bytes devc)
                   (limit_samples devc) in
  let repeats := map (sample_repeat w) samples in
  let total_samples := sum_list repeats in
  let delay := sum_list (take (Z.to_nat (delay_value devc)) repeats) in
  Forall is_byte raw ->
  0 < w < 32 ->
  0 < data_width devc ->
  data_width devc + w + 7 < 2 ^ 32 ->
  raw_sample_buf devc = Some raw ->
  Z.of_nat (length raw) = byte_budget devc ->
  0 < limit_samples devc < 2 ^ 32 ->
  limit_samples devc * 2 ^ w * dwb < 2 ^ 64 ->
  can_alloc (total_samples * dwb) = true ->
  decode_repeats devc = Some (repeats, total_samples, delay)
  /\ (extraction_inside devc ->
      ipdbg_la_runlength_decode can_alloc devc
      = Some (true, delay, total_samples,
              set_raw_sample_buf
                (Some (run_length_expansion w dwb samples)) devc)).
Proof.
  intros w dwb samples repeats0 total_samples delay Hbytes Hw Hd Hfit Hraw
    Hlen Hn Hsize Halloc.
  subst total_samples delay repeats0.
  destruct (decode_widths devc Hw Hd Hfit)
    as (Hrcwb & Hdwb & Hcode & Hwide & Hal & Hrdwb & Hr4).
  destruct (decode_repeats_fields devc raw Hbytes Hw Hd Hfit Hraw Hlen
              ltac:(lia)) as [Hrepeats Hrange].
  fold w samples in Hrepeats, Hrange.
  set (repeats := map (sample_repeat w) samples) in *.
  split; [exact Hrepeats|]. intros Hinside.
  assert (Hreplen : Z.of_nat (length repeats) = limit_samples devc).
  { subst repeats samples. unfold raw_samples.
    rewrite !length_map, length_seqZ. lia. }
  assert (Hsum : limit_samples devc <= sum_list repeats
                 <= limit_samples devc * 2 ^ w).
  { rewrite <- Hreplen. split.
    - apply sum_list_lower. eapply Forall_impl; [exact Hrange|]. cbn. lia.
    - apply sum_list_upper. eapply Forall_impl; [exact Hrange|]. cbn. lia. }
  assert (Htotal : 0 < sum_list repeats * dwb < 2 ^ 64) by nia.
  unfold ipdbg_la_runlength_decode.
  destruct (Z.eqb_spec (runlength_code_width devc) 0) as [?|_]; [lia|].
  rewrite (runlength_count_mask_ones devc Hw), bind_Some.
  unfold g_malloc. rewrite (u64_small (limit_samples devc * 4)) by lia.
  destruct (Z.eqb_spec (limit_samples devc * 4) 0) as [?|_]; [lia|].
  rewrite Hrepeats, bind_Some. cbv beta iota.
  fold dwb. unfold g_try_malloc.
  rewrite (u64_small (sum_list repeats * dwb)) by lia.
  destruct (Z.eqb_spec (sum_list repeats * dwb) 0) as [?|_]; [lia|].
  rewrite Halloc, Hraw. cbn [default from_option id].
  unfold byte_budget in Hlen.
  pose proof (expand_value raw w (raw_data_width_bytes devc)
                (runlength_code_width_bytes devc) dwb Hbytes Hw Hrcwb
                ltac:(lia) Hcode Hwide Hinside Hal Hrdwb
                (limit_samples devc) (Z.to_nat (limit_samples devc)) 0 []
                ltac:(lia) ltac:(lia) ltac:(lia)) as Hexpand.
  rewrite Z2Nat.id in Hexpand by lia. cbn [app] in Hexpand.
  fold (raw_samples raw (raw_data_width_bytes devc) (limit_samples devc))
    in Hexpand.
  fold samples repeats in Hexpand. fold w. rewrite Hexpand, bind_Some.
  pose proof (run_length_expansion_length w dwb Hw ltac:(lia) samples)
    as Hlenout.
  fold repeats in Hlenout. rewrite length_replicate.
  destruct (Nat.ltb_spec (Z.to_nat (sum_list repeats * dwb))
              (length (run_length_expansion w dwb samples))); [lia|].
  rewrite drop_ge, app_nil_r by (rewrite length_replicate; lia).
  reflexivity.
Qed.

(** Three raw samples of three bytes behind a code of 12 bits: the payload
    lies inside the raw sample, the counts are 2, 1 and 3. *)
Lemma runlength_decode_expands_witness :
  extraction_inside devc_twelve
  /\ decode_repeats devc_twelve = Some ([2; 1; 3], 6, 3)
  /\ ipdbg_la_runlength_decode (fun _ => true) devc_twelve
     = Some (true, 3, 6,
             set_raw_sample_buf
               (Some [0x15; 0x15; 0x0A; 0x1F; 0x1F; 0x1F]) devc_twelve).
Proof.
  assert (Hinside : extraction_inside devc_twelve)
    by (right; vm_compute; discriminate).
  assert (Hbytes : Forall is_byte raw_twelve)
    by (repeat constructor; vm_compute; intuition discriminate).
  destruct (runlength_decode_expands (fun _ => true) devc_twelve raw_twelve
              Hbytes
              ltac:(vm_compute; intuition discriminate)
              ltac:(reflexivity)
              ltac:(reflexivity)
              ltac:(reflexivity)
              ltac:(reflexivity)
              ltac:(vm_compute; intuition discriminate)
              ltac:(reflexivity)
              ltac:(reflexivity))
    as [Hrepeats Hdecode].
  split; [exact Hinside|]. split; [exact Hrepeats | exact (Hdecode Hinside)].
Defined.

Example runlength_decode_twelve :
  ipdbg_la_runlength_decode (fun _ => true) devc_twelve
  = Some (true, 3, 6,
          set_raw_sample_buf
            (Some [0x15; 0x15; 0x0A; 0x1F; 0x1F; 0x1F]) devc_twelve).
Proof. vm_compute. reflexivity. Qed.

(** C2 as stated fails twice.  With a code width of 32 the count of a field
    with all bits set wraps to 0.  With four channels behind a code of 12
    bits the decoder reads past the raw sample, and past the buffer for the
    last one. *)
Lemma runlength_decode_not_as_stated :
  ~ runlength_expands (fun _ => true) devc_full_code
      [0xFF; 0xFF; 0xFF; 0xFF; 0xAB]
  /\ ~ runlength_expands (fun _ => true) devc_nibbles raw_nibbles.
Proof.
  split; intros [Hrepeats Hdecode].
  - vm_compute in Hrepeats. discriminate Hrepeats.
  - vm_compute in Hdecode. discriminate Hdecode.
Qed.

(** ** AcquisitionDecoder: reading and delivering *)

Lemma raw_data_width_bytes_nonneg (devc : dev_context) :
  0 <= raw_data_width_bytes devc.
Proof.
  unfold raw_data_width_bytes, u32, host_word_size.
  apply Z.div_pos; [|lia]. apply Z.mod_pos_bound. lia.
Qed.

Lemma set_raw_sample_buf_same (devc : dev_context) (raw : list Z) :
  raw_sample_buf devc = Some raw ->
  set_raw_sample_buf (Some raw) devc = devc.
Proof. destruct devc; cbn. by intros ->. Qed.

(** The bytes of one read that reach the buffer: those that fit below the
    budget. *)
Lemma receive_chunk_stores (devc : dev_context) (raw : list Z)
    (tcp tcp' : ipdbg_la_tcp) (recd : Z) (bytes : list Z) :
  ipdbg_la_tcp_receive (1024 * 16) tcp = Some ((recd, bytes), tcp') ->
  Z.of_nat (length raw) = byte_budget devc ->
  0 <= num_transfers devc < 2 ^ 31 ->
  byte_budget devc < 2 ^ 31 ->
  let nt := num_transfers devc in
  let copied := Z.max 0 (Z.min recd (byte_budget devc - nt)) in
  receive_chunk devc raw tcp
  = Some (set_num_transfers (nt + Z.max 0 recd)
            (set_raw_sample_buf
               (Some (take (Z.to_nat nt) raw ++ take (Z.to_nat copied) bytes
                        ++ drop (Z.to_nat (nt + copied)) raw)) devc),
          tcp').
Proof.
  intros Hrecv Hlen Hnt HB nt copied.
  destruct (tcp_receive_answers (1024 * 16) tcp)
    as (recd0 & bytes0 & tcp0 & Hrecv0 & Hshape & Hsize).
  rewrite Hrecv in Hrecv0. injection Hrecv0 as <- <- <-.
  specialize (Hsize ltac:(lia)).
  unfold receive_chunk, io_bind. rewrite Hrecv.
  fold (byte_budget devc). fold nt.
  destruct (Z.ltb_spec 0 recd) as [Hpos|Hnone].
  - (* something was read *)
    destruct Hshape as [Hrecd|[Hrecd _]]; [|lia].
    assert (Hbuf : forall k, 0 <= k <= recd ->
              take (Z.to_nat k)
                (bytes ++ replicate (Z.to_nat (1024 * 16) - length bytes) 0)
              = take (Z.to_nat k) bytes).
    { intros k Hk. apply take_app_le. lia. }
    rewrite (u64_small (nt + recd)) by lia.
    rewrite (u64_small (byte_budget devc)) by lia.
    destruct (Z.leb_spec (nt + recd) (byte_budget devc)) as [Hfit|Hover].
    + (* all of it fits *)
      destruct (Z.ltb_spec 0 recd) as [_|?]; [|lia].
      unfold memcpy_at. rewrite length_app, length_replicate.
      destruct (Z.ltb_spec nt 0); [lia|].
      destruct (Z.ltb_spec recd 0); [lia|].
      destruct (Z.ltb_spec (Z.of_nat (length raw)) (nt + recd)); [lia|].
      destruct (Z.ltb_spec
                  (Z.of_nat (length bytes
                             + (Z.to_nat (1024 * 16) - length bytes))) recd);
        [lia|].
      cbn [orb]. unfold io_ret. rewrite Hbuf by lia.
      replace copied with recd by lia.
      replace (Z.max 0 recd) with recd by lia. reflexivity.
    + (* the budget cuts it *)
      rewrite to_int_u64 by lia.
      replace (Z.max 0 recd) with recd by lia.
      destruct (Z.ltb_spec 0 (byte_budget devc - nt)) as [Hroom|Hfull].
      * unfold memcpy_at. rewrite length_app, length_replicate.
        destruct (Z.ltb_spec nt 0); [lia|].
        destruct (Z.ltb_spec (byte_budget devc - nt) 0); [lia|].
        destruct (Z.ltb_spec (Z.of_nat (length raw))
                    (nt + (byte_budget devc - nt))); [lia|].
        destruct (Z.ltb_spec
                    (Z.of_nat (length bytes
                               + (Z.to_nat (1024 * 16) - length bytes)))
                    (byte_budget devc - nt)); [lia|].
        cbn [orb]. unfold io_ret. rewrite Hbuf by lia.
        replace copied with (byte_budget devc - nt) by lia. reflexivity.
      * unfold io_ret. replace copied with 0 by lia.
        rewrite Z.add_0_r. change (Z.to_nat 0) with 0%nat.
        rewrite take_0. cbn [app].
        rewrite take_drop. reflexivity.
  - (* nothing was read *)
    unfold io_ret. replace copied with 0 by lia.
    replace (Z.max 0 recd) with 0 by lia.
    rewrite Z.add_0_r. change (Z.to_nat 0) with 0%nat.
        rewrite take_0. cbn [app]. rewrite take_drop.
    subst nt. destruct devc; reflexivity.
Qed.

Lemma byte_budget_le_total (devc : dev_context) :
  0 <= limit_samples devc <= limit_samples_max devc ->
  0 <= byte_budget devc <= transfer_total devc.
Proof.
  intros H. unfold byte_budget, transfer_total.
  pose proof (raw_data_width_bytes_nonneg devc). nia.
Qed.

(** C5, as the code has it.  While the transfer count is below
    [limit_samples_max * raw_data_width_bytes] a call reads once; of the
    bytes read, those that fit below [limit_samples *
    raw_data_width_bytes] are copied to the buffer at the transfer count,
    the others are dropped, and the count grows by all of them.  The call
    decodes and delivers exactly when the count has reached
    [limit_samples_max * raw_data_width_bytes]. *)
Theorem receive_data_reads_until_transfer_total (can_alloc : Z -> bool)
    (sdi : sr_dev_inst) (devc : dev_context) (raw : list Z) :
  priv sdi = Some devc ->
  raw_sample_buf devc = Some raw ->
  Z.of_nat (length raw) = byte_budget devc ->
  0 <= num_transfers devc ->
  0 <= limit_samples devc <= limit_samples_max devc ->
  transfer_total devc < 2 ^ 31 ->
  receive_data_branches can_alloc sdi devc raw.
Proof.
  intros Hpriv Hraw Hlen Hnt Hlimit Htotal.
  pose proof (byte_budget_le_total devc Hlimit) as Hbudget.
  unfold receive_data_branches, ipdbg_la_receive_data.
  rewrite Hpriv, Hraw. fold (transfer_total devc).
  rewrite (u64_small (transfer_total devc)) by lia.
  split; intros Hbranch.
  - destruct (tcp_receive_answers (1024 * 16) (conn sdi))
      as (recd & bytes & tcp' & Hrecv & _ & _).
    exists recd, bytes, tcp'. split; [exact Hrecv|]. split; [lia|].
    destruct (Z.ltb_spec (num_transfers devc) (transfer_total devc)); [|lia].
    rewrite (receive_chunk_stores devc raw (conn sdi) tcp' recd bytes)
      by (assumption || lia).
    reflexivity.
  - destruct (Z.ltb_spec (num_transfers devc) (transfer_total devc)); [lia|].
    rewrite (set_raw_sample_buf_same devc raw Hraw).
    destruct (decode_and_deliver can_alloc devc (session sdi))
      as [[[ok devc'] s]|]; reflexivity.
Qed.

Lemma receive_data_reads_until_transfer_total_witness :
  receive_data_branches (fun _ => true) sdi_partial devc_partial [1; 2; 3; 0].
Proof.
  apply (receive_data_reads_until_transfer_total (fun _ => true) sdi_partial
           devc_partial [1; 2; 3; 0]);
    try reflexivity; vm_compute; intuition discriminate.
Defined.

(** The read of five bytes at count 3 with a budget of 4: one byte is
    stored, the count goes to 8. *)
Example receive_data_partial :
  ipdbg_la_receive_data (fun _ => true) (Some sdi_partial)
  = Some (true,
          Some (mk_sdi
                  (Some (set_num_transfers 8
                           (set_raw_sample_buf (Some [1; 2; 3; 4])
                              devc_partial)))
                  (reliable [] []) (mk_session None [] true))).
Proof. vm_compute. reflexivity. Qed.

(** C5 as stated fails: with one sample wanted of a memory of two and the
    wanted byte stored, the budget is reached, and the call still reads and
    delivers nothing. *)
Lemma receive_data_reads_at_budget :
  ~ decodes_at_budget (fun _ => true) sdi_budget_reached devc_budget_reached.
Proof.
  unfold decodes_at_budget. intros H.
  assert (Hb : byte_budget devc_budget_reached
               <= num_transfers devc_budget_reached)
    by (vm_compute; discriminate).
  specialize (H Hb). vm_compute in H. discriminate H.
Qed.

(** * More of the code *)

(** ** The blocking receive *)

Lemma pending_cons_data (bytes : list Z) (rx : list rx_event) :
  pending (RxData bytes :: rx) = bytes ++ pending rx.
Proof. reflexivity. Qed.

(** One receive attempt takes its bytes off the front of the stream and
    leaves the other direction alone. *)
Lemma tcp_receive_stream (bufsize : Z) (tcp : ipdbg_la_tcp) :
  exists recd bytes tcp',
    ipdbg_la_tcp_receive bufsize tcp = Some ((recd, bytes), tcp')
    /\ (recd = Z.of_nat (length bytes) \/ (recd = -1 /\ bytes = []))
    /\ Z.of_nat (length bytes) <= Z.max 0 bufsize
    /\ pending (sock_rx tcp) = bytes ++ pending (sock_rx tcp')
    /\ (empty_polls (sock_rx tcp') <= empty_polls (sock_rx tcp))%nat
    /\ sock_tx tcp' = sock_tx tcp
    /\ sock_wire tcp' = sock_wire tcp.
Proof.
  unfold ipdbg_la_tcp_receive.
  destruct (sock_rx tcp) as [|[| |bytes] rx] eqn:Hrx.
  - eexists _, _, _. split; [reflexivity|]. rewrite Hrx. cbn.
    repeat split; auto; lia.
  - eexists _, _, _. split; [reflexivity|]. cbn.
    repeat split; auto; lia.
  - eexists _, _, _. split; [reflexivity|]. cbn.
    repeat split; auto; lia.
  - eexists _, _, _. split; [reflexivity|]. cbn [sock_rx sock_tx sock_wire].
    split; [auto|]. split; [rewrite length_take; lia|].
    split; [|split; [|auto]].
    + rewrite pending_cons_data.
      destruct (drop (Z.to_nat bufsize) bytes) as [|b rest] eqn:Hdrop.
      * rewrite <- (take_drop (Z.to_nat bufsize) bytes) at 1.
        rewrite Hdrop, app_nil_r. reflexivity.
      * rewrite pending_cons_data, <- Hdrop, app_assoc, take_drop.
        reflexivity.
    + destruct (drop (Z.to_nat bufsize) bytes) as [|b rest];
        destruct bytes; cbn; lia.
Qed.

(** The loop of [tcp_receive_blocking]: what it adds to the buffer comes
    off the front of the stream, and it never takes more than asked. *)
Lemma tcp_receive_blocking_loop_stream (fuel : nat)
    (bufsize received error_count : Z) (buf : list Z) (tcp : ipdbg_la_tcp) :
  received <= Z.max 0 bufsize ->
  exists more tcp',
    tcp_receive_blocking_loop fuel bufsize received error_count buf tcp
    = Some ((received + Z.of_nat (length more), buf ++ more), tcp')
    /\ received + Z.of_nat (length more) <= Z.max 0 bufsize
    /\ pending (sock_rx tcp) = more ++ pending (sock_rx tcp')
    /\ (empty_polls (sock_rx tcp') <= empty_polls (sock_rx tcp))%nat
    /\ sock_tx tcp' = sock_tx tcp
    /\ sock_wire tcp' = sock_wire tcp.
Proof.
  revert received error_count buf tcp.
  induction fuel as [|fuel IH]; intros received error_count buf tcp Hrecv.
  - exists [], tcp. cbn. rewrite Z.add_0_r, app_nil_r.
    repeat split; auto; lia.
  - cbn [tcp_receive_blocking_loop].
    destruct ((received <? bufsize) && (error_count <? 2000)) eqn:Hcond.
    2: { exists [], tcp. cbn. rewrite Z.add_0_r, app_nil_r.
         repeat split; auto; lia. }
    apply andb_true_iff in Hcond as [Hlt _]. apply Z.ltb_lt in Hlt.
    unfold io_bind.
    destruct (tcp_receive_stream (bufsize - received) tcp)
      as (recd & bytes & tcp1 & -> & Hshape & Hsize & Hpend & Hpolls
          & Htx & Hwire).
    destruct (Z.ltb_spec 0 recd) as [Hpos|Hnone].
    + destruct Hshape as [->|[-> _]]; [|lia].
      destruct (IH (received + Z.of_nat (length bytes)) error_count
                  (buf ++ bytes) tcp1 ltac:(lia))
        as (more & tcp' & -> & Hle & Hpend' & Hpolls' & Htx' & Hwire').
      exists (bytes ++ more), tcp'.
      rewrite length_app, Nat2Z.inj_add, Z.add_assoc, (app_assoc buf).
      split; [reflexivity|].
      split; [lia|]. split; [by rewrite Hpend, Hpend', app_assoc|].
      split; [lia|]. split; congruence.
    + assert (Hbytes : bytes = []).
      { destruct Hshape as [->|[_ ->]]; [|reflexivity].
        destruct bytes; [reflexivity | cbn in Hnone; lia]. }
      subst bytes.
      destruct (IH received (error_count + 1) buf tcp1 Hrecv)
        as (more & tcp' & -> & Hle & Hpend' & Hpolls' & Htx' & Hwire').
      exists more, tcp'. split; [reflexivity|].
      split; [lia|]. split; [by rewrite Hpend, Hpend'|].
      split; [lia|]. split; congruence.
Qed.

(** X1.  [tcp_receive_blocking] always returns; the bytes it returns are
    the front of what the socket held, the rest stays on the socket in
    order, the count returned is the number of bytes and at most [bufsize],
    and the sending side is not touched. *)
Theorem tcp_receive_blocking_keeps_stream (bufsize : Z)
    (tcp : ipdbg_la_tcp) :
  exists buf tcp',
    tcp_receive_blocking bufsize tcp
    = Some ((Z.of_nat (length buf), buf), tcp')
    /\ Z.of_nat (length buf) <= Z.max 0 bufsize
    /\ pending (sock_rx tcp) = buf ++ pending (sock_rx tcp')
    /\ sock_tx tcp' = sock_tx tcp
    /\ sock_wire tcp' = sock_wire tcp.
Proof.
  unfold tcp_receive_blocking.
  destruct (tcp_receive_blocking_loop_stream (Z.to_nat bufsize + 2000)
              bufsize 0 0 [] tcp ltac:(lia))
    as (more & tcp' & Heq & Hle & Hpend & _ & Htx & Hwire).
  exists more, tcp'. rewrite Heq. cbn [app]. rewrite Z.add_0_l in *.
  auto.
Qed.

(** One receive attempt on a socket that still holds bytes: an empty poll
    is used up, or bytes come. *)
Lemma tcp_receive_progress (k : Z) (tcp : ipdbg_la_tcp) :
  0 < k -> pending (sock_rx tcp) <> [] ->
  exists recd bytes tcp1,
    ipdbg_la_tcp_receive k tcp = Some ((recd, bytes), tcp1)
    /\ sock_tx tcp1 = sock_tx tcp /\ sock_wire tcp1 = sock_wire tcp
    /\ pending (sock_rx tcp) = bytes ++ pending (sock_rx tcp1)
    /\ ((recd <= 0 /\ bytes = []
         /\ S (empty_polls (sock_rx tcp1)) = empty_polls (sock_rx tcp))
        \/ (0 < recd /\ recd = Z.of_nat (length bytes) /\ recd <= k
            /\ (empty_polls (sock_rx tcp1) <= empty_polls (sock_rx tcp))%nat)).
Proof.
  intros Hk Hpend. unfold ipdbg_la_tcp_receive.
  destruct (sock_rx tcp) as [|[| |bytes] rx] eqn:Hrx.
  - contradiction.
  - eexists _, _, _. split; [reflexivity|]. cbn.
    repeat split; auto. left. repeat split; auto; lia.
  - eexists _, _, _. split; [reflexivity|]. cbn.
    repeat split; auto. left. repeat split; auto; lia.
  - eexists _, _, _. split; [reflexivity|]. cbn [sock_rx sock_tx sock_wire].
    split; [reflexivity|]. split; [reflexivity|]. split.
    + rewrite pending_cons_data.
      destruct (drop (Z.to_nat k) bytes) as [|b rest] eqn:Hdrop.
      * rewrite <- (take_drop (Z.to_nat k) bytes) at 1.
        rewrite Hdrop, app_nil_r. reflexivity.
      * rewrite pending_cons_data, <- Hdrop, app_assoc, take_drop.
        reflexivity.
    + destruct bytes as [|b bytes].
      * left. rewrite take_nil, drop_nil. cbn. repeat split; auto; lia.
      * right. rewrite length_take. cbn [length].
        split; [lia|]. split; [reflexivity|]. split; [lia|].
        destruct (drop (Z.to_nat k) (b :: bytes)); cbn; lia.
Qed.

(** The loop of [tcp_receive_blocking] when the bytes are there and fewer
    than 2000 polls are empty: it fills the buffer. *)
Lemma tcp_receive_blocking_loop_full (fuel : nat)
    (bufsize received error_count : Z) (buf : list Z) (tcp : ipdbg_la_tcp) :
  0 <= received <= bufsize ->
  0 <= error_count ->
  error_count + Z.of_nat (empty_polls (sock_rx tcp)) < 2000 ->
  bufsize - received <= Z.of_nat (length (pending (sock_rx tcp))) ->
  (bufsize - received) + (2000 - error_count) <= Z.of_nat fuel ->
  exists tcp',
    tcp_receive_blocking_loop fuel bufsize received error_count buf tcp
    = Some ((bufsize,
             buf ++ take (Z.to_nat (bufsize - received))
                      (pending (sock_rx tcp))), tcp')
    /\ pending (sock_rx tcp')
       = drop (Z.to_nat (bufsize - received)) (pending (sock_rx tcp))
    /\ (empty_polls (sock_rx tcp') <= empty_polls (sock_rx tcp))%nat
    /\ sock_tx tcp' = sock_tx tcp
    /\ sock_wire tcp' = sock_wire tcp.
Proof.
  revert received error_count buf tcp.
  induction fuel as [|fuel IH];
    intros received error_count buf tcp Hrecv Herr Hpolls Havail Hfuel.
  - lia.
  - cbn [tcp_receive_blocking_loop].
    destruct (Z.ltb_spec received bufsize) as [Hlt|Hge].
    2: { assert (received = bufsize) as -> by lia.
         rewrite Z.sub_diag. change (Z.to_nat 0) with 0%nat.
         rewrite take_0, drop_0, app_nil_r. cbn [andb].
         exists tcp. auto. }
    destruct (Z.ltb_spec error_count 2000); [|lia]. cbn [andb].
    assert (Hne : pending (sock_rx tcp) <> []).
    { intros Heq. rewrite Heq in Havail. cbn in Havail. lia. }
    unfold io_bind.
    destruct (tcp_receive_progress (bufsize - received) tcp ltac:(lia) Hne)
      as (recd & bytes & tcp1 & -> & Htx & Hwire & Hpend & Hcase).
    destruct Hcase as [(Hrecd & -> & Hdec)|(Hrecd & Hlen & Hk & Hdec)].
    + destruct (Z.ltb_spec 0 recd); [lia|].
      cbn [app] in Hpend.
      destruct (IH received (error_count + 1) buf tcp1)
        as (tcp' & -> & Hpend' & Hpolls' & Htx' & Hwire'); try lia.
      { rewrite <- Hpend. lia. }
      exists tcp'. rewrite <- Hpend. split; [reflexivity|].
      split; [by rewrite Hpend', <- Hpend|].
      split; [lia|]. split; congruence.
    + destruct (Z.ltb_spec 0 recd); [|lia].
      assert (Hlenp : length (pending (sock_rx tcp))
                      = (length bytes + length (pending (sock_rx tcp1)))%nat)
        by (rewrite Hpend, length_app; reflexivity).
      destruct (IH (received + recd) error_count (buf ++ bytes) tcp1)
        as (tcp' & -> & Hpend' & Hpolls' & Htx' & Hwire'); try lia.
      exists tcp'. split; [|split; [|split; [lia|split; congruence]]].
      * f_equal. f_equal. f_equal. rewrite <- app_assoc. f_equal.
        rewrite Hpend.
        replace (Z.to_nat (bufsize - received))
          with (length bytes + Z.to_nat (bufsize - (received + recd)))%nat
          by lia.
        rewrite take_app_add. reflexivity.
      * rewrite Hpend', Hpend.
        replace (Z.to_nat (bufsize - received))
          with (length bytes + Z.to_nat (bufsize - (received + recd)))%nat
          by lia.
        rewrite drop_app_add. reflexivity.
Qed.

(** The whole call, for a socket on which nothing fails. *)
Lemma tcp_receive_blocking_full (bufsize : Z) (rx : list rx_event)
    (wire : list Z) :
  0 <= bufsize <= Z.of_nat (length (pending rx)) ->
  (empty_polls rx < 2000)%nat ->
  exists rx',
    tcp_receive_blocking bufsize (reliable rx wire)
    = Some ((bufsize, take (Z.to_nat bufsize) (pending rx)),
            reliable rx' wire)
    /\ pending rx' = drop (Z.to_nat bufsize) (pending rx)
    /\ (empty_polls rx' <= empty_polls rx)%nat.
Proof.
  intros Hsize Hpolls. unfold tcp_receive_blocking.
  destruct (tcp_receive_blocking_loop_full (Z.to_nat bufsize + 2000) bufsize
              0 0 [] (reliable rx wire))
    as (tcp' & Heq & Hpend & Hpolls' & Htx & Hwire);
    try (unfold reliable; cbn [sock_rx]; lia).
  unfold reliable in *. cbn [sock_rx sock_tx sock_wire] in *.
  rewrite Z.sub_0_r in *. cbn [app] in Heq.
  destruct tcp' as [rx' tx' wire']. cbn [sock_rx sock_tx sock_wire] in *.
  subst. exists rx'. auto.
Qed.

(** X2.  When the socket holds [bufsize] bytes or more and fewer than 2000
    of the polls before them are empty, [tcp_receive_blocking] returns
    exactly the first [bufsize] bytes, however they are cut into reads, and
    leaves the rest. *)
Theorem tcp_receive_blocking_fills (bufsize : Z) (tcp : ipdbg_la_tcp) :
  0 <= bufsize <= Z.of_nat (length (pending (sock_rx tcp))) ->
  (empty_polls (sock_rx tcp) < 2000)%nat ->
  exists tcp',
    tcp_receive_blocking bufsize tcp
    = Some ((bufsize, take (Z.to_nat bufsize) (pending (sock_rx tcp))), tcp')
    /\ pending (sock_rx tcp')
       = drop (Z.to_nat bufsize) (pending (sock_rx tcp)).
Proof.
  intros Hsize Hpolls. unfold tcp_receive_blocking.
  destruct (tcp_receive_blocking_loop_full (Z.to_nat bufsize + 2000) bufsize
              0 0 [] tcp)
    as (tcp' & Heq & Hpend & _); try lia.
  rewrite Z.sub_0_r in *. cbn [app] in Heq. exists tcp'. auto.
Qed.

Lemma tcp_receive_blocking_fills_witness :
  exists tcp',
    tcp_receive_blocking 4
      (reliable [RxIdle; RxData [1; 2]; RxError; RxData []; RxData [3; 4; 5]]
         [])
    = Some ((4, [1; 2; 3; 4]), tcp')
    /\ pending (sock_rx tcp') = [5].
Proof.
  apply (tcp_receive_blocking_fills 4
           (reliable [RxIdle; RxData [1; 2]; RxError; RxData [];
                      RxData [3; 4; 5]] [])).
  - cbn. lia.
  - cbn. lia.
Defined.

(** X3.  When fewer than four bytes are to come, [ipdbg_la_request_id]
    gives up with [SR_ERR] and stores no version. *)
Theorem request_id_short_response (tcp : ipdbg_la_tcp) :
  (length (pending (sock_rx tcp)) < 4)%nat ->
  exists tcp', ipdbg_la_request_id tcp = Some ((SR_ERR, None), tcp').
Proof.
  intros Hshort. unfold ipdbg_la_request_id, io_bind.
  destruct (tcp_send [CMD_GET_LA_ID] tcp) as [[st tcp1]|] eqn:Hsend;
    [|discriminate Hsend].
  assert (Hrx : sock_rx tcp1 = sock_rx tcp).
  { unfold tcp_send in Hsend. injection Hsend as _ <-. reflexivity. }
  unfold tcp_receive_blocking.
  destruct (tcp_receive_blocking_loop_stream (Z.to_nat 4 + 2000) 4 0 0 []
              tcp1 ltac:(lia))
    as (more & tcp' & -> & _ & Hpend & _).
  rewrite Hrx in Hpend.
  assert (Hlen : (length more < 4)%nat).
  { rewrite Hpend, length_app in Hshort. lia. }
  rewrite Z.add_0_l.
  destruct (Z.eqb_spec (Z.of_nat (length more)) 4) as [?|_]; [lia|].
  cbn [negb]. eexists. reflexivity.
Qed.

Lemma request_id_short_response_witness :
  exists tcp',
    ipdbg_la_request_id (reliable [RxData [73; 68]; RxIdle; RxData [66]] [])
    = Some ((SR_ERR, None), tcp').
Proof.
  apply (request_id_short_response
           (reliable [RxData [73; 68]; RxIdle; RxData [66]] [])).
  cbn. lia.
Defined.

(** ** The escaped stream *)

(** X4.  [send_escaping] reports [SR_OK] on every socket, whatever [send()]
    answers, and reads nothing from the socket; it has no defined result
    exactly when [length] is more than the array holds. *)
Theorem send_escaping_never_fails (data : list Z) (n : nat)
    (tcp : ipdbg_la_tcp) :
  match send_escaping data n tcp with
  | Some (st, tcp') =>
      st = SR_OK /\ (n <= length data)%nat /\ sock_rx tcp' = sock_rx tcp
  | None => (length data < n)%nat
  end.
Proof.
  revert data tcp. induction n as [|n IH]; intros data tcp.
  - cbn. repeat split; lia.
  - destruct data as [|payload data]; [cbn; lia|].
    cbn [send_escaping]. unfold io_bind.
    assert (Hsend : forall buf t, exists st t',
              tcp_send buf t = Some (st, t') /\ sock_rx t' = sock_rx t)
      by (intros; unfold tcp_send; eauto).
    assert (Hopt : forall (c : bool) t, exists st t',
              (if c then tcp_send [CMD_ESCAPE] else io_ret SR_OK) t
              = Some (st, t') /\ sock_rx t' = sock_rx t).
    { intros [] t; [apply Hsend | unfold io_ret; eauto]. }
    destruct (Hopt (payload =? CMD_RESET) tcp) as (st1 & t1 & -> & Hrx1).
    destruct (Hopt (payload =? CMD_ESCAPE) t1) as (st2 & t2 & -> & Hrx2).
    destruct (Hsend [payload] t2) as (st3 & t3 & -> & Hrx3).
    specialize (IH data t3).
    destruct (send_escaping data n t3) as [[st tcp']|]; cbn [length].
    + destruct IH as (-> & Hn & Hrx). repeat split; [lia | congruence].
    + lia.
Qed.

Lemma send_escaping_wire (data : list Z) (rx : list rx_event)
    (wire : list Z) :
  send_escaping data (length data) (reliable rx wire)
  = Some (SR_OK, reliable rx (wire ++ escape data)).
Proof.
  revert wire; induction data as [|payload data IH]; intros wire.
  - unfold escape. cbn. by rewrite app_nil_r.
  - cbn [length]. rewrite send_escaping_step, IH, escape_cons, app_assoc.
    reflexivity.
Qed.

Lemma unescape_escape (data : list Z) : unescape (escape data) = data.
Proof.
  induction data as [|b data IH]; [reflexivity|].
  rewrite escape_cons. unfold escape_byte.
  destruct (Z.eqb_spec b 0xEE) as [->|Hreset]; cbn [orb].
  - cbn. by rewrite IH.
  - destruct (Z.eqb_spec b 0x55) as [->|Hesc].
    + cbn. by rewrite IH.
    + cbn [app unescape].
      destruct (Z.eqb_spec b 85) as [?|_]; [contradiction|]. by rewrite IH.
Qed.

Lemma escape_length (data : list Z) :
  length (escape data) = (length data + count_reserved data)%nat.
Proof.
  induction data as [|b data IH]; [reflexivity|].
  rewrite escape_cons, length_app, IH. unfold escape_byte.
  cbn [count_reserved length]. unfold reserved.
  destruct ((b =? 0xEE) || (b =? 0x55)); cbn [length]; lia.
Qed.

(** X5.  What [send_escaping] puts on the wire can be read back: taking the
    byte after each ESCAPE as payload gives the data again, so two
    different payloads never give the same stream. *)
Theorem send_escaping_decodable (data : list Z) (rx : list rx_event)
    (wire : list Z) :
  exists sent,
    send_escaping data (length data) (reliable rx wire)
    = Some (SR_OK, reliable rx (wire ++ sent))
    /\ unescape sent = data.
Proof.
  exists (escape data). split; [apply send_escaping_wire|].
  apply unescape_escape.
Qed.

(** X6.  [send_escaping] sends one byte for each byte of the data and one
    more for each 0xEE and each 0x55 among them. *)
Theorem send_escaping_length (data : list Z) (rx : list rx_event)
    (wire : list Z) :
  exists sent,
    send_escaping data (length data) (reliable rx wire)
    = Some (SR_OK, reliable rx (wire ++ sent))
    /\ length sent = (length data + count_reserved data)%nat.
Proof.
  exists (escape data). split; [apply send_escaping_wire|].
  apply escape_length.
Qed.

(** ** The delay on the wire *)

Lemma delay_bytes_value (dv : Z) (k : nat) :
  (k <= 4)%nat ->
  le_value (take k [ Z.land dv 0x000000ff;
                     Z.land (Z.shiftr dv 8) 0x000000ff;
                     Z.land (Z.shiftr dv 16) 0x000000ff;
                     Z.land (Z.shiftr dv 24) 0x000000ff ])
  = dv mod 2 ^ (8 * Z.of_nat k).
Proof.
  intros Hk. rewrite !land_255, !Z.shiftr_div_pow2 by lia.
  do 5 (destruct k as [|k]; [cbn; Z.div_mod_to_equations; lia|]). lia.
Qed.

Lemma delay_bytes_are_bytes (dv : Z) :
  Forall is_byte [ Z.land dv 0x000000ff;
                   Z.land (Z.shiftr dv 8) 0x000000ff;
                   Z.land (Z.shiftr dv 16) 0x000000ff;
                   Z.land (Z.shiftr dv 24) 0x000000ff ].
Proof.
  rewrite !land_255. repeat constructor; apply Z.mod_pos_bound; lia.
Qed.

Lemma send_delay_reliable (devc : dev_context) (dv : Z) (rx : list rx_event)
    (wire : list Z) :
  0 <= addr_width_bytes devc <= 4 ->
  delay_of (limit_samples devc) (capture_ratio devc) = Some dv ->
  exists bytes,
    ipdbg_la_send_delay devc (reliable rx wire)
    = Some ((SR_OK, set_delay_value dv devc),
            reliable rx (wire ++ [0x0F; 0x1F] ++ escape bytes))
    /\ Z.of_nat (length bytes) = addr_width_bytes devc
    /\ Forall is_byte bytes
    /\ le_value (rev bytes) = dv mod 2 ^ (8 * addr_width_bytes devc).
Proof.
  intros Hawb Hdv. unfold ipdbg_la_send_delay. rewrite Hdv.
  set (delay_buf := [ Z.land _ _; _; _; _ ]).
  exists (rev (take (Z.to_nat (addr_width_bytes devc)) delay_buf)).
  split; [|split; [|split]].
  - unfold io_bind. rewrite !tcp_send_reliable.
    change (addr_width_bytes (set_delay_value dv devc))
      with (addr_width_bytes devc).
    rewrite (send_reversed delay_buf (addr_width_bytes devc))
      by (subst delay_buf; cbn [length]; lia).
    unfold io_ret. rewrite <- !app_assoc. reflexivity.
  - rewrite length_rev, length_take. subst delay_buf. cbn [length]. lia.
  - apply Forall_rev, Forall_take, delay_bytes_are_bytes.
  - rewrite rev_involutive. subst delay_buf.
    change (delay_value (set_delay_value dv devc)) with dv.
    rewrite delay_bytes_value by lia. f_equal. f_equal. lia.
Qed.



(** X8.  For an address of more than four bytes [ipdbg_la_send_delay] has no
    defined result on any socket: its first access to [delay_buf] is
    outside the four bytes of the array. *)
Theorem send_delay_reads_outside (devc : dev_context) (tcp : ipdbg_la_tcp) :
  4 < addr_width_bytes devc ->
  ipdbg_la_send_delay devc tcp = None.
Proof.
  intros Hawb. unfold ipdbg_la_send_delay.
  destruct (delay_of _ _) as [dv|]; [|reflexivity].
  change (addr_width_bytes (set_delay_value dv devc))
    with (addr_width_bytes devc).
  destruct (Z.to_nat (addr_width_bytes devc)) as [|k] eqn:Hk; [lia|].
  unfold io_bind, tcp_send. cbn [io_for]. unfold io_bind.
  rewrite Z.sub_0_r. unfold ptr_add. cbn [length].
  destruct (Z.ltb_spec (addr_width_bytes devc - 1) 0); [lia|]. cbn [orb].
  destruct (Z.ltb_spec (Z.of_nat 4) (addr_width_bytes devc - 1));
    [reflexivity|].
  assert (Hfour : addr_width_bytes devc - 1 = 4) by lia.
  rewrite Hfour. reflexivity.
Qed.

Lemma send_delay_reads_outside_witness :
  ipdbg_la_send_delay
    (mk_devc 8 1 40 5 1024 1024 50 [0] [0] [0] [0] [0] 0 0 0 None 0 0 0 0)
    (reliable [] []) = None.
Proof.
  apply send_delay_reads_outside. cbn. lia.
Defined.

(** ** The bus widths *)

Lemma shl_int_byte (beyond : Z -> Z -> Z) (b n : Z) :
  is_byte b -> 0 <= n <= 23 -> shl_int beyond b n = b * 2 ^ n.
Proof.
  intros Hb Hn. unfold shl_int.
  destruct (Z.leb_spec 0 n); [|lia]. destruct (Z.ltb_spec n 32); [|lia].
  cbn [andb]. unfold to_int, is_byte in *.
  assert (Hpow : 0 < 2 ^ n <= 2 ^ 23)
    by (split; [lia | apply Z.pow_le_mono_r; lia]).
  rewrite Z.mod_small by nia. lia.
Qed.

Lemma shl_int_byte_24 (beyond : Z -> Z -> Z) (b : Z) :
  is_byte b -> u32 (shl_int beyond b 24) = b * 2 ^ 24.
Proof.
  intros Hb. unfold shl_int, to_int, u32, is_byte in *. cbn [Z.leb Z.ltb andb].
  change (0 <=? 24) with true. change (24 <? 32) with true. cbn [andb].
  Z.div_mod_to_equations. lia.
Qed.

Lemma land_byte_mask (b n : Z) :
  is_byte b -> 0 <= n ->
  Z.land (b * 2 ^ n) (255 * 2 ^ n) = b * 2 ^ n.
Proof.
  intros Hb Hn. rewrite <- !Z.shiftl_mul_pow2, <- Z.shiftl_land by lia.
  f_equal. rewrite land_255. apply Z.mod_small. exact Hb.
Qed.

Lemma le32_field_value (beyond : Z -> Z -> Z) (b0 b1 b2 b3 : Z) :
  is_byte b0 -> is_byte b1 -> is_byte b2 -> is_byte b3 ->
  le32_field beyond b0 b1 b2 b3 = le_value [b0; b1; b2; b3].
Proof.
  intros H0 H1 H2 H3. unfold le32_field.
  rewrite !shl_int_byte, shl_int_byte_24 by (auto; lia).
  rewrite land_255, (Z.mod_small b0) by exact H0.
  change 0x0000FF00 with (255 * 2 ^ 8).
  change 0x00FF0000 with (255 * 2 ^ 16).
  change 0xFF000000 with (255 * 2 ^ 24).
  rewrite !land_byte_mask by (auto; lia).
  unfold u32. rewrite !Z.mod_small by (unfold is_byte in *; lia).
  rewrite !le_value_cons. change (le_value []) with 0.
  rewrite Z.add_0_r.
  rewrite (byte_lor b2 b3 H2), (byte_lor b1 _ H1), (byte_lor b0 _ H0).
  rewrite !Z.shiftl_lor, !Z.shiftl_shiftl by lia.
  rewrite !Z.shiftl_mul_pow2 by lia.
  rewrite !Z.lor_assoc. reflexivity.
Qed.

Lemma le32_field_range (beyond : Z -> Z -> Z) (b0 b1 b2 b3 : Z) :
  is_byte b0 -> is_byte b1 -> is_byte b2 -> is_byte b3 ->
  0 <= le32_field beyond b0 b1 b2 b3 < 2 ^ 32.
Proof.
  intros H0 H1 H2 H3. rewrite le32_field_value by assumption.
  apply (le_value_range [b0; b1; b2; b3]). repeat apply Forall_cons_2; auto.
Qed.

(** X9.  When the eight bytes of the answer arrive,
    [ipdbg_la_get_addrwidth_and_datawidth] sends 0xAA, takes exactly these
    eight bytes, and reads the data width and the address width as two
    little-endian 32-bit numbers, whatever they are.  A byte width is the
    width divided by 8, rounded up, for a width of at most 2^32 - 8: above
    that the addition of 7 wraps in 32 bits.  For an address width of at
    most 30 both sample limits are 2 to the power of the address width. *)
Theorem get_widths_decodes (beyond : Z -> Z -> Z) (before : list Z)
    (devc : dev_context) (rx : list rx_event) (wire : list Z)
    (b0 b1 b2 b3 b4 b5 b6 b7 : Z) (rest : list Z) :
  length before = 8%nat ->
  pending rx = [b0; b1; b2; b3; b4; b5; b6; b7] ++ rest ->
  (empty_polls rx < 2000)%nat ->
  Forall is_byte [b0; b1; b2; b3; b4; b5; b6; b7] ->
  exists devc' rx',
    ipdbg_la_get_addrwidth_and_datawidth beyond before devc (reliable rx wire)
    = Some (devc', reliable rx' (wire ++ [0xAA]))
    /\ pending rx' = rest
    /\ data_width devc' = le_value [b0; b1; b2; b3]
    /\ addr_width devc' = le_value [b4; b5; b6; b7]
    /\ (data_width devc' <= 2 ^ 32 - 8 ->
        data_width_bytes devc' = (data_width devc' + 7) / 8)
    /\ (addr_width devc' <= 2 ^ 32 - 8 ->
        addr_width_bytes devc' = (addr_width devc' + 7) / 8)
    /\ (addr_width devc' <= 30 ->
        limit_samples_max devc' = 2 ^ addr_width devc'
        /\ limit_samples devc' = 2 ^ addr_width devc').
Proof.
  intros Hbefore Hpend Hpolls Hbytes.
  unfold ipdbg_la_get_addrwidth_and_datawidth, io_bind.
  rewrite tcp_send_reliable.
  destruct (tcp_receive_blocking_full 8 rx (wire ++ [CMD_GET_BUS_WIDTHS]))
    as (rx' & -> & Hrest & _);
    [rewrite Hpend, length_app; cbn [length]; lia | exact Hpolls |].
  rewrite Hpend in *. change (Z.to_nat 8) with 8%nat in *.
  cbn [app firstn skipn] in *. unfold stack_buffer.
  rewrite (drop_ge before) by (cbn [length]; lia). cbn [app].
  apply Forall_cons_1 in Hbytes as [H0 Hbytes].
  apply Forall_cons_1 in Hbytes as [H1 Hbytes].
  apply Forall_cons_1 in Hbytes as [H2 Hbytes].
  apply Forall_cons_1 in Hbytes as [H3 Hbytes].
  apply Forall_cons_1 in Hbytes as [H4 Hbytes].
  apply Forall_cons_1 in Hbytes as [H5 Hbytes].
  apply Forall_cons_1 in Hbytes as [H6 Hbytes].
  apply Forall_cons_1 in Hbytes as [H7 _].
  rewrite !le32_field_value by assumption.
  pose proof (le_value_range [b0; b1; b2; b3]
                ltac:(repeat apply Forall_cons_2; auto)) as Hr1.
  pose proof (le_value_range [b4; b5; b6; b7]
                ltac:(repeat apply Forall_cons_2; auto)) as Hr2.
  cbn [length] in Hr1, Hr2.
  set (dw := le_value [b0; b1; b2; b3]) in *.
  set (aw := le_value [b4; b5; b6; b7]) in *.
  unfold io_ret. eexists _, rx'. split; [reflexivity|].
  cbn [data_width addr_width data_width_bytes addr_width_bytes
       limit_samples limit_samples_max].
  unfold host_word_size, u32.
  split; [exact Hrest|]. split; [reflexivity|]. split; [reflexivity|].
  split; [|split].
  - intros Hdw. rewrite Z.mod_small by lia. f_equal. lia.
  - intros Haw. rewrite Z.mod_small by lia. f_equal. lia.
  - intros Haw.
    assert (Hmax : u64 (shl_int beyond 1 aw) = 2 ^ aw).
    { unfold shl_int. destruct (Z.leb_spec 0 aw); [|lia].
      destruct (Z.ltb_spec aw 32); [|lia]. cbn [andb].
      assert (0 < 2 ^ aw <= 2 ^ 30)
        by (split; [lia | apply Z.pow_le_mono_r; lia]).
      rewrite Z.mul_1_l. unfold to_int. rewrite (Z.mod_small (_ + _)) by lia.
      rewrite u64_small by lia. lia. }
    rewrite Hmax. split; reflexivity.
Qed.

(** A data width of 12 and an address width of 10, in two reads: two bytes
    for each width, 1024 samples. *)
Lemma get_widths_decodes_witness :
  exists devc' rx',
    ipdbg_la_get_addrwidth_and_datawidth beyond_x86 (replicate 8 0)
      ipdbg_la_dev_new
      (reliable [RxData [12; 0; 0; 0; 10]; RxIdle; RxData [0; 0; 0; 99]] [])
    = Some (devc', reliable rx' ([] ++ [0xAA]))
    /\ pending rx' = [99]
    /\ data_width devc' = 12
    /\ addr_width devc' = 10
    /\ data_width_bytes devc' = 2
    /\ addr_width_bytes devc' = 2
    /\ limit_samples_max devc' = 1024
    /\ limit_samples devc' = 1024.
Proof.
  destruct (get_widths_decodes beyond_x86 (replicate 8 0) ipdbg_la_dev_new
              [RxData [12; 0; 0; 0; 10]; RxIdle; RxData [0; 0; 0; 99]] []
              12 0 0 0 10 0 0 0 [99])
    as (devc' & rx' & Heq & Hrest & Hdw & Haw & Hdwb & Hawb & Hlimit).
  - reflexivity.
  - reflexivity.
  - cbn. lia.
  - repeat apply Forall_cons_2; auto; unfold is_byte; lia.
  - change (le_value [12; 0; 0; 0]) with 12 in Hdw.
    change (le_value [10; 0; 0; 0]) with 10 in Haw.
    rewrite Hdw in Hdwb. rewrite Haw in Hawb, Hlimit.
    destruct (Hlimit ltac:(lia)) as [Hmax Hlim].
    exists devc', rx'. split; [exact Heq|]. split; [exact Hrest|].
    split; [exact Hdw|]. split; [exact Haw|].
    split; [exact (Hdwb ltac:(lia))|]. split; [exact (Hawb ltac:(lia))|].
    split; [exact Hmax | exact Hlim].
Defined.

Lemma get_widths_runs (beyond : Z -> Z -> Z) (before : list Z)
    (devc : dev_context) (tcp : ipdbg_la_tcp) :
  length before = 8%nat ->
  exists received tcp' b0 b1 b2 b3 b4 b5 b6 b7 devc',
    pending (sock_rx tcp) = received ++ pending (sock_rx tcp')
    /\ stack_buffer before received = [b0; b1; b2; b3; b4; b5; b6; b7]
    /\ ipdbg_la_get_addrwidth_and_datawidth beyond before devc tcp
       = Some (devc', tcp')
    /\ data_width devc' = le32_field beyond b0 b1 b2 b3
    /\ addr_width devc' = le32_field beyond b4 b5 b6 b7
    /\ 0 <= data_width_bytes devc'
    /\ limit_samples devc' = limit_samples_max devc'
    /\ forall v, vector_of v devc'
                 = replicate (Z.to_nat (data_width_bytes devc')) 0.
Proof.
  intros Hbefore.
  unfold ipdbg_la_get_addrwidth_and_datawidth, io_bind.
  destruct (tcp_send [CMD_GET_BUS_WIDTHS] tcp) as [[st tcp1]|] eqn:Hsend;
    [|discriminate Hsend].
  assert (Hrx : sock_rx tcp1 = sock_rx tcp).
  { unfold tcp_send in Hsend. injection Hsend as _ <-. reflexivity. }
  unfold tcp_receive_blocking.
  destruct (tcp_receive_blocking_loop_stream (Z.to_nat 8 + 2000) 8 0 0 []
              tcp1 ltac:(lia))
    as (received & tcp' & -> & Hlen & Hpend & _).
  rewrite Hrx in Hpend. cbn [app].
  assert (Hbuf : length (stack_buffer before received) = 8%nat).
  { unfold stack_buffer. rewrite length_app, length_drop. lia. }
  destruct (stack_buffer before received)
    as [|b0 [|b1 [|b2 [|b3 [|b4 [|b5 [|b6 [|b7 [|b8 buf]]]]]]]]]
    eqn:Hstack; try discriminate Hbuf.
  unfold io_ret. eexists received, tcp', b0, b1, b2, b3, b4, b5, b6, b7, _.
  split; [exact Hpend|]. split; [exact Hstack|]. split; [reflexivity|].
  cbn [data_width addr_width data_width_bytes limit_samples
       limit_samples_max].
  split; [reflexivity|]. split; [reflexivity|].
  split; [unfold u32, host_word_size; apply Z.div_pos;
          [apply Z.mod_pos_bound|]; lia|].
  split; [reflexivity|]. intros []; reflexivity.
Qed.

(** X10.  Whatever the socket does, [ipdbg_la_get_addrwidth_and_datawidth]
    returns, and it leaves the five trigger vectors allocated with
    [data_width_bytes] bytes, all 0, and the sample limit at its maximum. *)
Theorem get_widths_allocates (beyond : Z -> Z -> Z) (before : list Z)
    (devc : dev_context) (tcp : ipdbg_la_tcp) :
  length before = 8%nat ->
  exists devc' tcp',
    ipdbg_la_get_addrwidth_and_datawidth beyond before devc tcp
    = Some (devc', tcp')
    /\ vectors_ok devc'
    /\ (forall v, vector_of v devc'
                   = replicate (Z.to_nat (data_width_bytes devc')) 0)
    /\ limit_samples devc' = limit_samples_max devc'.
Proof.
  intros Hbefore.
  destruct (get_widths_runs beyond before devc tcp Hbefore)
    as (received & tcp' & b0 & b1 & b2 & b3 & b4 & b5 & b6 & b7 & devc'
        & _ & _ & Heq & _ & _ & Hdwb & Hlimit & Hvec).
  exists devc', tcp'. split; [exact Heq|]. split; [|split; [|exact Hlimit]].
  - intros v. rewrite Hvec, length_replicate. split; [lia|].
    apply Forall_replicate. unfold is_byte. lia.
  - exact Hvec.
Qed.

Lemma get_widths_allocates_witness :
  exists devc' tcp',
    ipdbg_la_get_addrwidth_and_datawidth beyond_x86 (replicate 8 0)
      ipdbg_la_dev_new (mk_tcp [RxError; RxData [12; 0]] [-1] [])
    = Some (devc', tcp')
    /\ vectors_ok devc'
    /\ (forall v, vector_of v devc'
                   = replicate (Z.to_nat (data_width_bytes devc')) 0)
    /\ limit_samples devc' = limit_samples_max devc'.
Proof.
  apply (get_widths_allocates beyond_x86 (replicate 8 0) ipdbg_la_dev_new
           (mk_tcp [RxError; RxData [12; 0]] [-1] [])).
  reflexivity.
Defined.

(** X11.  When no byte of the answer arrives,
    [ipdbg_la_get_addrwidth_and_datawidth] only warns and goes on: the
    widths are set from what the local array [buf] held on entry, which
    nothing has initialised. *)
Theorem get_widths_without_answer (beyond : Z -> Z -> Z)
    (a0 a1 a2 a3 a4 a5 a6 a7 : Z) (devc : dev_context)
    (tcp : ipdbg_la_tcp) :
  pending (sock_rx tcp) = [] ->
  exists devc' tcp',
    ipdbg_la_get_addrwidth_and_datawidth beyond
      [a0; a1; a2; a3; a4; a5; a6; a7] devc tcp
    = Some (devc', tcp')
    /\ data_width devc' = le32_field beyond a0 a1 a2 a3
    /\ addr_width devc' = le32_field beyond a4 a5 a6 a7.
Proof.
  intros Hnone.
  destruct (get_widths_runs beyond [a0; a1; a2; a3; a4; a5; a6; a7] devc tcp
              eq_refl)
    as (received & tcp' & b0 & b1 & b2 & b3 & b4 & b5 & b6 & b7 & devc'
        & Hpend & Hstack & Heq & Hdw & Haw & _).
  rewrite Hnone in Hpend. symmetry in Hpend.
  apply app_eq_nil in Hpend as [-> _].
  injection Hstack as <- <- <- <- <- <- <- <-.
  exists devc', tcp'. auto.
Qed.

Lemma get_widths_without_answer_witness :
  exists devc' tcp',
    ipdbg_la_get_addrwidth_and_datawidth beyond_x86
      [0x40; 0x1F; 0; 0; 0xFF; 0xFF; 0xFF; 0x7F] ipdbg_la_dev_new
      (reliable [RxIdle; RxError] [])
    = Some (devc', tcp')
    /\ data_width devc' = le32_field beyond_x86 0x40 0x1F 0 0
    /\ addr_width devc' = le32_field beyond_x86 0xFF 0xFF 0xFF 0x7F.
Proof.
  apply (get_widths_without_answer beyond_x86
           0x40 0x1F 0 0 0xFF 0xFF 0xFF 0x7F ipdbg_la_dev_new
           (reliable [RxIdle; RxError] [])).
  reflexivity.
Defined.

(** ** The features *)

Lemma tcp_send_keeps_rx (buf : list Z) (tcp : ipdbg_la_tcp) :
  exists st tcp',
    tcp_send buf tcp = Some (st, tcp') /\ sock_rx tcp' = sock_rx tcp.
Proof. unfold tcp_send. eauto. Qed.

Lemma init_runlength_coding_runs (devc : dev_context) (tcp : ipdbg_la_tcp) :
  exists w tcp',
    ipdbg_la_init_runlength_coding devc tcp
    = Some (set_runlength_code_width w devc, tcp')
    /\ (w <> 0 -> Z.land (features devc) FEATURE_RUNLENGTH_CODER_ENABLED <> 0).
Proof.
  unfold ipdbg_la_init_runlength_coding.
  destruct (Z.eqb_spec (Z.land (features devc)
                          FEATURE_RUNLENGTH_CODER_ENABLED) 0) as [Hoff|Hon].
  { exists 0, tcp. split; [reflexivity | intros []; reflexivity]. }
  unfold io_bind.
  destruct (tcp_send_keeps_rx [CMD_GET_RLC_WIDTH] tcp)
    as (st & tcp1 & -> & _).
  destruct st; [|exists 0, tcp1; split; [reflexivity | auto]].
  unfold tcp_receive_blocking.
  destruct (tcp_receive_blocking_loop_stream (Z.to_nat 1 + 2000) 1 0 0 []
              tcp1 ltac:(lia))
    as (more & tcp' & -> & _).
  rewrite Z.add_0_l. cbn [app].
  destruct (Z.eqb_spec (Z.of_nat (length more)) 1) as [Hone|_]; cbn [negb].
  - destruct more as [|b [|? ?]]; try (cbn [length] in Hone; lia).
    exists b, tcp'. split; [reflexivity | auto].
  - exists 0, tcp'. split; [reflexivity | auto].
Qed.

(** X12.  For every context and whatever the socket does,
    [ipdbg_la_get_features] returns and changes nothing of the context but
    the features and the width of the run-length code.  When the width is 0
    on entry, as [ipdbg_la_dev_new] leaves it, it is other than 0 afterwards
    only when the features stored have the run-length bit set. *)
Theorem get_features_width_needs_bit (beyond : Z -> Z -> Z)
    (devc : dev_context) (tcp : ipdbg_la_tcp) :
  exists devc' tcp',
    ipdbg_la_get_features beyond devc tcp = Some (devc', tcp')
    /\ devc' = set_runlength_code_width (runlength_code_width devc')
                 (set_features (features devc') devc)
    /\ (runlength_code_width devc = 0 ->
        runlength_code_width devc' <> 0 ->
        Z.land (features devc') FEATURE_RUNLENGTH_CODER_ENABLED <> 0).
Proof.
  assert (Hsame : forall f,
            set_features f devc
            = set_runlength_code_width
                (runlength_code_width (set_features f devc))
                (set_features (features (set_features f devc)) devc)).
  { intros f. destruct devc. cbn in *. reflexivity. }
  assert (Hkeep : forall f (tcp' : ipdbg_la_tcp),
            exists devc'' tcp'',
              io_ret (set_features f devc) tcp' = Some (devc'', tcp'')
              /\ devc'' = set_runlength_code_width
                            (runlength_code_width devc'')
                            (set_features (features devc'') devc)
              /\ (runlength_code_width devc = 0 ->
                  runlength_code_width devc'' <> 0 ->
                  Z.land (features devc'')
                    FEATURE_RUNLENGTH_CODER_ENABLED <> 0)).
  { intros f tcp'. exists (set_features f devc), tcp'.
    split; [reflexivity|]. split; [apply Hsame|].
    cbn [runlength_code_width set_features]. intros Hzero Hw. contradiction. }
  unfold ipdbg_la_get_features.
  destruct (version devc =? 0); [apply Hkeep|].
  unfold io_bind.
  destruct (tcp_send_keeps_rx [CMD_GET_FEATURES] tcp)
    as (st & tcp1 & -> & _).
  destruct st; [|apply Hkeep].
  unfold tcp_receive_blocking.
  destruct (tcp_receive_blocking_loop_stream (Z.to_nat 4 + 2000) 4 0 0 []
              tcp1 ltac:(lia))
    as (more & tcp2 & -> & _).
  rewrite Z.add_0_l. cbn [app].
  destruct (Z.eqb_spec (Z.of_nat (length more)) 4) as [Hfour|_]; cbn [negb];
    [|apply Hkeep].
  destruct more as [|b0 [|b1 [|b2 [|b3 [|? ?]]]]];
    try (cbn [length] in Hfour; lia).
  unfold idpbg_la_init_features.
  destruct (init_runlength_coding_runs
              (set_features (le32_field beyond b0 b1 b2 b3) devc) tcp2)
    as (w & tcp' & -> & Hw).
  eexists _, tcp'. split; [reflexivity|]. split.
  - destruct devc. reflexivity.
  - intros _. exact Hw.
Qed.

(** A context with a delay of 7 and a width of 5 already set keeps the
    delay; the answer 06 00 00 00 has the run-length bit, and the width
    becomes the next byte, 12. *)
Lemma get_features_width_needs_bit_witness :
  exists devc' tcp',
    ipdbg_la_get_features beyond_x86
      (mk_devc 8 1 10 2 1024 1024 50 [0] [0] [0] [0] [0] 7 0 0 None 0 5 1 0)
      (reliable [RxData [6; 0; 0; 0; 12]] [])
    = Some (devc', tcp')
    /\ delay_value devc' = 7
    /\ runlength_code_width devc' = 12
    /\ features devc' = 6.
Proof.
  destruct (get_features_width_needs_bit beyond_x86
              (mk_devc 8 1 10 2 1024 1024 50 [0] [0] [0] [0] [0] 7 0 0 None
                 0 5 1 0)
              (reliable [RxData [6; 0; 0; 0; 12]] []))
    as (devc' & tcp' & Heq & Hframe & _).
  exists devc', tcp'. split; [exact Heq|].
  split; [rewrite Hframe; reflexivity|].
  vm_compute in Heq. injection Heq as <- _. split; reflexivity.
Defined.

(** X13.  When the four bytes of the answer arrive and the device has a
    version other than 0, [ipdbg_la_get_features] sends 0x10 and stores the
    answer as one little-endian number, whatever it is.  Without the
    run-length bit in it, the width of the run-length code becomes 0 and
    nothing more is sent or taken from the socket.  With the run-length bit
    the function asks for the width with 0x60 and stores the next byte that
    arrives. *)
Theorem get_features_reads_width (beyond : Z -> Z -> Z) (devc : dev_context)
    (rx : list rx_event) (wire : list Z) (b0 b1 b2 b3 : Z)
    (rest : list Z) :
  let answer := le_value [b0; b1; b2; b3] in
  version devc <> 0 ->
  pending rx = [b0; b1; b2; b3] ++ rest ->
  (empty_polls rx < 2000)%nat ->
  Forall is_byte [b0; b1; b2; b3] ->
  (Z.land answer FEATURE_RUNLENGTH_CODER_ENABLED = 0 ->
   exists rx',
     ipdbg_la_get_features beyond devc (reliable rx wire)
     = Some (set_runlength_code_width 0 (set_features answer devc),
             reliable rx' (wire ++ [0x10]))
     /\ pending rx' = rest)
  /\ (Z.land answer FEATURE_RUNLENGTH_CODER_ENABLED <> 0 ->
      forall w rest', rest = w :: rest' ->
      exists rx',
        ipdbg_la_get_features beyond devc (reliable rx wire)
        = Some (set_runlength_code_width w (set_features answer devc),
                reliable rx' (wire ++ [0x10; 0x60]))
        /\ pending rx' = rest').
Proof.
  intros answer Hversion Hpend Hpolls Hbytes.
  unfold ipdbg_la_get_features.
  destruct (Z.eqb_spec (version devc) 0) as [?|_]; [contradiction|].
  unfold io_bind. rewrite tcp_send_reliable.
  destruct (tcp_receive_blocking_full 4 rx (wire ++ [CMD_GET_FEATURES]))
    as (rx1 & -> & Hrest1 & Hpolls1);
    [rewrite Hpend, length_app; cbn [length]; lia | exact Hpolls |].
  rewrite Hpend in *. change (Z.to_nat 4) with 4%nat in *.
  cbn [app firstn skipn] in *. rewrite take_0. rewrite drop_0 in Hrest1.
  cbn [Z.eqb Pos.eqb negb].
  apply Forall_cons_1 in Hbytes as [H0 Hbytes].
  apply Forall_cons_1 in Hbytes as [H1 Hbytes].
  apply Forall_cons_1 in Hbytes as [H2 Hbytes].
  apply Forall_cons_1 in Hbytes as [H3 _].
  rewrite le32_field_value by assumption. fold answer.
  unfold idpbg_la_init_features, ipdbg_la_init_runlength_coding.
  cbn [features set_features].
  split.
  - intros Hoff. rewrite Hoff. cbn [Z.eqb]. unfold io_ret.
    exists rx1. split; [reflexivity | exact Hrest1].
  - intros Hon w rest' Hrest.
    destruct (Z.eqb_spec (Z.land answer FEATURE_RUNLENGTH_CODER_ENABLED) 0)
      as [?|_]; [contradiction|].
    unfold io_bind. rewrite tcp_send_reliable.
    destruct (tcp_receive_blocking_full 1 rx1
                ((wire ++ [CMD_GET_FEATURES]) ++ [CMD_GET_RLC_WIDTH]))
      as (rx' & -> & Hrest2 & _);
      [rewrite Hrest1, Hrest; cbn [length]; lia | lia |].
    rewrite Hrest1, Hrest in *. change (Z.to_nat 1) with 1%nat in *.
    cbn [firstn skipn] in *. rewrite take_0. rewrite drop_0 in Hrest2.
    cbn [Z.eqb Pos.eqb negb]. unfold peek.
    change ([w] !! Z.to_nat 0) with (Some w). cbn [Z.ltb Z.compare].
    unfold io_ret. exists rx'. rewrite <- app_assoc.
    split; [reflexivity | exact Hrest2].
Qed.

(** The answer 0D 00 00 80 has no run-length bit: it is stored whole and the
    byte after it stays on the socket.  The answer 06 00 00 00 has it: the
    byte after it is the width. *)
Lemma get_features_reads_width_witness :
  (exists rx',
     ipdbg_la_get_features beyond_x86 devc_samplerate
       (reliable [RxData [0x0D; 0]; RxIdle; RxData [0; 0x80; 12; 7]] [])
     = Some (set_runlength_code_width 0
               (set_features 0x8000000D devc_samplerate),
             reliable rx' ([] ++ [0x10]))
     /\ pending rx' = [12; 7])
  /\ (exists rx',
        ipdbg_la_get_features beyond_x86 devc_samplerate
          (reliable [RxData [6; 0]; RxIdle; RxData [0; 0; 12; 7]] [])
        = Some (set_runlength_code_width 12
                  (set_features 6 devc_samplerate),
                reliable rx' ([] ++ [0x10; 0x60]))
        /\ pending rx' = [7]).
Proof.
  split.
  - apply (get_features_reads_width beyond_x86 devc_samplerate
             [RxData [0x0D; 0]; RxIdle; RxData [0; 0x80; 12; 7]] []
             0x0D 0 0 0x80 [12; 7]).
    + cbn. lia.
    + reflexivity.
    + cbn. lia.
    + repeat apply Forall_cons_2; auto; unfold is_byte; lia.
    + reflexivity.
  - apply (get_features_reads_width beyond_x86 devc_samplerate
             [RxData [6; 0]; RxIdle; RxData [0; 0; 12; 7]] []
             6 0 0 0 [12; 7]) with (w := 12) (rest' := [7]).
    + cbn. lia.
    + reflexivity.
    + cbn. lia.
    + repeat apply Forall_cons_2; auto; unfold is_byte; lia.
    + vm_compute. discriminate.
    + reflexivity.
Defined.

(** X14.  With fewer than four bytes to come, or a device of version 0,
    [ipdbg_la_get_features] sets the features to 0 and leaves the rest of
    the context as it is; for version 0 nothing is sent or read. *)
Theorem get_features_gives_up (beyond : Z -> Z -> Z) (devc : dev_context)
    (tcp : ipdbg_la_tcp) :
  version devc = 0 \/ (length (pending (sock_rx tcp)) < 4)%nat ->
  exists tcp',
    ipdbg_la_get_features beyond devc tcp = Some (set_features 0 devc, tcp')
    /\ (version devc = 0 -> tcp' = tcp).
Proof.
  intros Hcase. unfold ipdbg_la_get_features.
  destruct (Z.eqb_spec (version devc) 0) as [Hv|Hv].
  { exists tcp. split; [reflexivity | auto]. }
  destruct Hcase as [?|Hshort]; [contradiction|].
  unfold io_bind.
  destruct (tcp_send_keeps_rx [CMD_GET_FEATURES] tcp)
    as (st & tcp1 & -> & Hrx).
  destruct st; [|exists tcp1; split; [reflexivity | intros; contradiction]].
  unfold tcp_receive_blocking.
  destruct (tcp_receive_blocking_loop_stream (Z.to_nat 4 + 2000) 4 0 0 []
              tcp1 ltac:(lia))
    as (more & tcp' & -> & _ & Hpend & _).
  rewrite Hrx in Hpend. rewrite Hpend, length_app in Hshort.
  rewrite Z.add_0_l.
  destruct (Z.eqb_spec (Z.of_nat (length more)) 4) as [?|_]; [lia|].
  cbn [negb]. exists tcp'. split; [reflexivity | intros; contradiction].
Qed.

Lemma get_features_gives_up_witness :
  exists tcp',
    ipdbg_la_get_features beyond_x86 devc_samplerate
      (reliable [RxData [6; 0]; RxError; RxData [0]] [])
    = Some (set_features 0 devc_samplerate, tcp')
    /\ (version devc_samplerate = 0
        -> tcp' = reliable [RxData [6; 0]; RxError; RxData [0]] []).
Proof.
  apply (get_features_gives_up beyond_x86 devc_samplerate
           (reliable [RxData [6; 0]; RxError; RxData [0]] [])).
  right. cbn. lia.
Defined.

(** ** The channels *)

Lemma default_channels_list (n : nat) (i : Z)
    (channels : list (sr_channel * list Z)) :
  default_channels n i channels
  = channels ++ map (fun i => (mk_channel i true,
                               c_str (default_channel_name i)))
                    (seqZ i (Z.of_nat n)).
Proof.
  revert i channels. induction n as [|n IH]; intros i channels.
  - cbn. by rewrite app_nil_r.
  - cbn [default_channels]. rewrite IH. unfold sr_channel_new.
    rewrite (seqZ_cons i) by lia. rewrite <- app_assoc. cbn [app map].
    do 4 f_equal. lia.
Qed.

Lemma named_channels_indices (n : nat) (i : Z)
    (channels : list (sr_channel * list Z)) (tcp : ipdbg_la_tcp) :
  exists new tcp',
    named_channels n i channels tcp = Some (channels ++ new, tcp')
    /\ map fst new = map (fun i => mk_channel i true) (seqZ i (Z.of_nat n)).
Proof.
  revert i channels tcp. induction n as [|n IH]; intros i channels tcp.
  - exists [], tcp. cbn. unfold io_ret. by rewrite app_nil_r.
  - assert (Hnext : forall name tcp1,
              exists new tcp',
                named_channels n (i + 1)
                  (sr_channel_new i true name channels) tcp1
                = Some (channels ++ new, tcp')
                /\ map fst new
                   = map (fun i => mk_channel i true)
                         (seqZ i (Z.of_nat (S n)))).
    { intros name tcp1.
      destruct (IH (i + 1) (sr_channel_new i true name channels) tcp1)
        as (new & tcp' & -> & Hnew).
      exists ((mk_channel i true, c_str name) :: new), tcp'.
      unfold sr_channel_new. rewrite <- app_assoc. split; [reflexivity|].
      rewrite (seqZ_cons i) by lia. cbn [map fst]. rewrite Hnew.
      do 3 f_equal; lia. }
    cbn [named_channels]. unfold io_bind, tcp_receive_blocking.
    destruct (tcp_receive_blocking_loop_stream (Z.to_nat 1 + 2000) 1 0 0 []
                tcp ltac:(lia))
      as (more & tcp1 & -> & _).
    rewrite Z.add_0_l. cbn [app].
    destruct (Z.eqb_spec (Z.of_nat (length more)) 1) as [Hone|_]; cbn [negb];
      [|apply Hnext].
    destruct more as [|len [|? ?]]; try (cbn [length] in Hone; lia).
    unfold peek. change ([len] !! Z.to_nat 0) with (Some len).
    cbn [Z.ltb Z.compare]. cbv beta.
    destruct (tcp_receive_blocking_loop_stream (Z.to_nat len + 2000) len 0 0
                [] tcp1 ltac:(lia))
      as (name & tcp2 & -> & _).
    rewrite Z.add_0_l. cbn [app].
    destruct (negb _); apply Hnext.
Qed.

(** X15.  Whatever the features are and whatever the socket does,
    [ipdbg_la_set_channel_names_and_groups] returns and adds one enabled
    channel for each index from 0 up to, and not including, the data width
    cut to eight bits; the channels there were stay. *)
Theorem set_channel_names_adds_each_channel (devc : dev_context)
    (channels : list (sr_channel * list Z)) (tcp : ipdbg_la_tcp) :
  exists new tcp',
    ipdbg_la_set_channel_names_and_groups devc channels tcp
    = Some (channels ++ new, tcp')
    /\ map fst new
       = map (fun i => mk_channel i true) (seqZ 0 (data_width devc mod 256)).
Proof.
  assert (Hn : Z.of_nat (Z.to_nat (u8 (data_width devc)))
               = data_width devc mod 256).
  { unfold u8. rewrite Z2Nat.id; [reflexivity|].
    apply Z.mod_pos_bound. lia. }
  assert (Hdefault : forall tcp1 : ipdbg_la_tcp,
            exists new tcp',
              io_ret (default_channels (Z.to_nat (u8 (data_width devc))) 0
                        channels) tcp1
              = Some (channels ++ new, tcp')
              /\ map fst new
                 = map (fun i => mk_channel i true)
                       (seqZ 0 (data_width devc mod 256))).
  { intros tcp1. rewrite default_channels_list. eexists _, tcp1.
    split; [reflexivity|]. rewrite Hn, map_map. reflexivity. }
  unfold ipdbg_la_set_channel_names_and_groups.
  destruct (_ =? 0); [apply Hdefault|].
  unfold io_bind.
  destruct (tcp_send_keeps_rx [CMD_GET_CHANNEL_NAMES] tcp)
    as (st1 & tcp1 & -> & _).
  destruct st1; [|apply Hdefault].
  destruct (tcp_send_keeps_rx [u8 (data_width devc)] tcp1)
    as (st2 & tcp2 & -> & _).
  destruct st2; [|apply Hdefault].
  rewrite <- Hn. apply named_channels_indices.
Qed.
(** The default name of each of the 256 channels there can be: the letters
    C and H, then the index in decimal. *)
Lemma default_channel_name_decimal (i : Z) :
  0 <= i < 256 ->
  c_str (default_channel_name i) = [0x43; 0x48] ++ decimal i.
Proof.
  intros Hi.
  assert (Hall : map (fun i => c_str (default_channel_name i)) (seqZ 0 256)
                 = map (fun i => [0x43; 0x48] ++ decimal i) (seqZ 0 256))
    by (vm_compute; reflexivity).
  apply (f_equal (fun l => l !! Z.to_nat i)) in Hall.
  change (map ?f ?l) with (f <$> l) in Hall.
  rewrite !list_lookup_fmap, lookup_seqZ_lt in Hall by lia.
  rewrite Z.add_0_l, Z2Nat.id in Hall by lia.
  apply (inj Some). exact Hall.
Qed.

(** X16.  Without the channel-name feature
    [ipdbg_la_set_channel_names_and_groups] sends and reads nothing and
    names channel [i] by the letters C and H followed by [i] in decimal:
    CH0, CH1, ... *)
Theorem set_channel_names_default (devc : dev_context)
    (channels : list (sr_channel * list Z)) (tcp : ipdbg_la_tcp) :
  Z.land (features devc) FEATURE_AUGMENTER_CH_NAMES_ENABLED = 0 ->
  ipdbg_la_set_channel_names_and_groups devc channels tcp
  = Some (channels
          ++ map (fun i => (mk_channel i true, [0x43; 0x48] ++ decimal i))
                 (seqZ 0 (data_width devc mod 256)),
          tcp).
Proof.
  intros Hoff. unfold ipdbg_la_set_channel_names_and_groups.
  rewrite Hoff. cbn [Z.eqb]. unfold io_ret.
  rewrite default_channels_list. unfold u8.
  rewrite Z2Nat.id by (apply Z.mod_pos_bound; lia).
  do 3 f_equal. apply map_ext_in. intros i Hin.
  apply list_elem_of_In, elem_of_seqZ in Hin.
  change (2 ^ 8) with 256 in Hin.
  pose proof (Z.mod_pos_bound (data_width devc) 256 ltac:(lia)).
  rewrite default_channel_name_decimal by lia. reflexivity.
Qed.

(** Twelve channels: the names run from CH0 over CH9 to CH10 and CH11. *)
Lemma set_channel_names_default_witness :
  ipdbg_la_set_channel_names_and_groups
    (mk_devc 12 2 5 1 32 32 50 [0; 0] [0; 0] [0; 0] [0; 0] [0; 0] 0 0 0 None
       0 0 0 0)
    [] (reliable [] [])
  = Some (map (fun '(i, name) => (mk_channel i true, name))
            [ (0, [0x43; 0x48; 0x30]); (1, [0x43; 0x48; 0x31]);
              (2, [0x43; 0x48; 0x32]); (3, [0x43; 0x48; 0x33]);
              (4, [0x43; 0x48; 0x34]); (5, [0x43; 0x48; 0x35]);
              (6, [0x43; 0x48; 0x36]); (7, [0x43; 0x48; 0x37]);
              (8, [0x43; 0x48; 0x38]); (9, [0x43; 0x48; 0x39]);
              (10, [0x43; 0x48; 0x31; 0x30]);
              (11, [0x43; 0x48; 0x31; 0x31]) ],
          reliable [] []).
Proof.
  rewrite (set_channel_names_default
             (mk_devc 12 2 5 1 32 32 50 [0; 0] [0; 0] [0; 0] [0; 0] [0; 0]
                0 0 0 None 0 0 0 0)
             [] (reliable [] [])) by reflexivity.
  reflexivity.
Defined.

Lemma c_str_terminated (s : list Z) : c_str (s ++ [0]) = c_str s.
Proof.
  induction s as [|c s IH]; [reflexivity|].
  cbn [app c_str]. destruct (c =? 0); [reflexivity|]. by rewrite IH.
Qed.

Lemma named_channels_reads (names : list (list Z)) (i : Z)
    (channels : list (sr_channel * list Z)) (rx : list rx_event)
    (wire rest : list Z) :
  pending rx = name_records names ++ rest ->
  (empty_polls rx < 2000)%nat ->
  exists rx',
    named_channels (length names) i channels (reliable rx wire)
    = Some (channels
            ++ zip_with (fun i name => (mk_channel i true, c_str name))
                        (seqZ i (Z.of_nat (length names))) names,
            reliable rx' wire)
    /\ pending rx' = rest.
Proof.
  revert i channels rx.
  induction names as [|name names IH]; intros i channels rx Hpend Hpolls.
  - exists rx. cbn. unfold io_ret. rewrite app_nil_r. auto.
  - cbn [length named_channels]. unfold io_bind.
    unfold name_records in Hpend. cbn [map concat] in Hpend.
    fold (name_records names) in Hpend.
    rewrite <- app_assoc in Hpend. cbn [app] in Hpend.
    destruct (tcp_receive_blocking_full 1 rx wire)
      as (rx1 & -> & Hrest1 & Hpolls1);
      [rewrite Hpend; cbn [length]; lia | exact Hpolls |].
    rewrite Hpend in *. change (Z.to_nat 1) with 1%nat in *.
    cbn [firstn skipn] in *. rewrite take_0. rewrite drop_0 in Hrest1.
    cbn [Z.eqb Pos.eqb negb].
    unfold peek. change ([Z.of_nat (length name)] !! Z.to_nat 0)
      with (Some (Z.of_nat (length name))).
    cbn [Z.ltb Z.compare]. cbv beta. unfold io_bind.
    destruct (tcp_receive_blocking_full (Z.of_nat (length name)) rx1 wire)
      as (rx2 & -> & Hrest2 & Hpolls2);
      [rewrite Hrest1, length_app; lia | lia |].
    rewrite Hrest1, Nat2Z.id in *.
    rewrite take_app_length. rewrite drop_app_length in Hrest2.
    rewrite Z.eqb_refl. cbn [negb].
    destruct (IH (i + 1)
                (sr_channel_new i true (name ++ [0]) channels) rx2 Hrest2
                ltac:(lia))
      as (rx' & -> & Hrest).
    exists rx'. split; [|exact Hrest].
    unfold sr_channel_new. rewrite <- app_assoc, c_str_terminated.
    rewrite (seqZ_cons i) by lia. cbn [zip_with app].
    replace (Z.pred (Z.of_nat (S (length names))))
      with (Z.of_nat (length names)) by lia.
    reflexivity.
Qed.

(** X17.  With the channel-name feature, when the device answers for each
    channel with a length byte and a name of that length,
    [ipdbg_la_set_channel_names_and_groups] sends 0x70 and the number of
    channels, takes exactly these records from the socket, and names channel
    [i] by the [i]th name, up to the first NUL byte in it. *)
Theorem set_channel_names_reads_names (devc : dev_context)
    (channels : list (sr_channel * list Z)) (rx : list rx_event)
    (wire : list Z) (names : list (list Z)) (rest : list Z) :
  Z.land (features devc) FEATURE_AUGMENTER_CH_NAMES_ENABLED <> 0 ->
  Z.of_nat (length names) = data_width devc mod 256 ->
  Forall (fun name => (length name < 256)%nat) names ->
  pending rx = name_records names ++ rest ->
  (empty_polls rx < 2000)%nat ->
  exists rx',
    ipdbg_la_set_channel_names_and_groups devc channels (reliable rx wire)
    = Some (channels
            ++ zip_with (fun i name => (mk_channel i true, c_str name))
                        (seqZ 0 (Z.of_nat (length names))) names,
            reliable rx' (wire ++ [0x70; data_width devc mod 256]))
    /\ pending rx' = rest.
Proof.
  intros Hon Hcount _ Hpend Hpolls.
  unfold ipdbg_la_set_channel_names_and_groups.
  destruct (Z.eqb_spec (Z.land (features devc)
                          FEATURE_AUGMENTER_CH_NAMES_ENABLED) 0) as [?|_];
    [contradiction|].
  unfold io_bind. rewrite !tcp_send_reliable.
  change (u8 (data_width devc)) with (data_width devc mod 256).
  rewrite <- Hcount, Nat2Z.id, <- app_assoc.
  apply named_channels_reads; assumption.
Qed.

Lemma set_channel_names_reads_names_witness :
  exists rx',
    ipdbg_la_set_channel_names_and_groups
      (mk_devc 2 1 5 1 32 32 50 [0] [0] [0] [0] [0] 0 0 0 None
         FEATURE_AUGMENTER_CH_NAMES_ENABLED 0 1 0)
      [] (reliable [RxData [3; 99; 108]; RxIdle; RxData [107; 2; 100; 0; 9]]
            [])
    = Some ([]
            ++ zip_with (fun i name => (mk_channel i true, c_str name))
                 (seqZ 0 (Z.of_nat (length [[99; 108; 107]; [100; 0]])))
                 [[99; 108; 107]; [100; 0]],
            reliable rx' ([] ++ [0x70; 2 mod 256]))
    /\ pending rx' = [9].
Proof.
  apply (set_channel_names_reads_names
           (mk_devc 2 1 5 1 32 32 50 [0] [0] [0] [0] [0] 0 0 0 None
              FEATURE_AUGMENTER_CH_NAMES_ENABLED 0 1 0)
           [] [RxData [3; 99; 108]; RxIdle; RxData [107; 2; 100; 0; 9]] []
           [[99; 108; 107]; [100; 0]] [9]).
  - vm_compute. discriminate.
  - reflexivity.
  - repeat constructor.
  - reflexivity.
  - cbn. lia.
Defined.

(** ** The acquisition, call after call *)





(** ** Delivery *)

Lemma deliver_after_decode (can_alloc : Z -> bool) (sdi : sr_dev_inst)
    (devc devc' : dev_context) (raw out : list Z) (delay total : Z) :
  priv sdi = Some devc ->
  raw_sample_buf devc = Some raw ->
  u64 (transfer_total devc) <= num_transfers devc ->
  ipdbg_la_runlength_decode can_alloc devc
  = Some (true, delay, total, devc') ->
  raw_sample_buf devc' = Some out ->
  0 <= delay <= total ->
  total < 2 ^ 64 ->
  0 <= data_width_bytes devc' ->
  total * data_width_bytes devc' = Z.of_nat (length out) ->
  Z.of_nat (length out) < 2 ^ 64 ->
  let dwb := data_width_bytes devc' in
  ipdbg_la_receive_data can_alloc (Some sdi)
  = Some (true,
          Some (mk_sdi (Some (set_raw_sample_buf None devc')) (conn sdi)
                  (mk_session (session_trigger (session sdi))
                     (session_feed (session sdi)
                      ++ (if 0 <? delay
                          then [SR_DF_LOGIC (delay * dwb) dwb out] else [])
                      ++ [ SR_DF_TRIGGER;
                           SR_DF_LOGIC ((total - delay) * dwb) dwb
                             (drop (Z.to_nat (delay * dwb)) out);
                           SR_DF_END ])
                     false))).
Proof.
  intros Hpriv Hraw Hall Hdecode Hout Hdelay Htotal Hdwb Hsize Hmem dwb.
  unfold ipdbg_la_receive_data. rewrite Hpriv, Hraw.
  unfold transfer_total in Hall.
  destruct (Z.ltb_spec (num_transfers devc)
              (u64 (limit_samples_max devc * raw_data_width_bytes devc)));
    [lia|].
  rewrite (set_raw_sample_buf_same devc raw Hraw).
  unfold decode_and_deliver. rewrite Hdecode, bind_Some. cbn [negb].
  rewrite Hout. change (default [] (Some out)) with out. fold dwb.
  assert (Hpre : 0 <= delay * dwb <= Z.of_nat (length out)) by nia.
  assert (Hpost : 0 <= (total - delay) * dwb <= Z.of_nat (length out))
    by nia.
  rewrite (u64_small (delay * dwb)), (u64_small (total - delay)),
    (u64_small ((total - delay) * dwb)) by lia.
  unfold ptr_add.
  destruct (Z.ltb_spec (delay * dwb) 0); [lia|].
  destruct (Z.ltb_spec (Z.of_nat (length out)) (delay * dwb)); [lia|].
  cbn [orb]. rewrite ?bind_Some.
  unfold ipdbg_la_abort_acquisition, sr_session_send.
  cbn [session_trigger session_feed session_source].
  destruct (0 <? delay); cbn [session_trigger session_feed session_source];
    rewrite <- ?app_assoc; reflexivity.
Qed.

(** X19.  Once the transfer total is reached and the decoder has come back
    with TRUE, [ipdbg_la_receive_data] sends, in this order: the samples
    before the trigger, if there are any; the trigger marker; the samples
    from the trigger on, always, even when there are none; the end marker.
    The two logic packets share the decoded buffer at sample [delay_value].
    The source is removed and the buffer released. *)
Theorem receive_data_delivery_order (can_alloc : Z -> bool) (sdi : sr_dev_inst)
    (devc devc' : dev_context) (raw out : list Z) (delay total : Z) :
  priv sdi = Some devc ->
  raw_sample_buf devc = Some raw ->
  u64 (transfer_total devc) <= num_transfers devc ->
  ipdbg_la_runlength_decode can_alloc devc
  = Some (true, delay, total, devc') ->
  raw_sample_buf devc' = Some out ->
  0 <= delay <= total ->
  total < 2 ^ 64 ->
  0 <= data_width_bytes devc' ->
  total * data_width_bytes devc' = Z.of_nat (length out) ->
  Z.of_nat (length out) < 2 ^ 64 ->
  let dwb := data_width_bytes devc' in
  ipdbg_la_receive_data can_alloc (Some sdi)
  = Some (true,
          Some (mk_sdi (Some (set_raw_sample_buf None devc')) (conn sdi)
                  (mk_session (session_trigger (session sdi))
                     (session_feed (session sdi)
                      ++ (if 0 <? delay
                          then [SR_DF_LOGIC (delay * dwb) dwb out] else [])
                      ++ [ SR_DF_TRIGGER;
                           SR_DF_LOGIC ((total - delay) * dwb) dwb
                             (drop (Z.to_nat (delay * dwb)) out);
                           SR_DF_END ])
                     false))).
Proof. apply deliver_after_decode. Qed.

Lemma receive_data_delivery_order_witness :
  ipdbg_la_receive_data (fun _ => true)
    (Some (mk_sdi (Some devc_two_runs) (reliable [] [])
             (mk_session None [] true)))
  = Some (true,
          Some (mk_sdi
                  (Some (set_raw_sample_buf None
                           (set_raw_sample_buf
                              (Some [0xAB; 0xCD; 0xCD; 0xCD]) devc_two_runs)))
                  (reliable [] [])
                  (mk_session None
                     ([]
                      ++ (if 0 <? 1
                          then [SR_DF_LOGIC (1 * 1) 1
                                  [0xAB; 0xCD; 0xCD; 0xCD]] else [])
                      ++ [ SR_DF_TRIGGER;
                           SR_DF_LOGIC ((4 - 1) * 1) 1
                             (drop (Z.to_nat (1 * 1))
                                [0xAB; 0xCD; 0xCD; 0xCD]);
                           SR_DF_END ])
                     false))).
Proof.
  apply (receive_data_delivery_order (fun _ => true)
           (mk_sdi (Some devc_two_runs) (reliable [] [])
              (mk_session None [] true))
           devc_two_runs
           (set_raw_sample_buf (Some [0xAB; 0xCD; 0xCD; 0xCD]) devc_two_runs)
           [0; 0xAB; 2; 0xCD] [0xAB; 0xCD; 0xCD; 0xCD] 1 4).
  - reflexivity.
  - reflexivity.
  - vm_compute. discriminate.
  - vm_compute. reflexivity.
  - reflexivity.
  - lia.
  - lia.
  - cbn. lia.
  - reflexivity.
  - cbn. lia.
Defined.

(** X20.  When [ipdbg_la_receive_data] returns FALSE, it has sent no packet,
    not the end marker either, has not removed the source and has read
    nothing from the socket; and no buffer is left in the context. *)
Theorem receive_data_false_sends_nothing (can_alloc : Z -> bool)
    (sdi sdi' : sr_dev_inst) :
  ipdbg_la_receive_data can_alloc (Some sdi) = Some (false, Some sdi') ->
  session sdi' = session sdi
  /\ conn sdi' = conn sdi
  /\ match priv sdi' with
     | Some devc' => raw_sample_buf devc' = None
     | None => priv sdi = None
     end.
Proof.
  unfold ipdbg_la_receive_data.
  destruct (priv sdi) as [devc|] eqn:Hpriv.
  2: { intros [= <-]. rewrite Hpriv. auto. }
  destruct (raw_sample_buf devc) as [raw|] eqn:Hraw.
  2: { destruct (g_try_malloc _ _) as [raw|].
       2: { intros [= <-]. rewrite Hpriv. auto. }
       destruct (_ <? _).
       - destruct (receive_chunk _ _ _) as [[d t]|]; discriminate.
       - destruct (decode_and_deliver _ _ _) as [[[ok d] s]|] eqn:Hdeliver;
           [|discriminate].
         rewrite bind_Some. intros [= -> <-]. cbn [session conn priv].
         unfold decode_and_deliver in Hdeliver.
         destruct (ipdbg_la_runlength_decode _ _) as [[[[ok dl] tt] d']|];
           [|discriminate].
         rewrite bind_Some in Hdeliver. destruct ok; cbn [negb] in Hdeliver.
         + destruct (ptr_add _ _); discriminate.
         + injection Hdeliver as <- <-. auto. }
  destruct (_ <? _).
  - destruct (receive_chunk _ _ _) as [[d t]|]; discriminate.
  - destruct (decode_and_deliver _ _ _) as [[[ok d] s]|] eqn:Hdeliver;
      [|discriminate].
    rewrite bind_Some. intros [= -> <-]. cbn [session conn priv].
    unfold decode_and_deliver in Hdeliver.
    destruct (ipdbg_la_runlength_decode _ _) as [[[[ok dl] tt] d']|];
      [|discriminate].
    rewrite bind_Some in Hdeliver. destruct ok; cbn [negb] in Hdeliver.
    + destruct (ptr_add _ _); discriminate.
    + injection Hdeliver as <- <-. auto.
Qed.

Lemma receive_data_false_sends_nothing_witness :
  session (mk_sdi (Some (set_raw_sample_buf None devc_two_runs))
             (reliable [RxData [1]] []) (mk_session None [] true))
  = session (mk_sdi (Some devc_two_runs) (reliable [RxData [1]] [])
               (mk_session None [] true))
  /\ conn (mk_sdi (Some (set_raw_sample_buf None devc_two_runs))
             (reliable [RxData [1]] []) (mk_session None [] true))
     = conn (mk_sdi (Some devc_two_runs) (reliable [RxData [1]] [])
               (mk_session None [] true))
  /\ match priv (mk_sdi (Some (set_raw_sample_buf None devc_two_runs))
                   (reliable [RxData [1]] []) (mk_session None [] true)) with
     | Some devc' => raw_sample_buf devc' = None
     | None => priv (mk_sdi (Some devc_two_runs) (reliable [RxData [1]] [])
                       (mk_session None [] true)) = None
     end.
Proof.
  apply (receive_data_false_sends_nothing (fun _ => false)
           (mk_sdi (Some devc_two_runs) (reliable [RxData [1]] [])
              (mk_session None [] true))
           (mk_sdi (Some (set_raw_sample_buf None devc_two_runs))
              (reliable [RxData [1]] []) (mk_session None [] true))).
  vm_compute. reflexivity.
Defined.

(** ** The decoder without memory *)

(** X21.  With a run-length code of 1 to 31 bits, the decoder returns FALSE
    when there is no raw sample at all ([g_malloc] of 0 bytes is [NULL]) and
    when the decoded buffer cannot be allocated.  It has then counted the
    samples, and it leaves the context as it was: the raw buffer is still
    there. *)
Theorem runlength_decode_refuses (can_alloc : Z -> bool)
    (devc : dev_context) (raw : list Z) :
  let w := runlength_code_width devc in
  let dwb := decode_data_width_bytes devc in
  let repeats := map (sample_repeat w)
                   (raw_samples raw (raw_data_width_bytes devc)
                      (limit_samples devc)) in
  Forall is_byte raw ->
  0 < w < 32 ->
  0 < data_width devc ->
  data_width devc + w + 7 < 2 ^ 32 ->
  raw_sample_buf devc = Some raw ->
  Z.of_nat (length raw) = byte_budget devc ->
  0 <= limit_samples devc < 2 ^ 32 ->
  limit_samples devc * 2 ^ w * dwb < 2 ^ 64 ->
  limit_samples devc = 0 \/ can_alloc (sum_list repeats * dwb) = false ->
  ipdbg_la_runlength_decode can_alloc devc
  = Some (false, sum_list (take (Z.to_nat (delay_value devc)) repeats),
          sum_list repeats, devc).
Proof.
  intros w dwb repeats Hbytes Hw Hd Hfit Hraw Hlen Hn Hsize Hcase.
  unfold ipdbg_la_runlength_decode.
  destruct (Z.eqb_spec (runlength_code_width devc) 0) as [?|_]; [lia|].
  rewrite (runlength_count_mask_ones devc Hw), bind_Some.
  unfold g_malloc. rewrite (u64_small (limit_samples devc * 4)) by lia.
  destruct (Z.eqb_spec (limit_samples devc * 4) 0) as [Hnone|Hsome].
  { subst repeats. unfold raw_samples.
    replace (limit_samples devc) with 0 by lia.
    change (seqZ 0 0) with (@nil Z). cbn [map]. by rewrite take_nil. }
  destruct Hcase as [?|Hrefused]; [lia|].
  destruct (decode_widths devc Hw Hd Hfit)
    as (Hrcwb & Hdwb & Hcode & Hwide & Hal & Hrdwb & Hr4).
  destruct (decode_repeats_fields devc raw Hbytes Hw Hd Hfit Hraw Hlen Hn)
    as [Hrepeats Hrange].
  fold w repeats in Hrepeats, Hrange.
  assert (Hreplen : Z.of_nat (length repeats) = limit_samples devc).
  { subst repeats. unfold raw_samples.
    rewrite !length_map, length_seqZ. lia. }
  assert (Hsum : limit_samples devc <= sum_list repeats
                 <= limit_samples devc * 2 ^ w).
  { rewrite <- Hreplen. split.
    - apply sum_list_lower. eapply Forall_impl; [exact Hrange|]. cbn. lia.
    - apply sum_list_upper. eapply Forall_impl; [exact Hrange|]. cbn. lia. }
  rewrite Hrepeats, bind_Some. cbv beta iota.
  fold dwb. fold dwb in Hdwb. unfold g_try_malloc.
  rewrite (u64_small (sum_list repeats * dwb)) by nia.
  rewrite Hrefused. destruct (_ =? 0); reflexivity.
Qed.

Lemma runlength_decode_refuses_witness :
  ipdbg_la_runlength_decode (fun _ => false) devc_two_runs
  = Some (false, 1, 4, devc_two_runs).
Proof.
  apply (runlength_decode_refuses (fun _ => false) devc_two_runs
           [0; 0xAB; 2; 0xCD]).
  - repeat apply Forall_cons_2; auto; unfold is_byte; lia.
  - cbn. lia.
  - cbn. lia.
  - cbn. lia.
  - reflexivity.
  - reflexivity.
  - cbn. lia.
  - vm_compute. reflexivity.
  - right. reflexivity.
Defined.

(** ** What the trigger translation leaves alone *)

Lemma vector_update_beside (v : trigger_vector) (i : Z) (f : Z -> Z)
    (d d' : dev_context) :
  vector_update v i f d = Some d' -> beside_vectors d' = beside_vectors d.
Proof.
  unfold vector_update. destruct (peek (vector_of v d) i) as [x|];
    [|discriminate].
  rewrite bind_Some. intros [= <-].
  destruct v, d; unfold beside_vectors; cbn; rewrite length_insert;
    reflexivity.
Qed.

Ltac update_step H :=
  let d1 := fresh "d" in
  let E := fresh "E" in
  match type of H with
  | (?c ≫= _) = Some _ =>
      destruct c as [d1|] eqn:E;
      [rewrite bind_Some in H; apply vector_update_beside in E
      |discriminate H]
  end.

Lemma clear_vectors_beside (k : nat) (i : Z) (d d' : dev_context) :
  clear_vectors k i d = Some d' -> beside_vectors d' = beside_vectors d.
Proof.
  revert i d. induction k as [|k IH]; intros i d H.
  - injection H as <-. reflexivity.
  - cbn [clear_vectors] in H.
    destruct (clear_vectors_at i d) as [d5|] eqn:Hat; [|discriminate H].
    rewrite bind_Some in H. apply IH in H. rewrite H.
    unfold clear_vectors_at in Hat.
    do 4 update_step Hat. apply vector_update_beside in Hat. congruence.
Qed.

Lemma convert_match_beside (m : sr_trigger_match) (d d' : dev_context) :
  convert_match m d = Some d' -> beside_vectors d' = beside_vectors d.
Proof.
  unfold convert_match. destruct (_ <? 0); [discriminate|].
  destruct (negb _); [by intros [= <-]|].
  destruct (match_kind m); intros H;
    try (injection H as <-; reflexivity);
    repeat update_step H; apply vector_update_beside in H; congruence.
Qed.

Lemma convert_matches_beside (ms : list sr_trigger_match)
    (d d' : dev_context) :
  convert_matches ms d = Some d' -> beside_vectors d' = beside_vectors d.
Proof.
  revert d. induction ms as [|m ms IH]; intros d H.
  - injection H as <-. reflexivity.
  - cbn [convert_matches] in H.
    destruct (convert_match m d) as [d1|] eqn:Hm; [|discriminate H].
    rewrite bind_Some in H. apply IH in H. apply convert_match_beside in Hm.
    congruence.
Qed.

(** X22.  Whatever the trigger, [ipdbg_la_convert_trigger] reports [SR_OK]
    and changes nothing in the context but the contents of the five
    vectors, the transfer count and the raw buffer, which it resets, and the
    stage count, which it sets to 0 and never counts up, however many stages
    the trigger has. *)
Theorem convert_trigger_keeps_context (trigger : option sr_trigger)
    (devc devc' : dev_context) (st : sr_status) :
  ipdbg_la_convert_trigger trigger devc = Some (st, devc') ->
  st = SR_OK
  /\ beside_vectors devc'
     = beside_vectors
         (set_raw_sample_buf None
            (set_num_transfers 0 (set_num_stages 0 devc))).
Proof.
  unfold ipdbg_la_convert_trigger. intros H.
  destruct (clear_vectors _ _ _) as [d1|] eqn:Hclear; [|discriminate H].
  rewrite bind_Some in H. apply clear_vectors_beside in Hclear.
  destruct trigger as [t|].
  - destruct (convert_stages (stages t) d1) as [d2|] eqn:Hstages;
      [|discriminate H].
    rewrite bind_Some in H. injection H as <- <-.
    rewrite convert_stages_flat in Hstages.
    apply convert_matches_beside in Hstages. split; [reflexivity|].
    congruence.
  - injection H as <- <-. auto.
Qed.

Lemma convert_trigger_keeps_context_witness :
  SR_OK = SR_OK
  /\ beside_vectors
       (mk_devc 16 2 10 2 1024 1024 50 [0x20; 0x02] [0x20; 0] [0x20; 0x02]
          [0; 0x02] [0x01; 0] 0 0 0 None 0 0 0 0)
     = beside_vectors
         (set_raw_sample_buf None
            (set_num_transfers 0 (set_num_stages 0 devc_example))).
Proof.
  apply (convert_trigger_keeps_context (Some trigger_example) devc_example).
  vm_compute. reflexivity.
Defined.

Lemma beside_vectors_lengths (d d' : dev_context) :
  beside_vectors d' = beside_vectors d ->
  (forall v, length (vector_of v d') = length (vector_of v d))
  /\ data_width_bytes d' = data_width_bytes d.
Proof.
  unfold beside_vectors. cbn [map]. intros H.
  injection H as _ Hdwb _ _ _ _ _ _ _ _ _ _ _ _ _ H1 H2 H3 H4 H5.
  split; [|exact Hdwb]. intros []; assumption.
Qed.

Lemma convert_match_outside (m : sr_trigger_match) (n : Z)
    (d : dev_context) :
  (forall v, Z.of_nat (length (vector_of v d)) = n) ->
  enabled (channel m) = true ->
  handled (match_kind m) = true ->
  8 * n <= index (channel m) ->
  convert_match m d = None.
Proof.
  intros Hlen Hen Hkind Hidx.
  assert (Hn : 0 <= n) by (rewrite <- (Hlen Vmask); lia).
  unfold convert_match.
  pose proof (Z.rem_nonneg (index (channel m)) 8 ltac:(lia) ltac:(lia)).
  destruct (Z.ltb_spec (Z.rem (index (channel m)) 8) 0); [lia|].
  rewrite Hen. cbn [negb].
  assert (Hq : n <= Z.quot (index (channel m)) 8).
  { rewrite Z.quot_div_nonneg by lia. apply Z.div_le_lower_bound; lia. }
  assert (Hnone : forall v f,
            vector_update v (Z.quot (index (channel m)) 8) f d = None).
  { intros v f. unfold vector_update, peek.
    destruct (Z.ltb_spec (Z.quot (index (channel m)) 8) 0); [reflexivity|].
    rewrite (lookup_ge_None_2 (vector_of v d)); [reflexivity|].
    specialize (Hlen v). lia. }
  destruct (match_kind m); try discriminate Hkind; by rewrite Hnone.
Qed.

(** X23.  [ipdbg_la_convert_trigger] does not check the channel of a match
    against the width of the device: a match of a kind it handles on an
    enabled channel whose index is beyond the last bit of the vectors is
    written outside the vectors, and the call has no defined result. *)
Theorem convert_trigger_outside_vectors (trigger : option sr_trigger)
    (devc : dev_context) (m : sr_trigger_match) :
  vectors_allocated devc ->
  m ∈ all_matches trigger ->
  enabled (channel m) = true ->
  handled (match_kind m) = true ->
  8 * data_width_bytes devc <= index (channel m) ->
  ipdbg_la_convert_trigger trigger devc = None.
Proof.
  intros Halloc Hin Hen Hkind Hidx. unfold ipdbg_la_convert_trigger.
  destruct (clear_vectors _ _ _) as [d1|] eqn:Hclear; [|reflexivity].
  rewrite bind_Some. apply clear_vectors_beside in Hclear.
  destruct trigger as [t|]; [|by apply elem_of_nil in Hin].
  cbn [all_matches] in Hin. rewrite convert_stages_flat.
  apply list_elem_of_split in Hin as (ms1 & ms2 & Hsplit). rewrite Hsplit.
  rewrite convert_matches_app.
  destruct (convert_matches ms1 d1) as [d2|] eqn:Hms1; [|reflexivity].
  rewrite bind_Some. apply convert_matches_beside in Hms1.
  rewrite Hclear in Hms1. apply beside_vectors_lengths in Hms1 as [Hlen Hdwb].
  cbn [convert_matches].
  rewrite (convert_match_outside m (data_width_bytes devc)); auto.
  intros v. rewrite Hlen.
  destruct (convert_trigger_reset devc v) as [-> _]. apply Halloc.
Qed.

Lemma convert_trigger_outside_vectors_witness :
  ipdbg_la_convert_trigger
    (Some (mk_trigger
             [ mk_stage [mk_match (mk_channel 5 true) SR_TRIGGER_ONE];
               mk_stage [mk_match (mk_channel 16 true) SR_TRIGGER_RISING] ]))
    devc_example = None.
Proof.
  apply (convert_trigger_outside_vectors _ devc_example
           (mk_match (mk_channel 16 true) SR_TRIGGER_RISING)).
  - intros []; reflexivity.
  - cbn. apply elem_of_cons. right. apply elem_of_cons. left. reflexivity.
  - reflexivity.
  - reflexivity.
  - cbn. lia.
Defined.

(** The translation bit by bit, for use below. *)
Lemma convert_trigger_table (trigger : option sr_trigger)
    (devc : dev_context) :
  vectors_allocated devc ->
  matches_in_range devc (all_matches trigger) ->
  trigger_translated trigger devc.
Proof.
  intros Halloc Hrange.
  set (n := data_width_bytes devc).
  assert (Hn0 : 0 <= n) by (subst n; rewrite <- (Halloc Vmask); lia).
  unfold trigger_translated, ipdbg_la_convert_trigger.
  set (d0 := set_raw_sample_buf None
               (set_num_transfers 0 (set_num_stages 0 devc))).
  assert (Hd0 : forall v, vector_of v d0 = vector_of v devc)
    by (intros v; apply (convert_trigger_reset devc v)).
  assert (Hn : data_width_bytes d0 = n)
    by apply (convert_trigger_reset devc Vmask).
  rewrite Hn.
  destruct (clear_vectors_zero (Z.to_nat n) 0 n d0)
    as (d1 & -> & Hlen1 & Hn1 & Hz1); try lia.
  { intros v. rewrite Hd0. apply Halloc. }
  rewrite bind_Some.
  assert (Hzero : forall v (j : nat), (j < Z.to_nat n)%nat ->
            vector_of v d1 !! j = Some 0).
  { intros v j Hj. rewrite Hz1.
    change (Z.to_nat 0) with 0%nat. cbn [Nat.leb Nat.add andb].
    destruct (Nat.ltb_spec j (Z.to_nat n)); [reflexivity | lia]. }
  assert (Hok1 : vectors_ok d1).
  { intros v. rewrite Hn1. split; [apply Hlen1|].
    apply Forall_lookup. intros j x Hx.
    assert (Hj : (j < Z.to_nat n)%nat).
    { apply lookup_lt_Some in Hx. specialize (Hlen1 v). lia. }
    rewrite (Hzero v j Hj) in Hx. injection Hx as <-. unfold is_byte. lia. }
  assert (Hbit1 : forall v c, 0 <= c < 8 * n ->
            vector_bit (vector_of v d1) c = false).
  { intros v c Hc. unfold vector_bit.
    assert (Hq : 0 <= c / 8 < n)
      by (split; [apply Z.div_pos; lia | apply Z.div_lt_upper_bound; lia]).
    rewrite (list_lookup_total_correct _ _ 0 (Hzero v (Z.to_nat (c / 8))
                                               ltac:(lia))).
    apply Z.bits_0. }
  destruct trigger as [t|].
  - rewrite convert_stages_flat.
    destruct (convert_matches_table (concat (map matches (stages t))) n d1
                Hok1 Hn1 Hrange) as (d2 & -> & Hok2 & Hn2 & Hb2).
    rewrite bind_Some. exists d2. split; [reflexivity|].
    split; [exact Hok2|]. split; [exact Hn2|].
    intros v c Hc. rewrite Hb2 by lia. rewrite Hbit1 by exact Hc. reflexivity.
  - exists d1. split; [reflexivity|]. split; [exact Hok1|].
    split; [exact Hn1|].
    intros v c Hc. rewrite Hbit1 by exact Hc. reflexivity.
Qed.

Lemma table_keeps_masks_apart (ms : list sr_trigger_match) (c : Z)
    (m ml e : bool) :
  (e = true -> m = false /\ ml = false) ->
  (ml = true -> m = true) ->
  let m' := fold_left (table_step Vmask c) ms m in
  let ml' := fold_left (table_step Vmask_last c) ms ml in
  let e' := fold_left (table_step Vedge_mask c) ms e in
  (e' = true -> m' = false /\ ml' = false) /\ (ml' = true -> m' = true).
Proof.
  revert m ml e. induction ms as [|x ms IH]; intros m ml e He Hml.
  - cbn. auto.
  - cbn [fold_left]. apply IH; unfold table_step;
      destruct (enabled (channel x) && (index (channel x) =? c));
      try assumption; destruct (match_kind x); cbn [table];
      try assumption; try discriminate; auto.
Qed.

(** X24.  After [ipdbg_la_convert_trigger] the vectors agree with each
    other on every channel: a channel in the edge mask is in neither of the
    two level masks, and a channel in the mask of the last sample is in the
    mask of the current one. *)
Theorem convert_trigger_masks_apart (trigger : option sr_trigger)
    (devc : dev_context) :
  vectors_allocated devc ->
  matches_in_range devc (all_matches trigger) ->
  exists devc',
    ipdbg_la_convert_trigger trigger devc = Some (SR_OK, devc')
    /\ forall c, 0 <= c < 8 * data_width_bytes devc ->
         (vector_bit (trigger_edge_mask devc') c = true ->
          vector_bit (trigger_mask devc') c = false
          /\ vector_bit (trigger_mask_last devc') c = false)
         /\ (vector_bit (trigger_mask_last devc') c = true ->
             vector_bit (trigger_mask devc') c = true).
Proof.
  intros Halloc Hrange.
  destruct (convert_trigger_table trigger devc Halloc Hrange)
    as (devc' & Heq & _ & _ & Hbits).
  exists devc'. split; [exact Heq|]. intros c Hc.
  pose proof (Hbits Vmask c Hc) as Hm.
  pose proof (Hbits Vmask_last c Hc) as Hml.
  pose proof (Hbits Vedge_mask c Hc) as He.
  cbn [vector_of] in Hm, Hml, He. rewrite Hm, Hml, He.
  unfold translated_bit.
  apply table_keeps_masks_apart; [discriminate | discriminate].
Qed.

Lemma convert_trigger_masks_apart_witness :
  exists devc',
    ipdbg_la_convert_trigger (Some trigger_example) devc_example
    = Some (SR_OK, devc')
    /\ forall c, 0 <= c < 8 * data_width_bytes devc_example ->
         (vector_bit (trigger_edge_mask devc') c = true ->
          vector_bit (trigger_mask devc') c = false
          /\ vector_bit (trigger_mask_last devc') c = false)
         /\ (vector_bit (trigger_mask_last devc') c = true ->
             vector_bit (trigger_mask devc') c = true).
Proof.
  apply (convert_trigger_masks_apart (Some trigger_example) devc_example).
  - intros []; reflexivity.
  - repeat constructor; cbn; lia.
Defined.

(** ** The sample rate *)

Lemma high_mask_low_bits (x m : Z) :
  Z.land m (Z.ones 32) = 0 ->
  Z.land (u64 (Z.land x m)) (Z.ones 32) = 0
  /\ Z.land (Z.land (u64 x) m) (Z.ones 32) = 0.
Proof.
  intros Hm. unfold u64. rewrite <- !Z.land_ones by lia. split.
  - rewrite <- !Z.land_assoc.
    change (Z.land (Z.ones 64) (Z.ones 32)) with (Z.ones 32).
    rewrite Hm. apply Z.land_0_r.
  - rewrite <- !Z.land_assoc. rewrite Hm, !Z.land_0_r. reflexivity.
Qed.

Lemma samplerate_low_bytes (beyond : Z -> Z -> Z)
    (b0 b1 b2 b3 b4 b5 b6 b7 : Z) :
  is_byte b0 -> is_byte b1 -> is_byte b2 -> is_byte b3 ->
  exists r,
    samplerate_of beyond [b0; b1; b2; b3; b4; b5; b6; b7] = Some r
    /\ r mod 2 ^ 32 = le_value [b0; b1; b2; b3].
Proof.
  intros H0 H1 H2 H3. eexists. split; [reflexivity|]. cbv zeta.
  rewrite <- Z.land_ones by lia. rewrite !Z.land_lor_distr_l.
  rewrite (proj2 (high_mask_low_bits _ 0xFF00000000000000 eq_refl)).
  rewrite (proj1 (high_mask_low_bits _ 0x00FF000000000000 eq_refl)).
  rewrite (proj1 (high_mask_low_bits _ 0x0000FF0000000000 eq_refl)).
  rewrite (proj1 (high_mask_low_bits _ 0x000000FF00000000 eq_refl)).
  rewrite !Z.lor_0_r.
  rewrite <- !Z.land_lor_distr_l, Z.land_ones by lia.
  rewrite <- (le32_field_value beyond) by assumption.
  pose proof (le32_field_range beyond b0 b1 b2 b3 H0 H1 H2 H3) as Hrange.
  unfold le32_field in *.
  rewrite !shl_int_byte, shl_int_byte_24 in * by (auto; lia).
  change 0x000000000000FF00 with (255 * 2 ^ 8) in *.
  change 0x0000000000FF0000 with (255 * 2 ^ 16) in *.
  change 0x00000000FF000000 with (255 * 2 ^ 24) in *.
  rewrite !land_byte_mask in * by (auto; lia).
  rewrite land_255, (Z.mod_small b0) in * by exact H0.
  unfold u32, u64 in *. unfold is_byte in *.
  rewrite !(Z.mod_small b0), !(Z.mod_small (b1 * _)), !(Z.mod_small (b2 * _)),
    !(Z.mod_small (b3 * _)) in * by lia.
  apply Z.mod_small. exact Hrange.
Qed.

(** X25.  When the eight bytes of the answer arrive,
    [ipdbg_la_set_samplerate] sends 0x80, takes exactly these bytes and
    stores a rate whose low 32 bits are the first four bytes as a
    little-endian number, whatever the shifts by 32 bits and more leave in
    the high half. *)
Theorem set_samplerate_keeps_low_bytes (beyond : Z -> Z -> Z)
    (devc : dev_context) (rx : list rx_event) (wire : list Z)
    (b0 b1 b2 b3 b4 b5 b6 b7 : Z) (rest : list Z) :
  Z.land (features devc) FEATURE_AUGMENTER_SAMPLERATE_ENABLED <> 0 ->
  pending rx = [b0; b1; b2; b3; b4; b5; b6; b7] ++ rest ->
  (empty_polls rx < 2000)%nat ->
  Forall is_byte [b0; b1; b2; b3] ->
  exists r rx',
    ipdbg_la_set_samplerate beyond devc (reliable rx wire)
    = Some (set_cur_samplerate r devc, reliable rx' (wire ++ [0x80]))
    /\ pending rx' = rest
    /\ r mod 2 ^ 32 = le_value [b0; b1; b2; b3].
Proof.
  intros Hbit Hpend Hpolls Hbytes. unfold ipdbg_la_set_samplerate.
  destruct (Z.eqb_spec (Z.land (features devc)
                          FEATURE_AUGMENTER_SAMPLERATE_ENABLED) 0) as [?|_];
    [contradiction|].
  unfold io_bind. rewrite tcp_send_reliable.
  destruct (tcp_receive_blocking_full 8 rx (wire ++ [CMD_GET_SAMPLE_RATE]))
    as (rx' & -> & Hrest & _);
    [rewrite Hpend, length_app; cbn [length]; lia | exact Hpolls |].
  rewrite Hpend in *. change (Z.to_nat 8) with 8%nat in *.
  cbn [app firstn skipn] in *. rewrite take_0. rewrite drop_0 in Hrest.
  cbn [Z.eqb Pos.eqb negb].
  apply Forall_cons_1 in Hbytes as [H0 Hbytes].
  apply Forall_cons_1 in Hbytes as [H1 Hbytes].
  apply Forall_cons_1 in Hbytes as [H2 Hbytes].
  apply Forall_cons_1 in Hbytes as [H3 _].
  destruct (samplerate_low_bytes beyond b0 b1 b2 b3 b4 b5 b6 b7 H0 H1 H2 H3)
    as (r & -> & Hr).
  exists r, rx'. split; [reflexivity|]. split; [exact Hrest | exact Hr].
Qed.

Lemma set_samplerate_keeps_low_bytes_witness :
  exists r rx',
    ipdbg_la_set_samplerate beyond_x86 devc_samplerate
      (reliable [RxData [0x00; 0xE1; 0xF5]; RxData [0x05; 1; 0; 0; 0; 7]] [])
    = Some (set_cur_samplerate r devc_samplerate,
            reliable rx' ([] ++ [0x80]))
    /\ pending rx' = [7]
    /\ r mod 2 ^ 32 = le_value [0x00; 0xE1; 0xF5; 0x05].
Proof.
  apply (set_samplerate_keeps_low_bytes beyond_x86 devc_samplerate
           [RxData [0x00; 0xE1; 0xF5]; RxData [0x05; 1; 0; 0; 0; 7]] []
           0x00 0xE1 0xF5 0x05 1 0 0 0 [7]).
  - vm_compute. discriminate.
  - reflexivity.
  - cbn. lia.
  - repeat apply Forall_cons_2; auto; unfold is_byte; lia.
Defined.

(** ** From the raw samples to the packets *)

(** The decoder's result, for use below. *)
Lemma runlength_decode_expansion (can_alloc : Z -> bool)
    (devc : dev_context) (raw : list Z) :
  let w := runlength_code_width devc in
  let dwb := decode_data_width_bytes devc in
  let samples := raw_samples raw (raw_data_width_bytes devc)
                   (limit_samples devc) in
  Forall is_byte raw ->
  0 < w < 32 ->
  0 < data_width devc ->
  data_width devc + w + 7 < 2 ^ 32 ->
  raw_sample_buf devc = Some raw ->
  Z.of_nat (length raw) = byte_budget devc ->
  0 < limit_samples devc < 2 ^ 32 ->
  limit_samples devc * 2 ^ w * dwb < 2 ^ 64 ->
  extraction_inside devc ->
  can_alloc (sum_list (map (sample_repeat w) samples) * dwb) = true ->
  runlength_expands can_alloc devc raw.
Proof.
  intros w dwb samples Hbytes Hw Hd Hfit Hraw Hlen Hn Hsize Hinside Halloc.
  destruct (decode_widths devc Hw Hd Hfit)
    as (Hrcwb & Hdwb & Hcode & Hwide & Hal & Hrdwb & Hr4).
  destruct (decode_repeats_fields devc raw Hbytes Hw Hd Hfit Hraw Hlen
              ltac:(lia)) as [Hrepeats Hrange].
  fold w samples in Hrepeats, Hrange.
  set (repeats := map (sample_repeat w) samples) in *.
  assert (Hreplen : Z.of_nat (length repeats) = limit_samples devc).
  { subst repeats samples. unfold raw_samples.
    rewrite !length_map, length_seqZ. lia. }
  assert (Hsum : limit_samples devc <= sum_list repeats
                 <= limit_samples devc * 2 ^ w).
  { rewrite <- Hreplen. split.
    - apply sum_list_lower. eapply Forall_impl; [exact Hrange|]. cbn. lia.
    - apply sum_list_upper. eapply Forall_impl; [exact Hrange|]. cbn. lia. }
  assert (Htotal : 0 < sum_list repeats * dwb < 2 ^ 64) by nia.
  unfold runlength_expands. fold w samples repeats dwb.
  split; [exact Hrepeats|].
  unfold ipdbg_la_runlength_decode.
  destruct (Z.eqb_spec (runlength_code_width devc) 0) as [?|_]; [lia|].
  rewrite (runlength_count_mask_ones devc Hw), bind_Some.
  unfold g_malloc. rewrite (u64_small (limit_samples devc * 4)) by lia.
  destruct (Z.eqb_spec (limit_samples devc * 4) 0) as [?|_]; [lia|].
  rewrite Hrepeats, bind_Some. cbv beta iota.
  fold dwb. unfold g_try_malloc.
  rewrite (u64_small (sum_list repeats * dwb)) by lia.
  destruct (Z.eqb_spec (sum_list repeats * dwb) 0) as [?|_]; [lia|].
  rewrite Halloc, Hraw. cbn [default from_option id].
  unfold byte_budget in Hlen.
  pose proof (expand_value raw w (raw_data_width_bytes devc)
                (runlength_code_width_bytes devc) dwb Hbytes Hw Hrcwb
                ltac:(lia) Hcode Hwide Hinside Hal Hrdwb
                (limit_samples devc) (Z.to_nat (limit_samples devc)) 0 []
                ltac:(lia) ltac:(lia) ltac:(lia)) as Hexpand.
  rewrite Z2Nat.id in Hexpand by lia. cbn [app] in Hexpand.
  fold (raw_samples raw (raw_data_width_bytes devc) (limit_samples devc))
    in Hexpand.
  fold samples repeats in Hexpand. fold w. rewrite Hexpand, bind_Some.
  pose proof (run_length_expansion_length w dwb Hw ltac:(lia) samples)
    as Hlenout.
  fold repeats in Hlenout. rewrite length_replicate.
  destruct (Nat.ltb_spec (Z.to_nat (sum_list repeats * dwb))
              (length (run_length_expansion w dwb samples))); [lia|].
  rewrite drop_ge, app_nil_r by (rewrite length_replicate; lia).
  reflexivity.
Qed.

Lemma run_length_expansion_app (w dwb : Z) (s1 s2 : list (list Z)) :
  run_length_expansion w dwb (s1 ++ s2)
  = run_length_expansion w dwb s1 ++ run_length_expansion w dwb s2.
Proof. unfold run_length_expansion. by rewrite map_app, concat_app. Qed.

(** X26.  Decoding and delivery together.  When the transfer total is
    reached with a run-length code of 1 to 31 bits, [ipdbg_la_receive_data]
    returns TRUE and sends the expansion of the first [delay_value] raw
    samples, if there are any, then the trigger marker, then the expansion
    of the other raw samples, then the end marker: the trigger stays between
    the same two raw samples. *)
Theorem receive_data_delivers_expansion (can_alloc : Z -> bool)
    (sdi : sr_dev_inst) (devc : dev_context) (raw : list Z) :
  let w := runlength_code_width devc in
  let dwb := decode_data_width_bytes devc in
  let samples := raw_samples raw (raw_data_width_bytes devc)
                   (limit_samples devc) in
  let before := run_length_expansion w dwb
                  (take (Z.to_nat (delay_value devc)) samples) in
  let after := run_length_expansion w dwb
                 (drop (Z.to_nat (delay_value devc)) samples) in
  priv sdi = Some devc ->
  u64 (transfer_total devc) <= num_transfers devc ->
  data_width_bytes devc = dwb ->
  Forall is_byte raw ->
  0 < w < 32 ->
  0 < data_width devc ->
  data_width devc + w + 7 < 2 ^ 32 ->
  raw_sample_buf devc = Some raw ->
  Z.of_nat (length raw) = byte_budget devc ->
  0 < limit_samples devc < 2 ^ 32 ->
  limit_samples devc * 2 ^ w * dwb < 2 ^ 64 ->
  extraction_inside devc ->
  can_alloc (sum_list (map (sample_repeat w) samples) * dwb) = true ->
  exists sdi',
    ipdbg_la_receive_data can_alloc (Some sdi) = Some (true, Some sdi')
    /\ session_feed (session sdi')
       = session_feed (session sdi)
         ++ (if 0 <? delay_value devc
             then [SR_DF_LOGIC (Z.of_nat (length before)) dwb
                     (before ++ after)]
             else [])
         ++ [ SR_DF_TRIGGER;
              SR_DF_LOGIC (Z.of_nat (length after)) dwb after;
              SR_DF_END ]
    /\ session_source (session sdi') = false
    /\ (exists devc', priv sdi' = Some devc' /\ raw_sample_buf devc' = None).
Proof.
  intros w dwb samples before after Hpriv Hall Hwidth Hbytes Hw Hd Hfit Hraw
    Hlen Hn Hsize Hinside Halloc.
  destruct (runlength_decode_expansion can_alloc devc raw Hbytes Hw Hd Hfit
              Hraw Hlen Hn Hsize Hinside Halloc) as [Hrepeats Hdecode].
  fold w dwb samples in Hrepeats, Hdecode.
  destruct (decode_widths devc Hw Hd Hfit)
    as (_ & Hdwb & _).
  fold dwb in Hdwb.
  pose proof (decode_repeats_fields devc raw Hbytes Hw Hd Hfit Hraw Hlen
                ltac:(lia)) as [_ Hrange].
  fold w samples in Hrange.
  set (repeats := map (sample_repeat w) samples) in *.
  set (out := run_length_expansion w dwb samples) in *.
  assert (Hsplit : out = before ++ after).
  { subst out before after. rewrite <- run_length_expansion_app.
    by rewrite take_drop. }
  assert (Hreplen : Z.of_nat (length repeats) = limit_samples devc).
  { subst repeats samples. unfold raw_samples.
    rewrite !length_map, length_seqZ. lia. }
  assert (Hsum : sum_list repeats <= limit_samples devc * 2 ^ w).
  { rewrite <- Hreplen. apply sum_list_upper.
    eapply Forall_impl; [exact Hrange|]. cbn. lia. }
  assert (Hpos : Forall (fun r => 0 <= r) repeats)
    by (eapply Forall_impl; [exact Hrange|]; cbn; lia).
  pose proof (sum_list_take repeats (Z.to_nat (delay_value devc)) Hpos)
    as Hdelay.
  pose proof (run_length_expansion_length w dwb Hw ltac:(lia) samples)
    as Hlenout.
  pose proof (run_length_expansion_length w dwb Hw ltac:(lia)
                (take (Z.to_nat (delay_value devc)) samples)) as Hlenbefore.
  fold out repeats in Hlenout. fold before in Hlenbefore.
  rewrite <- firstn_map in Hlenbefore. fold repeats in Hlenbefore.
  assert (Hlenafter : Z.of_nat (length after)
                      = (sum_list repeats
                         - sum_list (take (Z.to_nat (delay_value devc))
                                       repeats)) * dwb).
  { rewrite Hsplit, length_app in Hlenout. lia. }
  assert (Hdrop : drop (Z.to_nat (sum_list (take (Z.to_nat (delay_value devc))
                                             repeats) * dwb)) out = after).
  { rewrite <- Hlenbefore, Nat2Z.id, Hsplit. apply drop_app_length. }
  assert (Hsign : (0 <? sum_list (take (Z.to_nat (delay_value devc)) repeats))
                  = (0 <? delay_value devc)).
  { destruct (Z.ltb_spec 0 (delay_value devc)) as [Hdv|Hdv].
    - apply Z.ltb_lt.
      assert (Hfirst : exists r rs, repeats = r :: rs).
      { destruct repeats as [|r rs]; [cbn [length] in Hreplen; lia|eauto]. }
      destruct Hfirst as (r & rs & Hrs). rewrite Hrs in *.
      destruct (Z.to_nat (delay_value devc)) as [|k] eqn:Hk; [lia|].
      cbn [take]. apply Forall_cons_1 in Hrange as [Hr Hrest].
      apply Forall_cons_1 in Hpos as [_ Hpos].
      pose proof (sum_list_take rs k Hpos). unfold sum_list in *.
      cbn [foldr]. lia.
    - replace (Z.to_nat (delay_value devc)) with 0%nat by lia.
      rewrite take_0. reflexivity. }
  eexists. split.
  - apply (deliver_after_decode can_alloc sdi devc
             (set_raw_sample_buf (Some out) devc) raw out _ _ Hpriv Hraw Hall
             Hdecode).
    + reflexivity.
    + lia.
    + nia.
    + cbn [data_width_bytes set_raw_sample_buf]. lia.
    + cbn [data_width_bytes set_raw_sample_buf]. rewrite Hwidth. lia.
    + nia.
  - cbn [session session_feed session_source data_width_bytes
         set_raw_sample_buf priv raw_sample_buf].
    rewrite Hwidth, Hdrop, Hsign, <- Hlenbefore, Hlenafter, <- Hsplit.
    split; [reflexivity|]. split; [reflexivity|]. eauto.
Qed.

Lemma receive_data_delivers_expansion_witness :
  exists sdi',
    ipdbg_la_receive_data (fun _ => true)
      (Some (mk_sdi (Some devc_two_runs) (reliable [] [])
               (mk_session None [] true)))
    = Some (true, Some sdi')
    /\ session_feed (session sdi')
       = []
         ++ (if 0 <? 1
             then [SR_DF_LOGIC (Z.of_nat (length [0xAB])) 1
                     ([0xAB] ++ [0xCD; 0xCD; 0xCD])]
             else [])
         ++ [ SR_DF_TRIGGER;
              SR_DF_LOGIC (Z.of_nat (length [0xCD; 0xCD; 0xCD])) 1
                [0xCD; 0xCD; 0xCD];
              SR_DF_END ]
    /\ session_source (session sdi') = false
    /\ (exists devc', priv sdi' = Some devc' /\ raw_sample_buf devc' = None).
Proof.
  apply (receive_data_delivers_expansion (fun _ => true)
           (mk_sdi (Some devc_two_runs) (reliable [] [])
              (mk_session None [] true))
           devc_two_runs [0; 0xAB; 2; 0xCD]).
  - reflexivity.
  - vm_compute. discriminate.
  - reflexivity.
  - repeat apply Forall_cons_2; auto; unfold is_byte; lia.
  - cbn. lia.
  - cbn. lia.
  - cbn. lia.
  - reflexivity.
  - reflexivity.
  - cbn. lia.
  - vm_compute. reflexivity.
  - left. vm_compute. discriminate.
  - reflexivity.
Defined.

(** ** The delay without samples *)

Lemma delay_of_zero_samples (capture_ratio : Z) :
  1 <= capture_ratio <= 100 ->
  match delay_of 0 capture_ratio with
  | Some dv => capture_ratio < 100 /\ 2 ^ 57 <= dv
  | None => capture_ratio = 100
  end.
Proof.
  intros Hr.
  assert (Hall : forallb (fun r => match delay_of 0 r with
                                   | Some dv => (r <? 100) && (2 ^ 57 <=? dv)
                                   | None => r =? 100
                                   end) (seqZ 1 100) = true)
    by (vm_compute; reflexivity).
  rewrite forallb_forall in Hall. specialize (Hall capture_ratio).
  destruct (delay_of 0 capture_ratio) as [dv|].
  - assert (Hin : In capture_ratio (seqZ 1 100))
      by (apply list_elem_of_In, elem_of_seqZ; lia).
    apply Hall, andb_true_iff in Hin as [Hlt Hle].
    split; [by apply Z.ltb_lt | by apply Z.leb_le].
  - apply Z.eqb_eq, Hall, list_elem_of_In, elem_of_seqZ. lia.
Qed.

(** X27.  With [limit_samples] 0 the delay is not 0: [limit_samples - 1]
    wraps to 2^64 - 1 before the division.  With an address of at most four
    bytes: for a capture ratio of 1 to 99
    the call succeeds and the delay stored is 2^57 or more; for a capture
    ratio of 100 the product is 2^64, beyond [uint64_t], and the conversion,
    and with it the call, has no defined result. *)
Theorem send_delay_without_samples (devc : dev_context)
    (rx : list rx_event) (wire : list Z) :
  limit_samples devc = 0 ->
  1 <= capture_ratio devc <= 100 ->
  0 <= addr_width_bytes devc <= 4 ->
  (capture_ratio devc = 100
   /\ ipdbg_la_send_delay devc (reliable rx wire) = None)
  \/ (capture_ratio devc < 100
      /\ exists devc' tcp',
           ipdbg_la_send_delay devc (reliable rx wire)
           = Some (SR_OK, devc', tcp')
           /\ 2 ^ 57 <= delay_value devc').
Proof.
  intros Hn Hr Hawb.
  pose proof (delay_of_zero_samples (capture_ratio devc) Hr) as Hdelay.
  destruct (delay_of 0 (capture_ratio devc)) as [dv|] eqn:Hdv.
  - right. destruct Hdelay as [Hlt Hbig]. split; [exact Hlt|].
    destruct (send_delay_reliable devc dv rx wire Hawb)
      as (bytes & Heq & _); [by rewrite Hn|].
    eexists _, _. split; [exact Heq | exact Hbig].
  - left. split; [exact Hdelay|].
    unfold ipdbg_la_send_delay. by rewrite Hn, Hdv.
Qed.

(** No samples and a capture ratio of 100: no defined result.  No samples
    and a capture ratio of 50: the delay is 2^63. *)
Lemma send_delay_without_samples_witness :
  ipdbg_la_send_delay
    (mk_devc 8 1 10 2 0 1024 100 [0] [0] [0] [0] [0] 0 0 0 None 0 0 0 0)
    (reliable [] []) = None
  /\ exists devc' tcp',
       ipdbg_la_send_delay
         (mk_devc 8 1 10 2 0 1024 50 [0] [0] [0] [0] [0] 0 0 0 None 0 0 0 0)
         (reliable [] [])
       = Some (SR_OK, devc', tcp')
       /\ 2 ^ 57 <= delay_value devc'.
Proof.
  split.
  - destruct (send_delay_without_samples
                (mk_devc 8 1 10 2 0 1024 100 [0] [0] [0] [0] [0] 0 0 0 None
                   0 0 0 0) [] [])
      as [[_ Hnone]|[Hlt _]];
      [reflexivity | cbn; lia | cbn; lia | exact Hnone | cbn in Hlt; lia].
  - destruct (send_delay_without_samples
                (mk_devc 8 1 10 2 0 1024 50 [0] [0] [0] [0] [0] 0 0 0 None
                   0 0 0 0) [] [])
      as [[Heq _]|[_ Hsome]];
      [reflexivity | cbn; lia | cbn; lia | cbn in Heq; lia | exact Hsome].
Defined.

(** ** Giving up *)

Lemma tcp_receive_polls (bufsize : Z) (tcp : ipdbg_la_tcp) :
  0 < bufsize ->
  exists recd bytes tcp',
    ipdbg_la_tcp_receive bufsize tcp = Some ((recd, bytes), tcp')
    /\ (0 < recd ->
        empty_polls (sock_rx tcp') = empty_polls (sock_rx tcp))
    /\ (recd <= 0 ->
        (sock_rx tcp = [] /\ sock_rx tcp' = [])
        \/ empty_polls (sock_rx tcp) = S (empty_polls (sock_rx tcp'))).
Proof.
  intros Hsize. unfold ipdbg_la_tcp_receive.
  destruct (sock_rx tcp) as [|[| |bytes] rx] eqn:Hrx.
  - eexists _, _, _. split; [reflexivity|]. rewrite Hrx. split; [lia|auto].
  - eexists _, _, _. split; [reflexivity|]. cbn. split; [lia|auto].
  - eexists _, _, _. split; [reflexivity|]. cbn. split; [lia|auto].
  - eexists _, _, _. split; [reflexivity|]. cbn [sock_rx].
    destruct bytes as [|b bytes].
    + rewrite take_nil, drop_nil. cbn. split; [lia|auto].
    + destruct (Z.to_nat bufsize) as [|k] eqn:Hk; [lia|].
      cbn [take drop firstn skipn length]. split; [|lia].
      intros _. destruct (drop k bytes); reflexivity.
Qed.

Lemma tcp_receive_blocking_loop_dry (fuel : nat)
    (bufsize received error_count : Z) (buf : list Z) (tcp : ipdbg_la_tcp) :
  sock_rx tcp = [] ->
  exists n buf' tcp',
    tcp_receive_blocking_loop fuel bufsize received error_count buf tcp
    = Some ((n, buf'), tcp')
    /\ sock_rx tcp' = [].
Proof.
  intros Hdry. revert received error_count buf.
  induction fuel as [|fuel IH]; intros received error_count buf.
  - eexists _, _, _. split; [reflexivity | exact Hdry].
  - cbn [tcp_receive_blocking_loop].
    destruct (_ && _); [|eexists _, _, _; split; [reflexivity | exact Hdry]].
    unfold io_bind, ipdbg_la_tcp_receive. rewrite Hdry.
    change (0 <? 0) with false. cbv iota beta. apply IH.
Qed.

Lemma tcp_receive_blocking_loop_gives_up (fuel : nat)
    (bufsize received error_count : Z) (buf : list Z) (tcp : ipdbg_la_tcp) :
  Z.max 0 (bufsize - received) + Z.max 0 (2000 - error_count)
  <= Z.of_nat fuel ->
  0 <= error_count <= 2000 ->
  exists n buf' tcp',
    tcp_receive_blocking_loop fuel bufsize received error_count buf tcp
    = Some ((n, buf'), tcp')
    /\ (n < bufsize ->
        sock_rx tcp' = []
        \/ Z.of_nat (empty_polls (sock_rx tcp))
           = Z.of_nat (empty_polls (sock_rx tcp')) + (2000 - error_count)).
Proof.
  revert received error_count buf tcp.
  induction fuel as [|fuel IH]; intros received error_count buf tcp Hfuel Hec.
  - eexists _, _, _. split; [reflexivity|]. cbn [Z.of_nat] in Hfuel. lia.
  - cbn [tcp_receive_blocking_loop].
    destruct (Z.ltb_spec received bufsize) as [Hmore|Hfull];
      [destruct (Z.ltb_spec error_count 2000) as [Htry|Hstop]|];
      cbn [andb].
    2, 3: eexists _, _, _; split; [reflexivity|]; intros ?; right; lia.
    unfold io_bind.
    destruct (tcp_receive_polls (bufsize - received) tcp ltac:(lia))
      as (recd & bytes & tcp1 & -> & Hgot & Hnone).
    destruct (Z.ltb_spec 0 recd) as [Hpos|Hnon].
    + destruct (IH (received + recd) error_count (buf ++ bytes) tcp1)
        as (n & buf' & tcp' & -> & Hshort); [lia | lia |].
      eexists _, _, _. split; [reflexivity|]. rewrite <- (Hgot Hpos).
      exact Hshort.
    + destruct (Hnone Hnon) as [[Hdry Hdry1]|Hpoll].
      * destruct (tcp_receive_blocking_loop_dry fuel bufsize received
                    (error_count + 1) buf tcp1 Hdry1)
          as (n & buf' & tcp' & -> & Hdry').
        eexists _, _, _. split; [reflexivity|]. auto.
      * destruct (IH received (error_count + 1) buf tcp1)
          as (n & buf' & tcp' & -> & Hshort); [lia | lia |].
        eexists _, _, _. split; [reflexivity|]. intros Hn.
        destruct (Hshort Hn) as [?|Hcount]; [auto|]. right. lia.
Qed.

(** X28.  [tcp_receive_blocking] gives up after 2000 reads that brought
    nothing, counted over the whole call and not in a row: when it returns
    fewer bytes than asked for, it has used up exactly 2000 such reads,
    unless the stream has run dry. *)
Theorem tcp_receive_blocking_gives_up (bufsize : Z) (tcp : ipdbg_la_tcp) :
  exists n buf tcp',
    tcp_receive_blocking bufsize tcp = Some ((n, buf), tcp')
    /\ (n < bufsize ->
        sock_rx tcp' = []
        \/ empty_polls (sock_rx tcp)
           = (empty_polls (sock_rx tcp') + 2000)%nat).
Proof.
  unfold tcp_receive_blocking.
  destruct (tcp_receive_blocking_loop_gives_up (Z.to_nat bufsize + 2000)
              bufsize 0 0 [] tcp ltac:(lia) ltac:(lia))
    as (n & buf & tcp' & -> & Hshort).
  eexists _, _, _. split; [reflexivity|]. intros Hn.
  destruct (Hshort Hn) as [?|Hcount]; [auto|]. right. lia.
Qed.

(** ** An acquisition from its first call to the packets *)




